(** * dcj: a Jinja front end for docker compose -- verification of the core

    Shallow embedding of [dcj.py]: the argument rewriter
    ([ArgRewriter.process]), the [.env] loader ([load_dotenv]), the runner
    lookup ([which_compose]) and the orchestration in [main] and
    [run_single_debug].

    Modelling conventions.
    - A Python [str] is a [string]; a character is a code point below 256
      (the Latin-1 range), which covers every character the program tests
      for.
    - [os.environ] is a [gmap string string] (POSIX behaviour: keys are
      case sensitive).
    - An exception is a value of [exn]; a function that may raise returns
      a [result].
    - Everything the program does to the outside world (printing, setting
      an environment variable, creating a directory, writing a file,
      rendering with Jinja, spawning a process) is recorded, in order, in
      a trace of [event]s. *)

From Stdlib Require Import Ascii.
From Stdlib Require String.
From Stdlib Require Import ZArith Lia.
From stdpp Require Import base option list gmap strings.


(** ** Python string primitives *)

Module Py.

(** [a == b] on strings. *)
Definition str_eq (a b : string) : bool := String.eqb a b.

(** [s.startswith(p)] *)
Fixpoint startswith (s p : string) {struct p} : bool :=
  match p, s with
  | EmptyString, _ => true
  | String _ _, EmptyString => false
  | String b p', String a s' => Ascii.eqb a b && startswith s' p'
  end.

(** [s.endswith(p)] *)
Definition endswith (s p : string) : bool :=
  startswith (String.rev s) (String.rev p).

(** [c in s] for a single character [c]. *)
Fixpoint contains (c : ascii) (s : string) : bool :=
  match s with
  | EmptyString => false
  | String a s' => Ascii.eqb a c || contains c s'
  end.

(** [s.split(sep, 1)] for a single-character separator: [None] when the
    separator does not occur (Python then returns the one-element list
    [[s]]), otherwise the text before and after its first occurrence. *)
Fixpoint split_once (sep : ascii) (s : string) : option (string * string) :=
  match s with
  | EmptyString => None
  | String a s' =>
      if Ascii.eqb a sep then Some (EmptyString, s')
      else match split_once sep s' with
           | Some (l, r) => Some (String a l, r)
           | None => None
           end
  end.

(** [str.isspace] on one character of the Latin-1 range: TAB, LF, VT,
    FF, CR, the separators 0x1c-0x1f, space, NEL (0x85) and NBSP (0xa0). *)
Definition isspace (c : ascii) : bool :=
  let n := nat_of_ascii c in
  ((9 <=? n) && (n <=? 13)) || ((28 <=? n) && (n <=? 32))
  || (n =? 133) || (n =? 160).

(** [str.isalnum] on one character of the Latin-1 range. *)
Definition isalnum (c : ascii) : bool :=
  let n := nat_of_ascii c in
  ((48 <=? n) && (n <=? 57)) || ((65 <=? n) && (n <=? 90))
  || ((97 <=? n) && (n <=? 122))
  || (n =? 170) || (n =? 178) || (n =? 179) || (n =? 181) || (n =? 185)
  || (n =? 186) || ((188 <=? n) && (n <=? 190))
  || ((192 <=? n) && (n <=? 214)) || ((216 <=? n) && (n <=? 246))
  || ((248 <=? n) && (n <=? 255)).

(** [str.lower] on one character of the Latin-1 range. *)
Definition lower_char (c : ascii) : ascii :=
  let n := nat_of_ascii c in
  if ((65 <=? n) && (n <=? 90))
     || ((192 <=? n) && (n <=? 214)) || ((216 <=? n) && (n <=? 222))
  then ascii_of_nat (n + 32) else c.

Fixpoint lower (s : string) : string :=
  match s with
  | EmptyString => EmptyString
  | String a s' => String (lower_char a) (lower s')
  end.

(** [s.lstrip()], [s.rstrip()], [s.strip()] *)
Fixpoint lstrip (s : string) : string :=
  match s with
  | EmptyString => EmptyString
  | String a s' => if isspace a then lstrip s' else s
  end.

Definition rstrip (s : string) : string :=
  String.rev (lstrip (String.rev s)).

Definition strip (s : string) : string := rstrip (lstrip s).

(** [s[n:]] *)
Fixpoint drop (n : nat) (s : string) : string :=
  match n, s with
  | O, _ => s
  | S _, EmptyString => EmptyString
  | S n', String _ s' => drop n' s'
  end.

(** [s[:n]] *)
Fixpoint take (n : nat) (s : string) : string :=
  match n, s with
  | O, _ => EmptyString
  | S _, EmptyString => EmptyString
  | S n', String a s' => String a (take n' s')
  end.

(** [s[1:-1]] *)
Definition strip_ends (s : string) : string :=
  take (String.length s - 2) (drop 1 s).

(** [s.replace(old, new)] where [old] is the two characters [o1 o2]:
    occurrences are replaced from the left and do not overlap. *)
Fixpoint replace2 (o1 o2 : ascii) (new : string) (s : string) : string :=
  match s with
  | EmptyString => EmptyString
  | String a s' =>
      match s' with
      | EmptyString => s
      | String b s'' =>
          if Ascii.eqb a o1 && Ascii.eqb b o2
          then new +:+ replace2 o1 o2 new s''
          else String a (replace2 o1 o2 new s')
      end
  end.

End Py.

(** ** Exceptions and results *)

Inductive exn : Type :=
| SystemExit (msg : string)     (* [raise SystemExit(msg)] *)
| RuntimeError (msg : string)   (* raised by [which_compose] *)
| IndexError                    (* a list index out of range *)
| OSError (path : string)       (* a failing file-system call *)
| ValueError                    (* [os.environ[k] = v] with a NUL in [v] *)
| TemplateError (msg : string). (* raised by Jinja *)

Inductive result (A : Type) : Type :=
| Ok (a : A)
| Raise (e : exn).
Arguments Ok {A} a.
Arguments Raise {A} e.

(** ** Configuration *)

Definition DEFAULT_TEMPLATE_NAMES : list string :=
  [ "docker-compose.jinja.yml"; "docker-compose.jinja";
    "docker-compose.j2.yml"; "docker-compose.j2" ].
Definition DEFAULT_OUTPUT_YML : string := "docker-compose.yml".
Definition DEFAULT_ENV_FILE : string := ".env".

(** ** ArgRewriter *)

Record CustomArgs : Type := mkCustomArgs {
  yml_file : option string;
  env_file : option string;
  dump : bool
}.

Definition CustomArgs_default : CustomArgs :=
  {| yml_file := None; env_file := None; dump := false |}.

Definition set_yml_file (c : CustomArgs) (v : string) : CustomArgs :=
  {| yml_file := Some v; env_file := env_file c; dump := dump c |}.
Definition set_env_file (c : CustomArgs) (v : string) : CustomArgs :=
  {| yml_file := yml_file c; env_file := Some v; dump := dump c |}.
Definition set_dump (c : CustomArgs) : CustomArgs :=
  {| yml_file := yml_file c; env_file := env_file c; dump := true |}.

Record ArgRewriter : Type := mkArgRewriter {
  original_argv : list string;
  custom : CustomArgs;
  rewritten : list string
}.

(** [ArgRewriter.__init__] *)
Definition ArgRewriter_init (argv : list string) : ArgRewriter :=
  {| original_argv := argv; custom := CustomArgs_default; rewritten := argv |}.

(** [tok.split("=", 1)[1]] *)
Definition split_eq_1 (tok : string) : result string :=
  match Py.split_once "=" tok with
  | Some (_, v) => Ok v
  | None => Raise IndexError
  end.

(** The [while i < len(self.rewritten)] loop of [process].  [fuel] bounds
    the number of iterations; [None] means the fuel ran out. *)
Fixpoint process_loop (fuel : nat) (rewritten : list string) (i : nat)
    (out : list string) (custom : CustomArgs)
  : option (result (list string * CustomArgs)) :=
  if negb (i <? length rewritten) then Some (Ok (out, custom)) else
  match fuel with
  | O => None
  | S fuel =>
    match rewritten !! i with
    | None => Some (Raise IndexError)
    | Some tok =>
      if Py.str_eq tok "--yml-file" || Py.startswith tok "--yml-file=" then
        if Py.str_eq tok "--yml-file" then
          if length rewritten <=? i + 1
          then Some (Raise (SystemExit "--yml-file requires a value"))
          else match rewritten !! (i + 1) with
               | None => Some (Raise IndexError)
               | Some value =>
                   process_loop fuel rewritten (i + 2)
                     (out ++ ["-f"; value]) (set_yml_file custom value)
               end
        else match split_eq_1 tok with
             | Raise e => Some (Raise e)
             | Ok value =>
                 process_loop fuel rewritten (i + 1)
                   (out ++ ["-f"; value]) (set_yml_file custom value)
             end
      else if Py.str_eq tok "--env-file" || Py.startswith tok "--env-file=" then
        if Py.str_eq tok "--env-file" then
          if length rewritten <=? i + 1
          then Some (Raise (SystemExit "--env-file requires a value"))
          else match rewritten !! (i + 1) with
               | None => Some (Raise IndexError)
               | Some value =>
                   process_loop fuel rewritten (i + 2)
                     (out ++ ["--env-file"; value]) (set_env_file custom value)
               end
        else match split_eq_1 tok with
             | Raise e => Some (Raise e)
             | Ok value =>
                 process_loop fuel rewritten (i + 1)
                   (out ++ ["--env-file"; value]) (set_env_file custom value)
             end
      else if Py.str_eq tok "--dump" then
        process_loop fuel rewritten (i + 1) out (set_dump custom)
      else
        process_loop fuel rewritten (i + 1) (out ++ [tok]) custom
    end
  end.

(** [ArgRewriter.process]: on success the rewriter holds the rewritten list
    and the collected custom values.  Every iteration advances the cursor,
    so [len(self.rewritten)] iterations are enough. *)
Definition process (self : ArgRewriter) : option (result ArgRewriter) :=
  match process_loop (length (rewritten self)) (rewritten self) 0 []
          (custom self) with
  | None => None
  | Some (Raise e) => Some (Raise e)
  | Some (Ok (out, c)) =>
      Some (Ok {| original_argv := original_argv self;
                  custom := c; rewritten := out |})
  end.

(** ** The host system and the effects of a run *)

(** What iterating over an opened text file yields: the raw lines (each
    with its line terminator, the byte-order mark already removed by the
    [utf-8-sig] codec), and whether the iteration then ends normally or by
    an exception (an I/O or decoding error; [Unreadable []] is a file that
    cannot even be opened). *)
Inductive file : Type :=
| Readable (raw_lines : list string)
| Unreadable (raw_lines : list string).

(** The Jinja library as a black box: loading and rendering a template
    either gives the rendered text or raises. *)
Inductive render_result : Type :=
| Rendered (text : string)
| RenderFails (msg : string).

Record Host : Type := mkHost {
  program_name : string;                       (* basename of sys.argv[0], or "dcj" *)
  which : string -> option string;             (* shutil.which *)
  regular_file : string -> option file;        (* os.path.isfile, and the content *)
  isdir : string -> bool;                      (* os.path.isdir *)
  dirname : string -> string;                  (* os.path.dirname *)
  makedirs_ok : string -> bool;                (* os.makedirs(d, exist_ok=True) succeeds *)
  open_w_ok : string -> bool;                  (* open(p, "w") succeeds *)
  jinja2_installed : bool;                     (* [import jinja2] succeeds *)
  jinja : string -> gmap string string -> render_result;
  subprocess_run : list string -> Z            (* return code of the child *)
}.

Definition isfile (h : Host) (path : string) : bool :=
  match regular_file h path with Some _ => true | None => false end.

Inductive stream : Type := Stdout | Stderr.

(** What the program prints: one constructor per diagnostic of the source,
    carrying the values it is formatted from (the wording is not
    modelled).  [DbgEnvDump] stands for the whole dump of the environment,
    [DbgJinjaLoader] for the two lines about the Jinja loader, and
    [DbgEnvAdded []] for the line that reports no added variable. *)
Inductive message : Type :=
| MsgForwardingHelp (label : string) (cmd : list string)
| MsgTip
| MsgHelp (prog : string)
| MsgUsing (label : string) (cmd : list string)
| MsgRendered (text : string)
| MsgEnvFileMissing (env_file : string)
| MsgLoadFailed (path : string)
| MsgRenderFailed (e : string)
| MsgDumpNoTemplate
| MsgUncaught (e : exn)
| DbgSkipNoEquals (raw_line : string)
| DbgSkipInvalidKey (key : string)
| DbgProgram (prog : string)
| DbgCwd
| DbgOriginalArgs (argv : list string)
| DbgEnvFile (env_file : string) (found : bool)
| DbgEnvSize (n : nat)
| DbgEnvAdded (keys : list string)
| DbgEnvDump (environ : gmap string string)
| DbgCandidates (names : list string)
| DbgSelected (template : option string)
| DbgPlannedOutput (output_yml : string)
| DbgRunner (label : string) (cmd : list string)
| DbgRunnerFailed (e : string)
| DbgWouldInject (output_yml : string) (b : bool)
| DbgJinjaLoader (template : string)
| DbgJinjaError (template e : string)
| DbgRenderOk (size : nat)
| DbgUseDump
| DbgNoTemplate
| DbgComplete.

Inductive event : Type :=
| Print (to : stream) (m : message)
| SetEnv (key val : string)             (* os.environ[key] = val *)
| MakeDirs (d : string)                 (* os.makedirs *)
| JinjaRender (template : string)       (* the template rendered with the environment *)
| WriteFile (path text : string)        (* open(path, "w") ... f.write(text) *)
| Spawn (cmd : list string).            (* subprocess.run(cmd) *)

Record State : Type := mkState {
  environ : gmap string string;
  trace : list event
}.

(** A computation over the state that may raise.  [None] stands for a
    loop that ran out of fuel. *)
Definition M (A : Type) : Type := State -> option (result A * State).

Definition ret {A} (a : A) : M A := fun s => Some (Ok a, s).
Definition raise {A} (e : exn) : M A := fun s => Some (Raise e, s).
Definition bind {A B} (m : M A) (k : A -> M B) : M B :=
  fun s => match m s with
           | None => None
           | Some (Ok a, s') => k a s'
           | Some (Raise e, s') => Some (Raise e, s')
           end.
(** [try: m  except Exception as e: handler(e)]: [SystemExit] is not an
    [Exception] and passes through. *)
Definition try_except {A} (m : M A) (handler : exn -> M A) : M A :=
  fun s => match m s with
           | Some (Raise (SystemExit msg), s') => Some (Raise (SystemExit msg), s')
           | Some (Raise e, s') => handler e s'
           | r => r
           end.
Definition lift {A} (r : option (result A)) : M A :=
  fun s => match r with Some x => Some (x, s) | None => None end.

Notation "'let*' x ':=' m 'in' k" := (bind m (fun x => k))
  (at level 10, x pattern, m at level 100, k at level 200, only parsing).

Definition emit (e : event) : M unit :=
  fun s => Some (Ok tt, {| environ := environ s; trace := trace s ++ [e] |}).
Definition print (to : stream) (m : message) : M unit := emit (Print to m).
Definition get_environ : M (gmap string string) :=
  fun s => Some (Ok (environ s), s).
Definition setenv (key val : string) : M unit :=
  fun s => Some (Ok tt, {| environ := <[key := val]> (environ s);
                           trace := trace s ++ [SetEnv key val] |}).
Definition when (b : bool) (m : M unit) : M unit := if b then m else ret tt.

(** Python truthiness of a string and of an optional string, and [a or b]. *)
Definition nonempty (s : string) : bool := negb (Py.str_eq s "").
Definition truthy (o : option string) : bool :=
  match o with Some s => nonempty s | None => false end.
Definition or_else (o : option string) (d : string) : string :=
  match o with Some s => if nonempty s then s else d | None => d end.

Definition exn_text (e : exn) : string :=
  match e with
  | SystemExit m | RuntimeError m | TemplateError m => m
  | IndexError => "list index out of range"
  | ValueError => "embedded null byte"
  | OSError p => p
  end.

(** ** which_compose *)

Definition RUNNER_NOT_FOUND : string :=
  "Neither 'docker' (with 'compose' subcommand) nor 'docker-compose' was found in PATH.".

Definition which_compose (h : Host) : result (list string * string) :=
  let docker_bin := which h "docker" in
  let legacy_bin := which h "docker-compose" in
  match docker_bin with
  | Some d => Ok ([d; "compose"], "docker compose")
  | None =>
      match legacy_bin with
      | Some l => Ok ([l], "docker-compose")
      | None => Raise (RuntimeError RUNNER_NOT_FOUND)
      end
  end.

(** ** parse_equals_or_next *)

Fixpoint parse_equals_or_next_from (i : nat) (argv : list string) (flag : string)
  : result (option string * list nat) :=
  match argv with
  | [] => Ok (None, [])
  | tok :: rest =>
      if Py.str_eq tok flag then
        match rest with
        | value :: _ => Ok (Some value, [i; i + 1])
        | [] => Raise (SystemExit ("Expected a value after " +:+ flag))
        end
      else if Py.startswith tok (flag +:+ "=") then
        match split_eq_1 tok with
        | Ok v => Ok (Some v, [i])
        | Raise e => Raise e
        end
      else parse_equals_or_next_from (S i) rest flag
  end.

Definition parse_equals_or_next (argv : list string) (flag : string)
  : result (option string * list nat) :=
  parse_equals_or_next_from 0 argv flag.

(** ** load_dotenv *)

Definition backslash : ascii := "\"%char.
Definition dquote : ascii := "034"%char.
Definition squote : ascii := "'"%char.
Definition hash : ascii := "#"%char.
Definition newline : ascii := "010"%char.
Definition tab : ascii := "009"%char.
Definition nul : ascii := "000"%char.
Definition str1 (c : ascii) : string := String c EmptyString.

(** The scan of [strip_inline_comment_unquoted]: the index of the first
    [#] that is neither escaped nor inside quotes. *)
Fixpoint comment_start (text : string) (i : nat)
    (in_single in_double esc : bool) : option nat :=
  match text with
  | EmptyString => None
  | String ch text' =>
      if esc then comment_start text' (S i) in_single in_double false
      else if Ascii.eqb ch backslash
      then comment_start text' (S i) in_single in_double true
      else if Ascii.eqb ch squote && negb in_double
      then comment_start text' (S i) (negb in_single) in_double false
      else if Ascii.eqb ch dquote && negb in_single
      then comment_start text' (S i) in_single (negb in_double) false
      else if Ascii.eqb ch hash && negb in_single && negb in_double
      then Some i
      else comment_start text' (S i) in_single in_double false
  end.

Definition strip_inline_comment_unquoted (text : string) : string :=
  match comment_start text 0 false false false with
  | Some i => Py.rstrip (Py.take i text)
  | None => Py.rstrip text
  end.

(** [(val.startswith("'") and val.endswith("'")) or
     (val.startswith('"') and val.endswith('"'))] *)
Definition quoted (val : string) : bool :=
  (Py.startswith val (str1 squote) && Py.endswith val (str1 squote))
  || (Py.startswith val (str1 dquote) && Py.endswith val (str1 dquote)).

(** The four chained [replace] calls. *)
Definition decode_escapes (val : string) : string :=
  Py.replace2 backslash squote (str1 squote)
    (Py.replace2 backslash dquote (str1 dquote)
      (Py.replace2 backslash "t" (str1 tab)
        (Py.replace2 backslash "n" (str1 newline) val))).

(** [val and val[0] != "'"] *)
Definition first_is_not_squote (val : string) : bool :=
  match val with
  | EmptyString => false
  | String c _ => negb (Ascii.eqb c squote)
  end.

(** The value part of a line: comment stripping, unquoting, escapes. *)
Definition parse_value (raw_line val : string) : string :=
  let val :=
    if negb (quoted val)
    then Py.strip (strip_inline_comment_unquoted val) else val in
  if quoted val then
    let val := Py.strip_ends val in
    if Py.startswith (Py.strip raw_line) (str1 dquote) || first_is_not_squote val
    then decode_escapes val else val
  else val.

(** [key and all(c == '_' or c.isalnum() for c in key)] *)
Fixpoint all_key_chars (key : string) : bool :=
  match key with
  | EmptyString => true
  | String c key' => (Ascii.eqb c "_" || Py.isalnum c) && all_key_chars key'
  end.
Definition valid_key (key : string) : bool := nonempty key && all_key_chars key.

(** What one iteration of the loop over the file makes of its line, up to
    the test of the key. *)
Inductive parsed_line : Type :=
| Ignored                        (* blank line or comment *)
| NoEquals                       (* no [=] in the line *)
| Entry (key val : string).

Definition parse_line (raw_line : string) : parsed_line :=
  let line := Py.strip raw_line in
  if negb (nonempty line) || Py.startswith line "#" then Ignored else
  let line :=
    if Py.startswith (Py.lower line) "export "
    then Py.lstrip (Py.drop 7 line) else line in
  match Py.split_once "=" line with
  | None => NoEquals
  | Some (key, val) =>
      let key := Py.strip key in
      let val := Py.strip val in
      Entry key (parse_value raw_line val)
  end.

(** The loop over the lines of the file.  It ends at the end of the file,
    or earlier with the exception that [at_eof] or an assignment to
    [os.environ] raises; the keys added so far are kept either way. *)
Fixpoint load_lines (debug : bool) (raw_lines : list string)
    (at_eof : option exn) (loaded_keys : list string)
  : M (list string * option exn) :=
  match raw_lines with
  | [] => ret (loaded_keys, at_eof)
  | raw_line :: rest =>
      match parse_line raw_line with
      | Ignored => load_lines debug rest at_eof loaded_keys
      | NoEquals =>
          let* _ := when debug
                      (print Stderr (DbgSkipNoEquals (Py.rstrip raw_line))) in
          load_lines debug rest at_eof loaded_keys
      | Entry key val =>
          if valid_key key then
            let* env := get_environ in
            match env !! key with
            | Some _ => load_lines debug rest at_eof loaded_keys
            | None =>
                if Py.contains nul val then ret (loaded_keys, Some ValueError)
                else
                  let* _ := setenv key val in
                  load_lines debug rest at_eof (loaded_keys ++ [key])
            end
          else
            let* _ := when debug (print Stderr (DbgSkipInvalidKey key)) in
            load_lines debug rest at_eof loaded_keys
      end
  end.

Definition load_dotenv (h : Host) (path : string) (debug : bool)
  : M (list string) :=
  match regular_file h path with
  | None => ret []
  | Some f =>
      let '(raw_lines, at_eof) :=
        match f with
        | Readable l => (l, None)
        | Unreadable l => (l, Some (OSError path))
        end in
      let* (loaded_keys, failure) := load_lines debug raw_lines at_eof [] in
      let* _ := match failure with
                | Some _ => print Stderr (MsgLoadFailed path)
                | None => ret tt
                end in
      ret loaded_keys
  end.

(** ** Jinja rendering *)

Definition render_template_string (h : Host) (template_path : string)
    (env : gmap string string) (debug : bool) : M string :=
  if negb (jinja2_installed h)
  then raise (SystemExit
         "Jinja2 is required. Please install it with: pip install jinja2")
  else
    let* _ := when debug (print Stderr (DbgJinjaLoader template_path)) in
    let* _ := emit (JinjaRender template_path) in
    match jinja h template_path env with
    | Rendered rendered => ret rendered
    | RenderFails e =>
        let* _ := when debug (print Stderr (DbgJinjaError template_path e)) in
        raise (TemplateError e)
    end.

Definition render_template_to_yaml (h : Host) (template_path output_path : string)
    (env : gmap string string) (debug : bool) : M unit :=
  let* rendered := render_template_string h template_path env debug in
  if open_w_ok h output_path
  then emit (WriteFile output_path rendered)
  else raise (OSError output_path).

(** ** Orchestration *)

Fixpoint first_existing (h : Host) (names : list string) : option string :=
  match names with
  | [] => None
  | name :: names' => if isfile h name then Some name else first_existing h names'
  end.

Definition find_first_template (h : Host) : option string :=
  first_existing h DEFAULT_TEMPLATE_NAMES.

(** [x in xs] on a list of strings, and [any(t == x for t in argv)]. *)
Definition str_in (x : string) (xs : list string) : bool :=
  existsb (fun t => Py.str_eq t x) xs.

Definition makedirs (h : Host) (d : string) : M unit :=
  if makedirs_ok h d then emit (MakeDirs d) else raise (OSError d).

Definition run_single_debug (h : Host) (program_name : string)
    (argv_wo_dbg : list string) : M Z :=
  let* _ := print Stderr (DbgProgram program_name) in
  let* _ := print Stderr DbgCwd in
  let* _ := print Stderr (DbgOriginalArgs argv_wo_dbg) in
  let* (env_file_val, _) :=
    lift (Some (parse_equals_or_next argv_wo_dbg "--env-file")) in
  let env_path := or_else env_file_val DEFAULT_ENV_FILE in
  let* _ := print Stderr (DbgEnvFile env_path (isfile h env_path)) in
  let* _ := when (truthy env_file_val && negb (isfile h env_path))
              (print Stderr (MsgEnvFileMissing env_path)) in
  let* loaded_keys := load_dotenv h env_path true in
  let* env := get_environ in
  let* _ := print Stderr (DbgEnvSize (size env)) in
  let* _ := print Stderr (DbgEnvAdded loaded_keys) in
  let* _ := print Stderr (DbgEnvDump env) in
  let* _ := print Stderr (DbgCandidates DEFAULT_TEMPLATE_NAMES) in
  let template_path := find_first_template h in
  let* _ := print Stderr (DbgSelected template_path) in
  let* (yml_val, _) :=
    lift (Some (parse_equals_or_next argv_wo_dbg "--yml-file")) in
  let output_yml := or_else yml_val DEFAULT_OUTPUT_YML in
  let* _ := print Stderr (DbgPlannedOutput output_yml) in
  let* _ :=
    match which_compose h with
    | Ok (compose_argv, compose_label) =>
        print Stderr (DbgRunner compose_label compose_argv)
    | Raise e => print Stderr (DbgRunnerFailed (exn_text e))
    end in
  let* rewriter := lift (process (ArgRewriter_init argv_wo_dbg)) in
  let custom_preview := custom rewriter in
  let needs_default_f :=
    bool_decide (is_Some template_path)
    && negb (str_in "-f" (rewritten rewriter))
    && negb (str_in "--file" (rewritten rewriter))
    && negb (truthy (yml_file custom_preview)) in
  let* _ := print Stderr (DbgWouldInject output_yml needs_default_f) in
  (* [Some code] is the early [return code] of the [except] branch *)
  let* returned :=
    match template_path with
    | Some template_path =>
        try_except
          (let* env := get_environ in
           let* rendered := render_template_string h template_path env true in
           let* _ := print Stderr (DbgRenderOk (String.length rendered)) in
           let* _ := print Stderr DbgUseDump in
           ret None)
          (fun e =>
             let* _ := print Stderr (MsgRenderFailed (exn_text e)) in
             ret (Some 1%Z))
    | None =>
        let* _ := print Stderr DbgNoTemplate in
        ret None
    end in
  match returned with
  | Some code => ret code
  | None =>
      let* _ := print Stderr DbgComplete in
      ret 0%Z
  end.

Definition print_help (program_name : string) : M unit :=
  print Stdout (MsgHelp program_name).

(** The final argument list of step 4 of [main]. *)
Definition final_args (needs_default_f : option string)
    (rewritten : list string) : list string :=
  match needs_default_f with
  | Some f => if nonempty f then ["-f"; f] ++ rewritten else rewritten
  | None => rewritten
  end.

(** Steps 4 and 5 of [main]: build the compose command and execute it. *)
Definition main_compose (h : Host) (needs_default_f : option string)
    (rewriter : ArgRewriter) : M Z :=
  let* (compose_argv, compose_label) := lift (Some (which_compose h)) in
  let cmd := compose_argv ++ final_args needs_default_f (rewritten rewriter) in
  let* _ := print Stdout (MsgUsing compose_label cmd) in
  let* _ := emit (Spawn cmd) in
  ret (subprocess_run h cmd).

(** Steps 2 and 3 of [main], with the rewriter of step 1. *)
Definition main_with_rewriter (h : Host) (rewriter : ArgRewriter) : M Z :=
  let debug_enabled := false in
  let custom := custom rewriter in
  (* 2) determine the env file to load *)
  let env_path := or_else (env_file custom) DEFAULT_ENV_FILE in
  let* _ := when (truthy (env_file custom) && negb (isfile h env_path))
              (print Stderr (MsgEnvFileMissing env_path)) in
  let* _ := load_dotenv h env_path debug_enabled in
  (* 3) if a template is present, render it *)
  match find_first_template h with
  | Some template_path =>
      let output_yml := or_else (yml_file custom) DEFAULT_OUTPUT_YML in
      let out_dir := dirname h output_yml in
      let* _ := when (nonempty out_dir && negb (isdir h out_dir))
                  (makedirs h out_dir) in
      if dump custom then
        (* [inr code] is the early [return code] of the [except] branch *)
        let* rendered :=
          try_except
            (let* env := get_environ in
             let* rendered :=
               render_template_string h template_path env debug_enabled in
             ret (inl rendered))
            (fun e =>
               let* _ := print Stderr (MsgRenderFailed (exn_text e)) in
               ret (inr 1%Z)) in
        match rendered with
        | inl rendered =>
            let* _ := print Stdout (MsgRendered rendered) in
            ret 0%Z
        | inr code => ret code
        end
      else
        let* env := get_environ in
        let* _ := render_template_to_yaml h template_path output_yml env
                    debug_enabled in
        let needs_default_f :=
          if negb (str_in "-f" (rewritten rewriter))
             && negb (str_in "--file" (rewritten rewriter))
          then Some output_yml else None in
        main_compose h needs_default_f rewriter
  | None =>
      if dump custom then
        let* _ := print Stderr MsgDumpNoTemplate in
        ret 2%Z
      else main_compose h None rewriter
  end.

(** [main] once no help or debug mode applies. *)
Definition main_normal (h : Host) (argv : list string) : M Z :=
  (* 1) rewrite args and collect custom values *)
  let* rewriter := lift (process (ArgRewriter_init argv)) in
  main_with_rewriter h rewriter.

(** [len(argv) == 1 and argv[0] in ("-h", "--help")] *)
Definition plain_help (argv : list string) : option string :=
  match argv with
  | [a] => if Py.str_eq a "-h" || Py.str_eq a "--help" then Some a else None
  | _ => None
  end.

Definition main (h : Host) (argv : list string) : M Z :=
  let prog := program_name h in
  match plain_help argv with
  | Some a =>
      (* 0) plain Docker Compose help pass-through *)
      let* (compose_argv, compose_label) := lift (Some (which_compose h)) in
      let cmd := compose_argv ++ [a] in
      let* _ := print Stdout (MsgForwardingHelp compose_label cmd) in
      let* _ := emit (Spawn cmd) in
      let* _ := print Stdout MsgTip in
      ret (subprocess_run h cmd)
  | None =>
      if str_in "--jhelp" argv then
        (* 0a) dcj help *)
        let* _ := print_help prog in
        ret 0%Z
      else if str_in "--jdebug" argv then
        (* 0b) dcj debug *)
        let argv_wo_dbg := filter (fun t => t <> "--jdebug") argv in
        run_single_debug h prog argv_wo_dbg
      else main_normal h argv
  end.

(** The exit status the parent process observes after [sys.exit(code)] with
    an integer [code] (CPython on a 64-bit POSIX system): the interpreter
    converts the code to a C [long] and calls [exit], which keeps the low
    eight bits, so a negative code [-n] (the return code [subprocess.run]
    gives for a child killed by signal [n]) leaves as [256 - n]; a code
    that does not fit a C [long] leaves as 255. *)
Definition sys_exit_status (code : Z) : Z :=
  if ((- 2 ^ 63 <=? code) && (code <? 2 ^ 63))%Z
  then (code mod 256)%Z
  else 255%Z.

(** The program: [sys.exit(main(sys.argv[1:]))].  The integer [main]
    returns leaves through [sys.exit]; a [SystemExit] carrying a message
    prints it on standard error and exits with status 1; so does any other
    uncaught exception, with its traceback. *)
Definition dcj (h : Host) (argv : list string) (s : State)
  : option (Z * State) :=
  match main h argv s with
  | None => None
  | Some (Ok code, s') => Some (sys_exit_status code, s')
  | Some (Raise e, s') =>
      Some (1%Z, {| environ := environ s';
                    trace := trace s' ++ [Print Stderr (MsgUncaught e)] |})
  end.

(** ** The units of rewriting

    Each iteration of the loop of [process] consumes one or two tokens and
    emits zero, one or two.  A [segment] names what one iteration saw;
    [segments] cuts a token list the way the loop walks it. *)

Inductive segment : Type :=
| Copied (tok : string)            (* any other token, kept as it is *)
| YmlNext (value : string)         (* [--yml-file value] *)
| YmlEq (tok value : string)       (* [--yml-file=value] *)
| EnvNext (value : string)         (* [--env-file value] *)
| EnvEq (tok value : string)       (* [--env-file=value] *)
| DumpFlag.                        (* [--dump] *)

(** The input tokens an iteration consumes. *)
Definition seg_in (g : segment) : list string :=
  match g with
  | Copied tok => [tok]
  | YmlNext value => ["--yml-file"; value]
  | YmlEq tok _ => [tok]
  | EnvNext value => ["--env-file"; value]
  | EnvEq tok _ => [tok]
  | DumpFlag => ["--dump"]
  end.

(** The output tokens it emits. *)
Definition seg_out (g : segment) : list string :=
  match g with
  | Copied tok => [tok]
  | YmlNext value | YmlEq _ value => ["-f"; value]
  | EnvNext value | EnvEq _ value => ["--env-file"; value]
  | DumpFlag => []
  end.

(** Its effect on the custom values. *)
Definition seg_custom (c : CustomArgs) (g : segment) : CustomArgs :=
  match g with
  | Copied _ => c
  | YmlNext value | YmlEq _ value => set_yml_file c value
  | EnvNext value | EnvEq _ value => set_env_file c value
  | DumpFlag => set_dump c
  end.

Definition is_copied (g : segment) : bool :=
  match g with Copied _ => true | _ => false end.

Definition cons_segment (g : segment) (r : result (list segment))
  : result (list segment) :=
  match r with Ok gs => Ok (g :: gs) | Raise e => Raise e end.

Fixpoint segments (argv : list string) : result (list segment) :=
  match argv with
  | [] => Ok []
  | tok :: rest =>
      if Py.str_eq tok "--yml-file" then
        match rest with
        | [] => Raise (SystemExit "--yml-file requires a value")
        | value :: rest' => cons_segment (YmlNext value) (segments rest')
        end
      else if Py.startswith tok "--yml-file=" then
        match split_eq_1 tok with
        | Ok value => cons_segment (YmlEq tok value) (segments rest)
        | Raise e => Raise e
        end
      else if Py.str_eq tok "--env-file" then
        match rest with
        | [] => Raise (SystemExit "--env-file requires a value")
        | value :: rest' => cons_segment (EnvNext value) (segments rest')
        end
      else if Py.startswith tok "--env-file=" then
        match split_eq_1 tok with
        | Ok value => cons_segment (EnvEq tok value) (segments rest)
        | Raise e => Raise e
        end
      else if Py.str_eq tok "--dump" then cons_segment DumpFlag (segments rest)
      else cons_segment (Copied tok) (segments rest)
  end.

(** What [process] computes, read off the segments. *)
Definition rewrite_result (out : list string) (c : CustomArgs)
    (r : result (list segment)) : result (list string * CustomArgs) :=
  match r with
  | Ok gs => Ok (out ++ flat_map seg_out gs, fold_left seg_custom gs c)
  | Raise e => Raise e
  end.

(** [rewrite_argv argv]: the rewritten list and the custom values of
    [ArgRewriter(argv).process()]. *)
Definition rewrite_argv (argv : list string) : option (result (list string * CustomArgs)) :=
  match process (ArgRewriter_init argv) with
  | None => None
  | Some (Ok rw) => Some (Ok (rewritten rw, custom rw))
  | Some (Raise e) => Some (Raise e)
  end.

(** Marks, position by position: which input tokens a custom flag consumed
    (the flag itself and its value), and which output tokens were injected
    as a replacement. *)
Definition consumed_marks (gs : list segment) : list bool :=
  flat_map (fun g => repeat (negb (is_copied g)) (length (seg_in g))) gs.
Definition injected_marks (gs : list segment) : list bool :=
  flat_map (fun g => repeat (negb (is_copied g)) (length (seg_out g))) gs.

(** [remove_marked marks l]: [l] without the positions marked [true]. *)
Fixpoint remove_marked {A} (marks : list bool) (l : list A) : list A :=
  match marks, l with
  | m :: marks', x :: l' =>
      if m then remove_marked marks' l' else x :: remove_marked marks' l'
  | _, _ => []
  end.

(** The values given to [--yml-file] and to [--env-file], in order of
    occurrence. *)
Definition yml_values (gs : list segment) : list string :=
  flat_map (fun g => match g with
                     | YmlNext v | YmlEq _ v => [v] | _ => [] end) gs.
Definition env_values (gs : list segment) : list string :=
  flat_map (fun g => match g with
                     | EnvNext v | EnvEq _ v => [v] | _ => [] end) gs.

(** A token in the one-token form [<flag>=<value>] of a value flag. *)
Definition is_eq_form (tok : string) : bool :=
  Py.startswith tok "--yml-file=" || Py.startswith tok "--env-file=".

(** The tokens [process] recognizes as a custom flag. *)
Definition recognized (tok : string) : bool :=
  Py.str_eq tok "--yml-file" || Py.startswith tok "--yml-file="
  || Py.str_eq tok "--env-file" || Py.startswith tok "--env-file="
  || Py.str_eq tok "--dump".

(** A segment as the loop can meet it. *)
Definition seg_ok (g : segment) : Prop :=
  match g with
  | Copied tok => recognized tok = false
  | YmlEq tok value => tok = "--yml-file=" +:+ value
  | EnvEq tok value => tok = "--env-file=" +:+ value
  | YmlNext _ | EnvNext _ | DumpFlag => True
  end.

(** How many tokens have the one-token form [<flag>=<value>]. *)
Fixpoint count_eq_form (argv : list string) : nat :=
  match argv with
  | [] => 0
  | tok :: rest =>
      if is_eq_form tok then S (count_eq_form rest) else count_eq_form rest
  end.

(** ** Observing a run *)

(** [runs P Q m]: from every state, [m] terminates, every event it adds to
    the trace satisfies [P], and its result satisfies [Q]. *)
Definition runs {A} (P : event -> Prop) (Q : result A -> Prop) (m : M A) : Prop :=
  forall s, exists r s' t,
    m s = Some (r, s') /\ trace s' = trace s ++ t /\ Forall P t /\ Q r.

Definition any_result {A} (r : result A) : Prop := True.
Definition no_raise {A} (r : result A) : Prop :=
  match r with Ok _ => True | Raise _ => False end.

Definition not_spawn (e : event) : Prop :=
  match e with Spawn _ => False | _ => True end.
Definition not_stdout (e : event) : Prop :=
  match e with Print Stdout _ => False | _ => True end.
(** The events of [load_dotenv]: assignments to the environment and
    diagnostics on standard error. *)
Definition env_or_stderr (e : event) : Prop :=
  match e with SetEnv _ _ | Print Stderr _ => True | _ => False end.

(** The state a run starts from. *)
Definition initial (env : gmap string string) : State :=
  {| environ := env; trace := [] |}.

(** Normal mode: none of the help and debug modes of [main] applies. *)
Definition normal_mode (argv : list string) : Prop :=
  plain_help argv = None
  /\ str_in "--jhelp" argv = false /\ str_in "--jdebug" argv = false.

(** [runs_to T m]: from every state, [m] terminates, and the events [t] it
    adds to the trace and its result [r] satisfy [T t r]. *)
Definition runs_to {A} (T : list event -> result A -> Prop) (m : M A) : Prop :=
  forall s, exists r s' t,
    m s = Some (r, s') /\ trace s' = trace s ++ t /\ T t r.

(** Events that neither spawn a process nor write a file. *)
Definition quiet (e : event) : Prop :=
  match e with Spawn _ | WriteFile _ _ => False | _ => True end.

(** [ends_with_spawn h label cmd t r]: the result [r] is the return code of
    the child process run with [cmd]; in the events [t] that process is the
    only one spawned, and spawning it, right after announcing it, comes
    last. *)
Definition ends_with_spawn (h : Host) (label : string) (cmd : list string)
    (t : list event) (r : result Z) : Prop :=
  r = Ok (subprocess_run h cmd)
  /\ exists t0, t = t0 ++ [Print Stdout (MsgUsing label cmd); Spawn cmd]
                /\ Forall not_spawn t0.

(** The template was rendered to the output file. *)
Definition written (output_path : string) (t : list event) : Prop :=
  exists text, WriteFile output_path text ∈ t.

(** The exit status of the program for a result of [main]. *)
Definition exit_status (r : result Z) : Z :=
  match r with Ok code => sys_exit_status code | Raise _ => 1%Z end.

(** ** Example hosts

    A working directory with a [.env] file and, or not, a template
    [docker-compose.jinja] that uses the variable [FOO]; the runner is
    installed or not. *)
Definition example_render (env : gmap string string) : render_result :=
  match env !! "FOO" with
  | Some v => Rendered ("image: " +:+ v)
  | None => RenderFails "'FOO' is undefined"
  end.

Definition example_host (env_lines : list string) (template docker : bool)
  : Host :=
  {| program_name := "dcj";
     which := fun name =>
       if docker && Py.str_eq name "docker"
       then Some "/usr/bin/docker" else None;
     regular_file := fun path =>
       if Py.str_eq path ".env" then Some (Readable env_lines)
       else if template && Py.str_eq path "docker-compose.jinja"
       then Some (Readable ["image: {{ FOO }}"])
       else None;
     isdir := fun _ => false;
     dirname := fun _ => "";
     makedirs_ok := fun _ => true;
     open_w_ok := fun _ => true;
     jinja2_installed := true;
     jinja := fun _ env => example_render env;
     subprocess_run := fun _ => 0%Z |}.

(** The same machine with no [.env] and no template, but whose child
    process is killed by signal 15: [subprocess.run] reports the return
    code -15. *)
Definition killed_child_host : Host :=
  let h := example_host [] false true in
  {| program_name := program_name h;
     which := which h;
     regular_file := regular_file h;
     isdir := isdir h;
     dirname := dirname h;
     makedirs_ok := makedirs_ok h;
     open_w_ok := open_w_ok h;
     jinja2_installed := jinja2_installed h;
     jinja := jinja h;
     subprocess_run := fun _ => (-15)%Z |}.

Definition line (text : string) : string := text +:+ str1 newline.

(** ** Further notions on the rewriter *)

(** The custom values of a run on [l1 ++ l2], from those of the runs on [l1]
    and on [l2]: a later value replaces an earlier one, the dump flag is
    set by either part. *)
Definition merge_custom (c1 c2 : CustomArgs) : CustomArgs :=
  {| yml_file := match yml_file c2 with Some v => Some v | None => yml_file c1 end;
     env_file := match env_file c2 with Some v => Some v | None => env_file c1 end;
     dump := dump c1 || dump c2 |}.

(** The tokens [parse_equals_or_next argv flag] passes over. *)
Definition no_match (flag tok : string) : Prop :=
  Py.str_eq tok flag = false /\ Py.startswith tok (flag +:+ "=") = false.

(** ** Further notions on the loader *)

(** The lines that iterating over a file yields before it ends. *)
Definition file_lines (f : file) : list string :=
  match f with Readable l | Unreadable l => l end.

(** The bindings a file offers: the entries of its lines that have a valid
    key, in the order of the lines. *)
Fixpoint dotenv_entries (raw_lines : list string) : list (string * string) :=
  match raw_lines with
  | [] => []
  | raw_line :: rest =>
      match parse_line raw_line with
      | Entry key val =>
          if valid_key key then (key, val) :: dotenv_entries rest
          else dotenv_entries rest
      | Ignored | NoEquals => dotenv_entries rest
      end
  end.

(** The keys assigned by the events of a trace, in order. *)
Definition assigned_keys (t : list event) : list string :=
  flat_map (fun e => match e with SetEnv key _ => [key] | _ => [] end) t.

(** ** Further notions on the lines of a file *)

(** [all_chars P s]: every character of [s] satisfies [P]. *)
Fixpoint all_chars (P : ascii -> bool) (s : string) : bool :=
  match s with
  | EmptyString => true
  | String c s' => P c && all_chars P s'
  end.

(** A character that the scan for an inline comment and the unquoting
    treat as ordinary text: no quote, no backslash, no [#]. *)
Definition ordinary (c : ascii) : bool :=
  negb (Ascii.eqb c squote) && negb (Ascii.eqb c dquote)
  && negb (Ascii.eqb c backslash) && negb (Ascii.eqb c hash).

Definition not_backslash (c : ascii) : bool := negb (Ascii.eqb c backslash).

(** ** Further notions on a run *)

(** The events of a read-only diagnostic pass: lines on standard error,
    assignments to the environment, renderings in memory. *)
Definition diagnostic (e : event) : Prop :=
  match e with
  | Print Stderr _ | SetEnv _ _ | JinjaRender _ => True
  | _ => False
  end.

(** [spawns_at_most_once h t r]: in the events [t] either no process is
    spawned, or exactly one is and the result [r] is its return code. *)
Definition spawns_at_most_once (h : Host) (t : list event) (r : result Z)
  : Prop :=
  Forall not_spawn t
  \/ exists t0 cmd t1,
       t = t0 ++ Spawn cmd :: t1
       /\ Forall not_spawn t0 /\ Forall not_spawn t1
       /\ r = Ok (subprocess_run h cmd).

(** The exit statuses of the program's own making. *)
Definition status_0_or_1 (r : result Z) : Prop :=
  exit_status r = 0%Z \/ exit_status r = 1%Z.

(** The entries of the file at [path], if there is one. *)
Definition entries_at (h : Host) (path : string) : list (string * string) :=
  match regular_file h path with
  | Some f => dotenv_entries (file_lines f)
  | None => []
  end.

Definition is_dump_flag (g : segment) : bool :=
  match g with DumpFlag => true | _ => false end.

(** * Theorems *)

(** ** The rewriting loop and its segments *)

Section Rewriter.

Local Arguments Py.str_eq : simpl never.
Local Arguments Py.startswith : simpl never.
Local Arguments split_eq_1 : simpl never.

Lemma rewrite_result_cons out c g r :
  rewrite_result out c (cons_segment g r)
  = rewrite_result (out ++ seg_out g) (seg_custom c g) r.
Proof. destruct r as [gs|e]; simpl; [|done]. by rewrite <- (assoc_L (++)). Qed.

Lemma drop_lookup_cons (l : list string) i tok :
  l !! i = Some tok -> drop i l = tok :: drop (S i) l.
Proof. intros H. by rewrite (drop_S _ _ _ H). Qed.

(** The loop computes what the segments say, whenever the fuel covers
    the tokens that are left. *)
Lemma process_loop_segments fuel : forall argv i out c,
  length argv - i <= fuel ->
  process_loop fuel argv i out c
  = Some (rewrite_result out c (segments (drop i argv))).
Proof.
  induction fuel as [|fuel IH]; intros argv i out c Hfuel.
  - assert (Hi : length argv <= i) by lia.
    cbn [process_loop].
    destruct (Nat.ltb_spec i (length argv)); [lia|]. simpl.
    rewrite drop_ge by done. simpl. by rewrite app_nil_r.
  - cbn [process_loop].
    destruct (Nat.ltb_spec i (length argv)) as [Hlt|Hge]; simpl.
    2:{ rewrite drop_ge by done. simpl. by rewrite app_nil_r. }
    destruct (lookup_lt_is_Some_2 argv i Hlt) as [tok Htok].
    rewrite Htok, (drop_lookup_cons _ _ _ Htok). cbn [segments].
    assert (Hnext : forall g,
      process_loop fuel argv (i + 1) (out ++ seg_out g) (seg_custom c g)
      = Some (rewrite_result out c
                (cons_segment g (segments (drop (S i) argv))))).
    { intros g. rewrite rewrite_result_cons, IH by lia.
      by replace (i + 1) with (S i) by lia. }
    assert (Htwo : forall g,
      process_loop fuel argv (i + 2) (out ++ seg_out g) (seg_custom c g)
      = Some (rewrite_result out c
                (cons_segment g (segments (drop (S (S i)) argv))))).
    { intros g. rewrite rewrite_result_cons, IH by lia.
      by replace (i + 2) with (S (S i)) by lia. }
    destruct (Py.str_eq tok "--yml-file") eqn:Ey; simpl.
    { destruct (Nat.leb_spec (length argv) (i + 1)) as [Hl|Hl].
      - rewrite (drop_ge argv (S i)) by lia. done.
      - destruct (lookup_lt_is_Some_2 argv (S i) ltac:(lia)) as [v Hv].
        replace (i + 1) with (S i) by lia.
        rewrite Hv, (drop_lookup_cons _ _ _ Hv).
        replace (S (S i)) with (i + 2) by lia.
        replace (i + 2) with (S (S i)) at 2 by lia.
        apply (Htwo (YmlNext v)). }
    destruct (Py.startswith tok "--yml-file=") eqn:Eyp; simpl.
    { destruct (split_eq_1 tok) as [v|e] eqn:Ev; [|done].
      apply (Hnext (YmlEq tok v)). }
    destruct (Py.str_eq tok "--env-file") eqn:Ee; simpl.
    { destruct (Nat.leb_spec (length argv) (i + 1)) as [Hl|Hl].
      - rewrite (drop_ge argv (S i)) by lia. done.
      - destruct (lookup_lt_is_Some_2 argv (S i) ltac:(lia)) as [v Hv].
        replace (i + 1) with (S i) by lia.
        rewrite Hv, (drop_lookup_cons _ _ _ Hv).
        replace (S (S i)) with (i + 2) by lia.
        replace (i + 2) with (S (S i)) at 2 by lia.
        apply (Htwo (EnvNext v)). }
    destruct (Py.startswith tok "--env-file=") eqn:Eep; simpl.
    { destruct (split_eq_1 tok) as [v|e] eqn:Ev; [|done].
      apply (Hnext (EnvEq tok v)). }
    destruct (Py.str_eq tok "--dump") eqn:Ed.
    { rewrite <- (app_nil_r out) at 1. apply (Hnext DumpFlag). }
    apply (Hnext (Copied tok)).
Qed.

(** [process] terminates on every token list. *)
Lemma rewrite_segments argv :
  rewrite_argv argv = Some (rewrite_result [] CustomArgs_default (segments argv)).
Proof.
  unfold rewrite_argv, process. simpl.
  rewrite process_loop_segments by lia.
  rewrite drop_0. by destruct (segments argv).
Qed.

Lemma startswith_app s p :
  Py.startswith s p = true -> s = p +:+ Py.drop (String.length p) s.
Proof.
  revert s. induction p as [|b p IH]; intros [|a s]; simpl; try done.
  intros [Hab Hs]%andb_true_iff. apply Ascii.eqb_eq in Hab as ->.
  unfold String.app. simpl. f_equal. by apply IH.
Qed.

Lemma split_once_app sep l r :
  Py.contains sep l = false ->
  Py.split_once sep (l +:+ String sep r) = Some (l, r).
Proof.
  induction l as [|a l IH]; simpl.
  - intros _. unfold String.app. simpl. by rewrite Ascii.eqb_refl.
  - intros [Ha Hl]%orb_false_iff. unfold String.app in *. simpl.
    rewrite Ha, IH by done. done.
Qed.

(** On a token of the form [<flag>=<value>], [split("=", 1)[1]] is the
    value: no index error, and the value is what follows the first [=]. *)
Lemma split_eq_1_yml tok :
  Py.startswith tok "--yml-file=" = true ->
  exists v, split_eq_1 tok = Ok v /\ tok = "--yml-file=" +:+ v.
Proof.
  intros H%startswith_app. eexists. split; [|exact H].
  rewrite H at 1. unfold split_eq_1.
  change ("--yml-file=" +:+ ?v) with ("--yml-file" +:+ String "=" v).
  by rewrite split_once_app.
Qed.

Lemma split_eq_1_env tok :
  Py.startswith tok "--env-file=" = true ->
  exists v, split_eq_1 tok = Ok v /\ tok = "--env-file=" +:+ v.
Proof.
  intros H%startswith_app. eexists. split; [|exact H].
  rewrite H at 1. unfold split_eq_1.
  change ("--env-file=" +:+ ?v) with ("--env-file" +:+ String "=" v).
  by rewrite split_once_app.
Qed.

Lemma str_eq_true a b : Py.str_eq a b = true -> a = b.
Proof. apply String.eqb_eq. Qed.

(** Induction along the way [segments] cuts its input: one segment at a
    time, each with the tokens it stands for. *)
Lemma segments_ind (P : list string -> list segment -> Prop) :
  P [] [] ->
  (forall g rest gs,
     seg_ok g -> segments rest = Ok gs -> P rest gs ->
     P (seg_in g ++ rest) (g :: gs)) ->
  forall argv gs, segments argv = Ok gs -> P argv gs.
Proof.
  intros Hnil Hstep argv.
  induction argv as [argv IH] using (induction_ltof1 _ (@length string)).
  unfold ltof in IH. intros gs Hgs.
  destruct argv as [|tok rest]; simpl in Hgs.
  { by injection Hgs as <-. }
  assert (Hone : forall g,
    seg_ok g -> seg_in g = [tok] ->
    cons_segment g (segments rest) = Ok gs -> P (tok :: rest) gs).
  { intros g Hok Hin Hc. destruct (segments rest) as [gs'|] eqn:Hr; [|done].
    injection Hc as <-. change (tok :: rest) with ([tok] ++ rest).
    rewrite <- Hin. apply Hstep; [done|done|]. apply IH; [simpl; lia|done]. }
  assert (Htwo : forall g flag v rest',
    rest = v :: rest' -> seg_ok g -> seg_in g = [flag; v] -> tok = flag ->
    cons_segment g (segments rest') = Ok gs -> P (tok :: rest) gs).
  { intros g flag v rest' -> Hok Hin -> Hc.
    destruct (segments rest') as [gs'|] eqn:Hr; [|done].
    injection Hc as <-. change (flag :: v :: rest') with ([flag; v] ++ rest').
    rewrite <- Hin. apply Hstep; [done|done|]. apply IH; [simpl; lia|done]. }
  destruct (Py.str_eq tok "--yml-file") eqn:Ey.
  { apply str_eq_true in Ey. destruct rest as [|v rest']; [done|].
    by eapply (Htwo (YmlNext v)). }
  destruct (Py.startswith tok "--yml-file=") eqn:Eyp.
  { destruct (split_eq_1_yml _ Eyp) as (v & Hv & Htok). rewrite Hv in Hgs.
    by eapply (Hone (YmlEq tok v)). }
  destruct (Py.str_eq tok "--env-file") eqn:Ee.
  { apply str_eq_true in Ee. destruct rest as [|v rest']; [done|].
    by eapply (Htwo (EnvNext v)). }
  destruct (Py.startswith tok "--env-file=") eqn:Eep.
  { destruct (split_eq_1_env _ Eep) as (v & Hv & Htok). rewrite Hv in Hgs.
    by eapply (Hone (EnvEq tok v)). }
  destruct (Py.str_eq tok "--dump") eqn:Ed.
  { apply str_eq_true in Ed. subst tok. by eapply (Hone DumpFlag). }
  eapply (Hone (Copied tok)); [|done..].
  unfold seg_ok, recognized. by rewrite Ey, Eyp, Ee, Eep, Ed.
Qed.

(** [process] raises nothing but the missing-value [SystemExit]s. *)
Lemma segments_raise argv e :
  segments argv = Raise e ->
  e = SystemExit "--yml-file requires a value"
  \/ e = SystemExit "--env-file requires a value".
Proof.
  induction argv as [argv IH] using (induction_ltof1 _ (@length string)).
  unfold ltof in IH. destruct argv as [|tok rest]; simpl; [done|].
  assert (Hc : forall g l, length l < length (tok :: rest) ->
    cons_segment g (segments l) = Raise e ->
    e = SystemExit "--yml-file requires a value"
    \/ e = SystemExit "--env-file requires a value").
  { intros g l Hl Hr. destruct (segments l) eqn:Hs; [done|].
    injection Hr as ->. by eapply IH. }
  simpl in Hc.
  destruct (Py.str_eq tok "--yml-file").
  { destruct rest as [|v rest']; [intros [= <-]; by left|].
    apply Hc. simpl. lia. }
  destruct (Py.startswith tok "--yml-file=") eqn:Eyp.
  { destruct (split_eq_1_yml _ Eyp) as (v & -> & _). apply Hc. lia. }
  destruct (Py.str_eq tok "--env-file").
  { destruct rest as [|v rest']; [intros [= <-]; by right|].
    apply Hc. simpl. lia. }
  destruct (Py.startswith tok "--env-file=") eqn:Eep.
  { destruct (split_eq_1_env _ Eep) as (v & -> & _). apply Hc. lia. }
  destruct (Py.str_eq tok "--dump"); apply Hc; lia.
Qed.

Lemma segments_shape argv gs :
  segments argv = Ok gs -> Forall seg_ok gs /\ flat_map seg_in gs = argv.
Proof.
  revert argv gs. apply segments_ind; [by split|].
  intros g rest gs Hok _ [HF Hin]. split; [by constructor|].
  simpl. by rewrite Hin.
Qed.

Lemma rewrite_ok argv out c :
  rewrite_argv argv = Some (Ok (out, c)) ->
  exists gs, segments argv = Ok gs /\ out = flat_map seg_out gs
             /\ c = fold_left seg_custom gs CustomArgs_default.
Proof.
  rewrite rewrite_segments. destruct (segments argv) as [gs|e]; [|done].
  simpl. intros [= <- <-]. by exists gs.
Qed.

Lemma remove_marked_app {A} (m1 m2 : list bool) (l1 l2 : list A) :
  length m1 = length l1 ->
  remove_marked (m1 ++ m2) (l1 ++ l2)
  = remove_marked m1 l1 ++ remove_marked m2 l2.
Proof.
  revert l1. induction m1 as [|b m1 IH]; intros [|x l1] Hlen; try done.
  simpl in *. destruct b; rewrite IH by lia; done.
Qed.

Lemma remove_marked_segment g :
  remove_marked (repeat (negb (is_copied g)) (length (seg_in g))) (seg_in g)
  = remove_marked (repeat (negb (is_copied g)) (length (seg_out g))) (seg_out g).
Proof. by destruct g. Qed.

Lemma marks_aligned gs :
  length (consumed_marks gs) = length (flat_map seg_in gs)
  /\ length (injected_marks gs) = length (flat_map seg_out gs)
  /\ remove_marked (consumed_marks gs) (flat_map seg_in gs)
     = remove_marked (injected_marks gs) (flat_map seg_out gs).
Proof.
  unfold consumed_marks, injected_marks.
  induction gs as [|g gs (IH1 & IH2 & IH3)]; [done|]. simpl.
  rewrite !length_app, !repeat_length, IH1, IH2.
  rewrite !remove_marked_app by apply repeat_length.
  by rewrite IH3, remove_marked_segment.
Qed.

Lemma fold_custom_yml gs : forall c,
  yml_file (fold_left seg_custom gs c)
  = match last (yml_values gs) with Some v => Some v | None => yml_file c end.
Proof.
  induction gs as [|g gs IH]; intros c; [done|].
  cbn [fold_left]. rewrite IH. unfold yml_values. cbn [flat_map].
  fold (yml_values gs).
  destruct g; simpl; try done; rewrite last_cons;
    by destruct (last (yml_values gs)).
Qed.

Lemma fold_custom_env gs : forall c,
  env_file (fold_left seg_custom gs c)
  = match last (env_values gs) with Some v => Some v | None => env_file c end.
Proof.
  induction gs as [|g gs IH]; intros c; [done|].
  cbn [fold_left]. rewrite IH. unfold env_values. cbn [flat_map].
  fold (env_values gs).
  destruct g; simpl; try done; rewrite last_cons;
    by destruct (last (env_values gs)).
Qed.

Lemma count_eq_form_app l1 l2 :
  count_eq_form (l1 ++ l2) = count_eq_form l1 + count_eq_form l2.
Proof.
  induction l1 as [|t l1 IH]; [done|]. simpl.
  destruct (is_eq_form t); simpl; lia.
Qed.

Lemma segment_length g :
  seg_ok g ->
  length (seg_out g) <= length (seg_in g) + count_eq_form (seg_in g).
Proof.
  destruct g; simpl; try lia.
  - intros ->. unfold is_eq_form.
    replace (Py.startswith ("--yml-file=" +:+ value) "--yml-file=")
      with true; [simpl; lia|].
    reflexivity.
  - intros ->. unfold is_eq_form.
    replace (Py.startswith ("--env-file=" +:+ value) "--env-file=")
      with true; [rewrite orb_true_r; simpl; lia|].
    reflexivity.
Qed.

Lemma segments_length argv gs :
  segments argv = Ok gs ->
  length (flat_map seg_out gs) <= length argv + count_eq_form argv.
Proof.
  revert argv gs. apply segments_ind; [simpl; lia|].
  intros g rest gs Hok _ IH. simpl.
  rewrite !length_app, count_eq_form_app.
  pose proof (segment_length g Hok). lia.
Qed.

Lemma count_eq_form_none argv :
  Forall (fun tok => is_eq_form tok = false) argv -> count_eq_form argv = 0.
Proof. induction 1 as [|t l Ht _ IH]; [done|]. simpl. by rewrite Ht. Qed.

(** A value flag met as the last token. *)

Lemma segments_cons g l :
  seg_ok g -> segments (seg_in g ++ l) = cons_segment g (segments l).
Proof.
  destruct g as [tok|v|tok v|v|tok v|]; simpl; try done.
  - unfold recognized. intros H.
    apply orb_false_iff in H as [H He]. apply orb_false_iff in H as [H Hd].
    apply orb_false_iff in H as [H Hc]. apply orb_false_iff in H as [Ha Hb].
    by rewrite Ha, Hb, Hc, Hd, He.
  - intros ->. unfold split_eq_1.
    change ("--yml-file=" +:+ v) with ("--yml-file" +:+ String "=" v).
    by rewrite split_once_app.
  - intros ->. unfold split_eq_1.
    change ("--env-file=" +:+ v) with ("--env-file" +:+ String "=" v).
    by rewrite split_once_app.
Qed.

Lemma segments_last_flag flag pre gs :
  flag = "--yml-file" \/ flag = "--env-file" ->
  segments pre = Ok gs ->
  segments (pre ++ [flag])
  = Raise (SystemExit (flag +:+ " requires a value")).
Proof.
  intros Hflag. revert pre gs. apply segments_ind.
  - destruct Hflag as [-> | ->]; reflexivity.
  - intros g rest gs Hok _ IH.
    by rewrite <- (assoc_L (++)), segments_cons, IH.
Qed.

Lemma process_last_flag flag pre r :
  flag = "--yml-file" \/ flag = "--env-file" ->
  rewrite_argv pre = Some (Ok r) ->
  process (ArgRewriter_init (pre ++ [flag]))
  = Some (Raise (SystemExit (flag +:+ " requires a value"))).
Proof.
  intros Hflag Hpre. destruct r as [out c].
  apply rewrite_ok in Hpre as (gs & Hgs & _).
  pose proof (rewrite_segments (pre ++ [flag])) as Hrw.
  rewrite (segments_last_flag flag pre gs Hflag Hgs) in Hrw.
  unfold rewrite_argv, rewrite_result in Hrw.
  destruct (process (ArgRewriter_init (pre ++ [flag]))) as [[rw|e]|];
    [done| |done].
  by injection Hrw as ->.
Qed.

End Rewriter.

(** ** Claims on ArgRewriter.process *)

(** C1 (order preservation).  When [process] accepts the token list, the
    list splits into segments, one per iteration of the loop, such that the
    input is the concatenation of what the segments consume and the output
    the concatenation, in the same order, of what they emit: a replacement
    stands where the tokens it replaces stood.  Removing from the input the
    custom flags with their consumed values, and from the output the
    injected replacement tokens, leaves the same sequence of pass-through
    tokens. *)
Theorem process_preserves_pass_through_order argv out c :
  rewrite_argv argv = Some (Ok (out, c)) ->
  exists gs,
    segments argv = Ok gs /\ Forall seg_ok gs
    /\ flat_map seg_in gs = argv /\ flat_map seg_out gs = out
    /\ length (consumed_marks gs) = length argv
    /\ length (injected_marks gs) = length out
    /\ remove_marked (consumed_marks gs) argv
       = remove_marked (injected_marks gs) out.
Proof.
  intros (gs & Hgs & -> & _)%rewrite_ok. exists gs.
  destruct (segments_shape _ _ Hgs) as [Hok Hin].
  destruct (marks_aligned gs) as (H1 & H2 & H3).
  rewrite Hin in H1, H3. done.
Qed.

Lemma process_preserves_pass_through_order_witness :
  let argv := ["up"; "--yml-file"; "a.yml"; "--dump"; "-d"; "--env-file=e"; "web"] in
  let out := ["up"; "-f"; "a.yml"; "-d"; "--env-file"; "e"; "web"] in
  exists gs,
    segments argv = Ok gs /\ Forall seg_ok gs
    /\ flat_map seg_in gs = argv /\ flat_map seg_out gs = out
    /\ length (consumed_marks gs) = length argv
    /\ length (injected_marks gs) = length out
    /\ remove_marked (consumed_marks gs) argv
       = remove_marked (injected_marks gs) out.
Proof.
  intros argv out.
  apply (process_preserves_pass_through_order argv out
           {| yml_file := Some "a.yml"; env_file := Some "e"; dump := true |}).
  vm_compute. reflexivity.
Defined.

(** C4, as stated, fails: the one-token form [--yml-file=x] is replaced by
    the two tokens [-f x]. *)
Lemma output_longer_than_input :
  rewrite_argv ["--yml-file=x"]
  = Some (Ok (["-f"; "x"],
              {| yml_file := Some "x"; env_file := None; dump := false |}))
  /\ ~ (length ["-f"; "x"] <= length ["--yml-file=x"]).
Proof. split; [vm_compute; reflexivity | simpl; lia]. Qed.

(** C4 (amended).  When [process] accepts the token list, the output has at
    most as many tokens as the input plus the number of input tokens of the
    one-token form [<flag>=<value>]; so it is no longer than the input when
    no input token has that form. *)
Theorem output_length_bound argv out c :
  rewrite_argv argv = Some (Ok (out, c)) ->
  length out <= length argv + count_eq_form argv
  /\ (Forall (fun tok => is_eq_form tok = false) argv ->
      length out <= length argv).
Proof.
  intros (gs & Hgs & -> & _)%rewrite_ok.
  pose proof (segments_length _ _ Hgs) as Hlen. split; [done|].
  intros Hnone. rewrite (count_eq_form_none _ Hnone) in Hlen. lia.
Qed.

Lemma output_length_bound_witness :
  let argv := ["--yml-file"; "a.yml"; "--dump"; "up"; "--env-file=e"] in
  let out := ["-f"; "a.yml"; "up"; "--env-file"; "e"] in
  length out <= length argv + count_eq_form argv
  /\ (Forall (fun tok => is_eq_form tok = false) argv ->
      length out <= length argv).
Proof.
  intros argv out.
  apply (output_length_bound argv out
           {| yml_file := Some "a.yml"; env_file := Some "e"; dump := true |}).
  vm_compute. reflexivity.
Defined.

(** C10 (repeated flags).  When [--yml-file] or [--env-file] occurs several
    times, every occurrence is replaced where it stands by a pair of its
    own ([-f v], respectively [--env-file v], with the value [v] of that
    occurrence), and the custom values record the value of the last
    occurrence only. *)
Theorem repeated_flags_replaced_each_last_recorded argv out c :
  rewrite_argv argv = Some (Ok (out, c)) ->
  exists gs,
    segments argv = Ok gs /\ Forall seg_ok gs
    /\ flat_map seg_in gs = argv /\ flat_map seg_out gs = out
    /\ yml_file c = last (yml_values gs)
    /\ env_file c = last (env_values gs).
Proof.
  intros (gs & Hgs & -> & ->)%rewrite_ok. exists gs.
  destruct (segments_shape _ _ Hgs) as [Hok Hin].
  rewrite fold_custom_yml, fold_custom_env. simpl.
  repeat split; try done.
  - by destruct (last (yml_values gs)).
  - by destruct (last (env_values gs)).
Qed.

Lemma repeated_flags_replaced_each_last_recorded_witness :
  let argv := ["--yml-file"; "a"; "up"; "--yml-file=b"; "--env-file=e1";
               "--env-file"; "e2"] in
  let out := ["-f"; "a"; "up"; "-f"; "b"; "--env-file"; "e1";
              "--env-file"; "e2"] in
  let c := {| yml_file := Some "b"; env_file := Some "e2"; dump := false |} in
  exists gs,
    segments argv = Ok gs /\ Forall seg_ok gs
    /\ flat_map seg_in gs = argv /\ flat_map seg_out gs = out
    /\ yml_file c = last (yml_values gs)
    /\ env_file c = last (env_values gs).
Proof.
  intros argv out c.
  apply (repeated_flags_replaced_each_last_recorded argv out c).
  vm_compute. reflexivity.
Defined.

(** One iteration of the loop at the two-token form of [--env-file] or
    [--yml-file]: the next token is recorded as the value and emitted in
    the replacement pair, and the cursor moves past it. *)
Lemma process_loop_two_token :
  (forall fuel pre v post out c,
     let argv := pre ++ "--env-file" :: v :: post in
     process_loop (S fuel) argv (length pre) out c
     = process_loop fuel argv (length pre + 2)
         (out ++ ["--env-file"; v]) (set_env_file c v))
  /\ (forall fuel pre v post out c,
        let argv := pre ++ "--yml-file" :: v :: post in
        process_loop (S fuel) argv (length pre) out c
        = process_loop fuel argv (length pre + 2)
            (out ++ ["-f"; v]) (set_yml_file c v)).
Proof.
  assert (Hlt : forall (pre post : list string) a b,
    (length pre <? length (pre ++ a :: b :: post)) = true).
  { intros. apply Nat.ltb_lt. rewrite length_app. simpl. lia. }
  assert (Hle : forall (pre post : list string) a b,
    (length (pre ++ a :: b :: post) <=? length pre + 1) = false).
  { intros. apply Nat.leb_gt. rewrite length_app. simpl. lia. }
  assert (Hsnd : forall (pre post : list string) a b,
    (pre ++ a :: b :: post) !! (length pre + 1) = Some b).
  { intros. rewrite lookup_app_r by lia.
    by replace (length pre + 1 - length pre) with 1 by lia. }
  split.
  - intros fuel pre v post out c argv. subst argv. cbn [process_loop].
    rewrite Hlt, list_lookup_middle by done. simpl.
    by rewrite Hle, Hsnd.
  - intros fuel pre v post out c argv. subst argv. cbn [process_loop].
    rewrite Hlt, list_lookup_middle by done. simpl.
    by rewrite Hle, Hsnd.
Qed.

(** ** The .env loader *)

Section Loader.

Lemma when_print_spec b to m s :
  exists t, when b (print to m) s
            = Some (Ok tt, {| environ := environ s; trace := trace s ++ t |})
            /\ t = (if b then [Print to m] else []).
Proof.
  destruct b; simpl; eexists; split; try reflexivity.
  unfold ret. destruct s; simpl. by rewrite app_nil_r.
Qed.

Lemma no_new_keys (env : gmap string string) k :
  k ∈ @nil string <-> env !! k = None /\ is_Some (env !! k).
Proof.
  split; [intros H; by apply elem_of_nil in H|].
  intros [Hn [v Hs]]. congruence.
Qed.

(** The loop over the lines: it terminates without raising, adds to the
    trace only assignments and diagnostics, keeps every binding it finds,
    and appends to the loaded keys exactly the keys that were absent and
    are now bound. *)
Lemma load_lines_spec debug at_eof raw_lines : forall loaded_keys s,
  exists keys failure s' t,
    load_lines debug raw_lines at_eof loaded_keys s
    = Some (Ok (loaded_keys ++ keys, failure), s')
    /\ trace s' = trace s ++ t /\ Forall env_or_stderr t
    /\ (forall k v, environ s !! k = Some v -> environ s' !! k = Some v)
    /\ (forall k, k ∈ keys <->
                  environ s !! k = None /\ is_Some (environ s' !! k)).
Proof.
  induction raw_lines as [|raw_line rest IH]; intros loaded_keys s.
  { exists [], at_eof, s, []. simpl. unfold ret. rewrite !app_nil_r.
    do 4 (split; [done|]). intros k. apply no_new_keys. }
  cbn [load_lines].
  assert (Hskip : forall b m,
    exists keys failure s' t,
      bind (when b (print Stderr m))
           (fun _ => load_lines debug rest at_eof loaded_keys) s
      = Some (Ok (loaded_keys ++ keys, failure), s')
      /\ trace s' = trace s ++ t /\ Forall env_or_stderr t
      /\ (forall k v, environ s !! k = Some v -> environ s' !! k = Some v)
      /\ (forall k, k ∈ keys <->
                    environ s !! k = None /\ is_Some (environ s' !! k))).
  { intros b m. unfold bind.
    destruct (when_print_spec b Stderr m s) as (t0 & -> & Ht0).
    destruct (IH loaded_keys
                {| environ := environ s; trace := trace s ++ t0 |})
      as (keys & failure & s' & t & Hrun & Htr & Hev & Hkeep & Hkeys).
    exists keys, failure, s', (t0 ++ t). simpl in *.
    rewrite Hrun, Htr, <- (assoc_L (++)).
    split; [done|]. split; [done|]. split; [|done].
    apply Forall_app. split; [|done].
    subst t0. destruct b; by repeat constructor. }
  destruct (parse_line raw_line) as [| |key val].
  - destruct (IH loaded_keys s) as (keys & failure & s' & t & H).
    by exists keys, failure, s', t.
  - apply Hskip.
  - destruct (valid_key key); [|apply Hskip].
    unfold bind at 1, get_environ.
    destruct (environ s !! key) as [old|] eqn:Hkey.
    { destruct (IH loaded_keys s) as (keys & failure & s' & t & H).
      by exists keys, failure, s', t. }
    destruct (Py.contains nul val).
    { exists [], (Some ValueError), s, []. unfold ret. rewrite !app_nil_r.
      do 4 (split; [done|]). intros k. apply no_new_keys. }
    unfold bind, setenv.
    destruct (IH (loaded_keys ++ [key])
                {| environ := <[key := val]> (environ s);
                   trace := trace s ++ [SetEnv key val] |})
      as (keys & failure & s' & t & Hrun & Htr & Hev & Hkeep & Hkeys).
    simpl in *.
    exists (key :: keys), failure, s', (SetEnv key val :: t).
    rewrite Hrun, Htr, <- !(assoc_L (++)). simpl.
    split; [done|]. split; [done|]. split; [by constructor|].
    split.
    + intros k v Hk. apply Hkeep. rewrite lookup_insert_ne; [done|].
      intros ->. congruence.
    + intros k. rewrite elem_of_cons, Hkeys. split.
      * intros [->|[Hn Hs]].
        { split; [done|]. exists val. apply Hkeep. by rewrite lookup_insert_eq. }
        split; [|done]. destruct (decide (key = k)) as [->|Hne]; [done|].
        by rewrite lookup_insert_ne in Hn.
      * intros [Hn Hs]. destruct (decide (k = key)) as [->|Hne]; [by left|].
        right. split; [|done]. by rewrite lookup_insert_ne.
Qed.

(** [load_dotenv] never raises, whatever the file. *)
Lemma load_dotenv_spec h path debug s :
  exists keys s' t,
    load_dotenv h path debug s = Some (Ok keys, s')
    /\ trace s' = trace s ++ t /\ Forall env_or_stderr t
    /\ (forall k v, environ s !! k = Some v -> environ s' !! k = Some v)
    /\ (forall k, k ∈ keys <->
                  environ s !! k = None /\ is_Some (environ s' !! k)).
Proof.
  unfold load_dotenv. destruct (regular_file h path) as [f|].
  2:{ exists [], s, []. unfold ret. rewrite app_nil_r.
      do 4 (split; [done|]). intros k. apply no_new_keys. }
  assert (Hgo : forall raw_lines at_eof,
    exists keys s' t,
      bind (load_lines debug raw_lines at_eof [])
        (fun '(loaded_keys, failure) =>
           bind match failure with
                | Some _ => print Stderr (MsgLoadFailed path)
                | None => ret tt
                end (fun _ => ret loaded_keys)) s
      = Some (Ok keys, s')
      /\ trace s' = trace s ++ t /\ Forall env_or_stderr t
      /\ (forall k v, environ s !! k = Some v -> environ s' !! k = Some v)
      /\ (forall k, k ∈ keys <->
                    environ s !! k = None /\ is_Some (environ s' !! k))).
  { intros raw_lines at_eof. unfold bind at 1.
    destruct (load_lines_spec debug at_eof raw_lines [] s)
      as (keys & failure & s' & t & -> & Htr & Hev & Hkeep & Hkeys).
    simpl. destruct failure as [e|]; unfold bind, print, emit, ret; simpl.
    - exists keys, {| environ := environ s';
                      trace := trace s' ++ [Print Stderr (MsgLoadFailed path)] |},
             (t ++ [Print Stderr (MsgLoadFailed path)]).
      simpl. rewrite Htr, <- (assoc_L (++)).
      split; [done|]. split; [done|]. split; [|done].
      apply Forall_app. split; [done|]. by repeat constructor.
    - by exists keys, s', t. }
  destruct f; apply Hgo.
Qed.

(** *** Quoted values *)

Lemma rev_app_append s t acc :
  String.rev_app (s +:+ t) acc = String.rev_app t (String.rev_app s acc).
Proof.
  revert acc. induction s as [|a s IH]; intros acc; [done|].
  unfold String.app in *. simpl. apply IH.
Qed.

Lemma length_append s t :
  String.length (s +:+ t) = String.length s + String.length t.
Proof.
  induction s as [|a s IH]; [done|]. unfold String.app in *. simpl.
  by rewrite IH.
Qed.

Lemma take_append s t : Py.take (String.length s) (s +:+ t) = s.
Proof.
  induction s as [|a s IH]; [by destruct t|]. unfold String.app in *. simpl.
  by rewrite IH.
Qed.

Lemma single_quoted_is_quoted v : quoted (str1 squote +:+ v +:+ str1 squote) = true.
Proof.
  unfold quoted, Py.endswith, String.rev.
  change (str1 squote +:+ v +:+ str1 squote)
    with (String squote (v +:+ str1 squote)).
  cbn [String.rev_app]. rewrite rev_app_append. reflexivity.
Qed.

Lemma single_quoted_strip_ends v :
  Py.strip_ends (str1 squote +:+ v +:+ str1 squote) = v.
Proof.
  unfold Py.strip_ends.
  change (str1 squote +:+ v +:+ str1 squote)
    with (String squote (v +:+ str1 squote)).
  cbn [String.length Py.drop]. rewrite length_append.
  replace (S (String.length v + String.length (str1 squote)) - 2)
    with (String.length v) by (simpl; lia).
  apply take_append.
Qed.

(** What the loader makes of a value wrapped in single quotes: the quotes
    are removed, and the escape sequences are decoded unless the text
    between the quotes is empty or starts with a single quote. *)
Lemma parse_value_single_quoted raw_line v :
  Py.startswith (Py.strip raw_line) (str1 dquote) = false ->
  parse_value raw_line (str1 squote +:+ v +:+ str1 squote)
  = if first_is_not_squote v then decode_escapes v else v.
Proof.
  intros Hraw. unfold parse_value.
  rewrite single_quoted_is_quoted. cbn [negb].
  by rewrite single_quoted_is_quoted, single_quoted_strip_ends, Hraw.
Qed.

End Loader.

(** C3 (ambient wins).  Whatever the ambient environment and the file,
    [load_dotenv] returns, and afterwards every key that was bound still
    has its ambient value and is not among the keys returned as newly
    added; the returned keys are exactly the keys that were absent and are
    now bound. *)
Theorem load_dotenv_never_overwrites h path debug s :
  exists loaded_keys s',
    load_dotenv h path debug s = Some (Ok loaded_keys, s')
    /\ (forall k v, environ s !! k = Some v ->
                    environ s' !! k = Some v /\ k ∉ loaded_keys)
    /\ (forall k, k ∈ loaded_keys <->
                  environ s !! k = None /\ is_Some (environ s' !! k)).
Proof.
  destruct (load_dotenv_spec h path debug s)
    as (keys & s' & t & Hrun & _ & _ & Hkeep & Hkeys).
  exists keys, s'. split; [done|]. split; [|done].
  intros k v Hk. split; [by apply Hkeep|].
  intros [Hn _]%Hkeys. congruence.
Qed.

Lemma load_dotenv_never_overwrites_witness :
  let h := example_host [line "FOO=fromfile"; line "BAR=baz"] true true in
  let s := initial {[ "FOO" := "ambient" ]} in
  load_dotenv h ".env" false s
  = Some (Ok ["BAR"],
          {| environ := <["BAR" := "baz"]> {[ "FOO" := "ambient" ]};
             trace := [SetEnv "BAR" "baz"] |})
  /\ exists loaded_keys s',
       load_dotenv h ".env" false s = Some (Ok loaded_keys, s')
       /\ (forall k v, environ s !! k = Some v ->
                       environ s' !! k = Some v /\ k ∉ loaded_keys)
       /\ (forall k, k ∈ loaded_keys <->
                     environ s !! k = None /\ is_Some (environ s' !! k)).
Proof.
  intros h s. split; [vm_compute; reflexivity|].
  apply (load_dotenv_never_overwrites h ".env" false s).
Defined.

(** C2 (single-quoted values), where the code departs from the claim: the
    test that guards the escape decoding looks at the first character of
    the value after the quotes are removed, so a single-quoted value is
    decoded like a double-quoted one unless its text starts with a single
    quote.  The line [K='a\nb'] stores the three characters [a], line feed,
    [b] and not the four characters between the quotes. *)
Theorem single_quoted_value_is_decoded :
  let stored := "a" +:+ str1 newline +:+ "b" in
  parse_line (line "K='a\nb'") = Entry "K" stored
  /\ load_dotenv (example_host [line "K='a\nb'"] true true) ".env" false
       (initial ∅)
     = Some (Ok ["K"],
             {| environ := {[ "K" := stored ]};
                trace := [SetEnv "K" stored] |})
  /\ stored <> "a\nb".
Proof. repeat split; [vm_compute; reflexivity..|discriminate]. Qed.

(** ** Reasoning about runs *)

Section Runs.

Context {A B : Type}.
Implicit Types (P : event -> Prop).

Lemma runs_ret P (Q : result A -> Prop) a : Q (Ok a) -> runs P Q (ret a).
Proof.
  intros HQ s. exists (Ok a), s, []. by rewrite app_nil_r.
Qed.

Lemma runs_raise P (Q : result A -> Prop) e : Q (Raise e) -> runs P Q (raise e).
Proof.
  intros HQ s. exists (Raise e), s, []. by rewrite app_nil_r.
Qed.

Lemma runs_lift P (Q : result A -> Prop) r : Q r -> runs P Q (lift (Some r)).
Proof.
  intros HQ s. exists r, s, []. by rewrite app_nil_r.
Qed.

Lemma runs_bind P (Q1 : result A -> Prop) (Q : result B -> Prop)
    (m : M A) (k : A -> M B) :
  runs P Q1 m ->
  (forall a, Q1 (Ok a) -> runs P Q (k a)) ->
  (forall e, Q1 (Raise e) -> Q (Raise e)) ->
  runs P Q (bind m k).
Proof.
  intros Hm Hk He s. unfold bind.
  destruct (Hm s) as (r & s1 & t1 & -> & Ht1 & HP1 & HQ1).
  destruct r as [a|e].
  - destruct (Hk a HQ1 s1) as (r' & s2 & t2 & Hrun & Ht2 & HP2 & HQ2).
    exists r', s2, (t1 ++ t2). rewrite Hrun, Ht2, Ht1, <- (assoc_L (++)).
    split; [done|]. split; [done|]. split; [|done]. by apply Forall_app.
  - exists (Raise e), s1, t1. auto.
Qed.

Lemma runs_try_except P (Q : result A -> Prop) (m : M A) handler :
  runs P any_result m ->
  (forall a, Q (Ok a)) ->
  (forall msg, Q (Raise (SystemExit msg))) ->
  (forall e, runs P Q (handler e)) ->
  runs P Q (try_except m handler).
Proof.
  intros Hm Hok Hexit Hh s. unfold try_except.
  destruct (Hm s) as (r & s1 & t1 & -> & Ht1 & HP1 & _).
  assert (Hhandled : forall e,
    exists r s' t, handler e s1 = Some (r, s')
                   /\ trace s' = trace s ++ t /\ Forall P t /\ Q r).
  { intros e. destruct (Hh e s1) as (r' & s2 & t2 & Hrun & Ht2 & HP2 & HQ2).
    exists r', s2, (t1 ++ t2). rewrite Hrun, Ht2, Ht1, <- (assoc_L (++)).
    split; [done|]. split; [done|]. split; [|done]. by apply Forall_app. }
  destruct r as [a|[]]; try apply Hhandled.
  - exists (Ok a), s1, t1. auto.
  - exists (Raise (SystemExit msg)), s1, t1. auto.
Qed.

Lemma runs_weaken (P P' : event -> Prop) (Q Q' : result A -> Prop) (m : M A) :
  runs P Q m -> (forall e, P e -> P' e) -> (forall r, Q r -> Q' r) ->
  runs P' Q' m.
Proof.
  intros Hm HP HQ s. destruct (Hm s) as (r & s' & t & Hrun & Ht & HPt & HQr).
  exists r, s', t. split; [done|]. split; [done|].
  split; [|by apply HQ]. eapply Forall_impl; eauto.
Qed.

End Runs.

Section Effects.

Implicit Types (P : event -> Prop).

Lemma runs_emit P e : P e -> runs P no_raise (emit e).
Proof.
  intros HP s. eexists (Ok tt), _, [e]. split; [reflexivity|]. simpl.
  split; [done|]. split; [by repeat constructor|done].
Qed.

Lemma runs_print P to m : P (Print to m) -> runs P no_raise (print to m).
Proof. apply runs_emit. Qed.

Lemma runs_when P b (m : M unit) :
  runs P no_raise m -> runs P no_raise (when b m).
Proof. destruct b; [done|]. intros _. by apply runs_ret. Qed.

Lemma runs_when_gen P (Q : result unit -> Prop) b (m : M unit) :
  runs P Q m -> Q (Ok tt) -> runs P Q (when b m).
Proof. destruct b; [done|]. intros _ HQ. by apply runs_ret. Qed.

Lemma runs_get_environ P : runs P no_raise get_environ.
Proof. intros s. exists (Ok (environ s)), s, []. by rewrite app_nil_r. Qed.

Lemma runs_load_dotenv h path debug :
  runs env_or_stderr no_raise (load_dotenv h path debug).
Proof.
  intros s. destruct (load_dotenv_spec h path debug s)
    as (keys & s' & t & Hrun & Ht & HP & _).
  by exists (Ok keys), s', t.
Qed.

(** [process] terminates, and raises nothing but [SystemExit]. *)
Lemma process_total argv :
  exists r, process (ArgRewriter_init argv) = Some r
            /\ forall e, r = Raise e -> exists msg, e = SystemExit msg.
Proof.
  pose proof (rewrite_segments argv) as Hrw. unfold rewrite_argv in Hrw.
  destruct (process (ArgRewriter_init argv)) as [[rw|e]|]; [..|done].
  - eexists. split; [done|]. done.
  - eexists. split; [done|]. intros e' [= <-].
    destruct (segments argv) as [|e''] eqn:Hs; [done|].
    injection Hrw as ->. destruct (segments_raise _ _ Hs) as [->| ->]; eauto.
Qed.

Lemma runs_process P argv :
  runs P any_result (lift (process (ArgRewriter_init argv))).
Proof.
  destruct (process_total argv) as (r & -> & _). by apply runs_lift.
Qed.

Lemma rewrite_process argv out c :
  rewrite_argv argv = Some (Ok (out, c)) ->
  exists rw, process (ArgRewriter_init argv) = Some (Ok rw)
             /\ rewritten rw = out /\ custom rw = c.
Proof.
  unfold rewrite_argv.
  destruct (process (ArgRewriter_init argv)) as [[rw|e]|]; [|done..].
  intros [= <- <-]. by exists rw.
Qed.

End Effects.

(** ** The orchestration *)

Lemma runs_post {A} (P : event -> Prop) (Q Q' : result A -> Prop) (m : M A) :
  runs P Q m -> (forall r, Q r -> Q' r) -> runs P Q' m.
Proof. intros Hm HQ. eapply runs_weaken; eauto. Qed.

Lemma runs_events {A} (P P' : event -> Prop) (Q : result A -> Prop) (m : M A) :
  (forall e, P e -> P' e) -> runs P Q m -> runs P' Q m.
Proof. intros HP Hm. eapply runs_weaken; eauto. Qed.

Ltac runs_event := first [exact I | done].

(** Walks a computation built from the monad's operations, leaving the
    side conditions that [runs_event] cannot decide. *)
Ltac runs_walk :=
  lazymatch goal with
  | |- runs _ _ (bind _ _) =>
      eapply (runs_bind _ any_result);
      [runs_walk | intros ? _; cbv beta; runs_walk | try done]
  | |- runs _ _ (ret _) => apply runs_ret; runs_event
  | |- runs _ _ (raise _) => apply runs_raise; runs_event
  | |- runs _ _ (lift (Some _)) => apply runs_lift; runs_event
  | |- runs _ _ (lift (process _)) =>
      eapply runs_post; [apply runs_process | intros; runs_event]
  | |- runs _ _ (print _ _) =>
      eapply runs_post; [apply runs_print; runs_event | intros; runs_event]
  | |- runs _ _ (print_help _) =>
      eapply runs_post; [apply runs_print; runs_event | intros; runs_event]
  | |- runs _ _ (emit _) =>
      eapply runs_post; [apply runs_emit; runs_event | intros; runs_event]
  | |- runs _ _ (when _ _) => apply runs_when_gen; [runs_walk | runs_event]
  | |- runs _ _ get_environ =>
      eapply runs_post; [apply runs_get_environ | intros; runs_event]
  | |- runs _ _ (load_dotenv _ _ _) =>
      eapply runs_post;
      [eapply runs_events; [|apply runs_load_dotenv]; intros [] ?; runs_event
      | intros; runs_event]
  | |- runs _ _ (try_except _ _) =>
      apply runs_try_except;
      [runs_walk | intros; runs_event | intros; runs_event | intros ?; runs_walk]
  | |- runs _ _ (match ?x with _ => _ end) => destruct x; runs_walk
  | |- _ => idtac
  end.

Section Orchestration.

Variable h : Host.

Lemma runs_render_template_string template_path env debug :
  runs not_spawn any_result (render_template_string h template_path env debug).
Proof. unfold render_template_string. runs_walk. Qed.

Lemma runs_render_template_to_yaml template_path output_path env debug :
  runs not_spawn any_result
    (render_template_to_yaml h template_path output_path env debug).
Proof.
  unfold render_template_to_yaml.
  eapply (runs_bind _ any_result);
    [apply runs_render_template_string | intros ? _ | done].
  runs_walk.
Qed.

Lemma runs_makedirs d : runs not_spawn any_result (makedirs h d).
Proof. unfold makedirs. runs_walk. Qed.

Lemma runs_run_single_debug prog argv :
  runs not_spawn any_result (run_single_debug h prog argv).
Proof.
  unfold run_single_debug. cbv zeta. runs_walk;
    apply runs_render_template_string.
Qed.

Lemma main_normal_mode argv :
  normal_mode argv -> main h argv = main_normal h argv.
Proof. intros (H1 & H2 & H3). unfold main. by rewrite H1, H2, H3. Qed.

Lemma main_normal_rewriter argv rw :
  process (ArgRewriter_init argv) = Some (Ok rw) ->
  main_normal h argv = main_with_rewriter h rw.
Proof. intros H. unfold main_normal. by rewrite H. Qed.

(** The program's exit status and final trace, from a run of [main]. *)
Lemma dcj_of_main (P : event -> Prop) (Q : result Z -> Prop) argv :
  (forall m, P (Print Stderr m)) ->
  runs P Q (main h argv) ->
  forall s, exists r s' t,
    dcj h argv s = Some (exit_status r, s')
    /\ trace s' = trace s ++ t /\ Forall P t /\ Q r.
Proof.
  intros HP Hm s. destruct (Hm s) as (r & s1 & t & Hrun & Ht & HPt & HQ).
  unfold dcj. rewrite Hrun. destruct r as [code|e].
  - by exists (Ok code), s1, t.
  - eexists (Raise e), _, (t ++ [Print Stderr (MsgUncaught e)]).
    split; [reflexivity|]. simpl. rewrite Ht, <- (assoc_L (++)).
    split; [done|]. split; [|done]. apply Forall_app. split; [done|].
    by repeat constructor.
Qed.

(** *** Dump mode *)

Lemma dump_never_spawns rw :
  dump (custom rw) = true ->
  runs not_spawn any_result (main_with_rewriter h rw).
Proof.
  intros Hdump. unfold main_with_rewriter. cbv zeta. rewrite Hdump.
  runs_walk; first [apply runs_render_template_string | apply runs_makedirs].
Qed.

Lemma dump_without_template rw :
  dump (custom rw) = true -> find_first_template h = None ->
  runs env_or_stderr (fun r => r = Ok 2%Z) (main_with_rewriter h rw).
Proof.
  intros Hdump Hnone. unfold main_with_rewriter. cbv zeta.
  rewrite Hdump, Hnone.
  eapply (runs_bind _ no_raise);
    [apply runs_when, runs_print; exact I | intros _ _ | by intros e []].
  eapply (runs_bind _ no_raise);
    [apply runs_load_dotenv | intros _ _ | by intros e []].
  eapply (runs_bind _ no_raise);
    [apply runs_print; exact I | intros _ _ | by intros e []].
  by apply runs_ret.
Qed.

(** *** Without a runner *)

Section NoRunner.

Hypothesis no_docker : which h "docker" = None.
Hypothesis no_legacy : which h "docker-compose" = None.

Lemma which_compose_fails :
  which_compose h = Raise (RuntimeError RUNNER_NOT_FOUND).
Proof. unfold which_compose. by rewrite no_docker, no_legacy. Qed.

Lemma main_compose_fails needs_default_f rw s :
  main_compose h needs_default_f rw s
  = Some (Raise (RuntimeError RUNNER_NOT_FOUND), s).
Proof. unfold main_compose. by rewrite which_compose_fails. Qed.

Lemma runs_main_compose needs_default_f rw :
  runs not_spawn any_result (main_compose h needs_default_f rw).
Proof.
  intros s. rewrite main_compose_fails. eexists _, s, [].
  by rewrite app_nil_r.
Qed.

Lemma plain_help_fails argv a s :
  plain_help argv = Some a ->
  main h argv s = Some (Raise (RuntimeError RUNNER_NOT_FOUND), s).
Proof. intros Ha. unfold main. by rewrite Ha, which_compose_fails. Qed.

Lemma runs_main_with_rewriter rw :
  runs not_spawn any_result (main_with_rewriter h rw).
Proof.
  unfold main_with_rewriter. cbv zeta.
  runs_walk;
    first [apply runs_render_template_string | apply runs_makedirs
          | apply runs_render_template_to_yaml | apply runs_main_compose].
Qed.

(** Without dump, every path through steps 2 to 4 ends by raising. *)
Lemma main_with_rewriter_raises rw :
  dump (custom rw) = false ->
  runs not_spawn (fun r => exists e, r = Raise e) (main_with_rewriter h rw).
Proof.
  intros Hdump. unfold main_with_rewriter. cbv zeta. rewrite Hdump.
  assert (Hcompose : forall n,
    runs not_spawn (fun r => exists e, r = Raise e) (main_compose h n rw)).
  { intros n s. rewrite main_compose_fails. eexists _, s, [].
    rewrite app_nil_r. split; [done|]. split; [done|]. split; [done|].
    by eexists. }
  assert (Hraise : forall e : exn,
    any_result (@Raise unit e) -> exists e', @Raise Z e = Raise e')
    by (intros e _; by exists e).
  eapply (runs_bind _ any_result); [runs_walk|intros _ _|exact Hraise].
  eapply (runs_bind _ any_result);
    [runs_walk|intros _ _|intros e _; by exists e].
  destruct (find_first_template h) as [template_path|]; [|apply Hcompose].
  eapply (runs_bind _ any_result);
    [runs_walk; apply runs_makedirs|intros _ _|exact Hraise].
  eapply (runs_bind _ any_result);
    [runs_walk|intros env _|intros e _; by exists e].
  eapply (runs_bind _ any_result);
    [apply runs_render_template_to_yaml|intros _ _|exact Hraise].
  apply Hcompose.
Qed.

Lemma runs_main argv : runs not_spawn any_result (main h argv).
Proof.
  unfold main. destruct (plain_help argv) as [a|] eqn:Ha.
  { intros s. pose proof (plain_help_fails argv a s Ha) as Hrun.
    unfold main in Hrun. rewrite Ha in Hrun. rewrite Hrun.
    eexists _, s, []. by rewrite app_nil_r. }
  destruct (str_in "--jhelp" argv); [runs_walk|].
  destruct (str_in "--jdebug" argv); [apply runs_run_single_debug|].
  unfold main_normal.
  eapply (runs_bind _ any_result);
    [apply runs_process | intros rw _ | done].
  apply runs_main_with_rewriter.
Qed.

End NoRunner.

(** *** With a runner *)

Lemma ends_with_spawn_after (P : event -> Prop) label cmd t1 t2 r :
  (forall e, P e -> not_spawn e) -> Forall P t1 ->
  ends_with_spawn h label cmd t2 r ->
  ends_with_spawn h label cmd (t1 ++ t2) r.
Proof.
  intros HP Ht1 (-> & t0 & -> & Ht0). split; [done|].
  exists (t1 ++ t0). rewrite <- (assoc_L (++)). split; [done|].
  apply Forall_app. split; [|done]. eapply Forall_impl; eauto.
Qed.

Lemma quiet_not_written path t : Forall quiet t -> ~ written path t.
Proof.
  intros Hq [text Hin]. rewrite Forall_forall in Hq. by apply Hq in Hin.
Qed.

(** Steps that cannot raise, before a computation that ends by the
    spawn. *)
Lemma ends_with_spawn_bind {A} label cmd (m : M A) (k : A -> M Z) :
  runs not_spawn no_raise m ->
  (forall a, runs_to (ends_with_spawn h label cmd) (k a)) ->
  runs_to (ends_with_spawn h label cmd) (bind m k).
Proof.
  intros Hm Hk s. unfold bind.
  destruct (Hm s) as ([a|e] & s1 & t1 & -> & Ht1 & HP1 & HQ); [|done].
  destruct (Hk a s1) as (r & s2 & t2 & -> & Ht2 & HT).
  exists r, s2, (t1 ++ t2). split; [done|].
  rewrite Ht2, Ht1, <- !(assoc_L (++)). split; [done|].
  by apply (ends_with_spawn_after not_spawn).
Qed.

(** Quiet steps, which may raise, before a computation that ends by the
    spawn if the output file was written. *)
Lemma written_bind {A} path label cmd (m : M A) (k : A -> M Z) :
  runs quiet any_result m ->
  (forall a, runs_to (fun t r => written path t ->
                                 ends_with_spawn h label cmd t r) (k a)) ->
  runs_to (fun t r => written path t -> ends_with_spawn h label cmd t r)
    (bind m k).
Proof.
  intros Hm Hk s. unfold bind.
  destruct (Hm s) as ([a|e] & s1 & t1 & -> & Ht1 & HP1 & _).
  - destruct (Hk a s1) as (r & s2 & t2 & -> & Ht2 & HT).
    exists r, s2, (t1 ++ t2). split; [done|].
    rewrite Ht2, Ht1, <- !(assoc_L (++)). split; [done|].
    intros [text Hin]. apply (ends_with_spawn_after quiet); [by intros []|done|].
    apply HT. exists text. apply elem_of_app in Hin as [Hin|Hin]; [|done].
    rewrite Forall_forall in HP1. by apply HP1 in Hin.
  - exists (Raise e), s1, t1. split; [done|]. split; [done|].
    intros Hw. by apply quiet_not_written in Hw.
Qed.

Lemma main_compose_spawns compose_argv label needs_default_f rw :
  which_compose h = Ok (compose_argv, label) ->
  runs_to (ends_with_spawn h label
             (compose_argv ++ final_args needs_default_f (rewritten rw)))
    (main_compose h needs_default_f rw).
Proof.
  intros Hwhich s. unfold main_compose. rewrite Hwhich.
  eexists _, _, [_; _]. split; [reflexivity|]. simpl.
  rewrite <- (assoc_L (++)). split; [reflexivity|].
  split; [done|]. by exists [].
Qed.

(** Rendering to the output file either writes it and returns, or raises
    and has written nothing. *)
Lemma render_template_to_yaml_spec template_path output_path env :
  runs_to (fun t r => match r with
                      | Ok _ => Forall not_spawn t
                      | Raise _ => Forall quiet t
                      end)
    (render_template_to_yaml h template_path output_path env false).
Proof.
  intros s. unfold render_template_to_yaml, render_template_string.
  destruct (jinja2_installed h); simpl.
  2:{ eexists _, s, []. rewrite app_nil_r. by repeat split. }
  unfold bind, ret, emit, raise. simpl.
  destruct (jinja h template_path env) as [text|msg]; simpl.
  2:{ eexists _, _, _. split; [reflexivity|]. split; [reflexivity|].
      by repeat constructor. }
  destruct (open_w_ok h output_path); simpl.
  - eexists _, _, [_; _]. split; [reflexivity|]. simpl.
    rewrite <- (assoc_L (++)). split; [reflexivity|]. by repeat constructor.
  - eexists _, _, _. split; [reflexivity|]. split; [reflexivity|].
    by repeat constructor.
Qed.

Lemma or_else_nonempty o d : nonempty d = true -> nonempty (or_else o d) = true.
Proof.
  intros Hd. destruct o as [v|]; simpl; [|done].
  by destruct (nonempty v) eqn:Hv.
Qed.

(** Steps 2 to 5 in normal, non-dump mode. *)
Lemma main_with_rewriter_spawns rw compose_argv label :
  dump (custom rw) = false ->
  which_compose h = Ok (compose_argv, label) ->
  let output_yml := or_else (yml_file (custom rw)) DEFAULT_OUTPUT_YML in
  runs_to (fun t r =>
    match find_first_template h with
    | Some _ =>
        written output_yml t ->
        ends_with_spawn h label
          (compose_argv ++
           (if negb (str_in "-f" (rewritten rw))
               && negb (str_in "--file" (rewritten rw))
            then ["-f"; output_yml] ++ rewritten rw else rewritten rw)) t r
    | None => ends_with_spawn h label (compose_argv ++ rewritten rw) t r
    end)
    (main_with_rewriter h rw).
Proof.
  intros Hdump Hwhich. unfold main_with_rewriter. cbv zeta. rewrite Hdump.
  destruct (find_first_template h) as [template_path|].
  - apply written_bind; [runs_walk|intros _].
    apply written_bind; [runs_walk|intros _].
    apply written_bind; [runs_walk; unfold makedirs; runs_walk|intros _].
    apply written_bind; [runs_walk|intros env].
    intros s. unfold bind.
    destruct (render_template_to_yaml_spec template_path
                (or_else (yml_file (custom rw)) DEFAULT_OUTPUT_YML) env s)
      as ([[]|e] & s1 & t1 & -> & Ht1 & HT).
    2:{ exists (Raise e), s1, t1. split; [done|]. split; [done|].
        intros Hw. by apply quiet_not_written in Hw. }
    pose proof (main_compose_spawns compose_argv label) as Hc.
    set (inject := negb (str_in "-f" (rewritten rw))
                   && negb (str_in "--file" (rewritten rw))).
    specialize (Hc (if inject
                    then Some (or_else (yml_file (custom rw)) DEFAULT_OUTPUT_YML)
                    else None) rw Hwhich s1).
    destruct Hc as (r & s2 & t2 & -> & Ht2 & HT2).
    exists r, s2, (t1 ++ t2). split; [done|].
    rewrite Ht2, Ht1, <- !(assoc_L (++)). split; [done|]. intros _.
    apply (ends_with_spawn_after not_spawn); [done|done|].
    destruct inject; [|done].
    unfold final_args in HT2. by rewrite or_else_nonempty in HT2.
  - apply ends_with_spawn_bind; [by apply runs_when, runs_print|intros _].
    apply ends_with_spawn_bind;
      [eapply runs_events; [|apply runs_load_dotenv]; by intros []|intros _].
    apply (main_compose_spawns compose_argv label None rw Hwhich).
Qed.

End Orchestration.

(** ** Claims on the orchestration *)

(** C5, as stated, fails: in normal mode the runner is looked up in step 4,
    after the [.env] file was loaded into the environment, the template
    rendered and the output file written. *)
Lemma side_effects_before_runner_lookup :
  let h := example_host [line "FOO=bar"] true false in
  which h "docker" = None /\ which h "docker-compose" = None
  /\ dcj h [] (initial ∅)
     = Some (1%Z,
             {| environ := {[ "FOO" := "bar" ]};
                trace := [ SetEnv "FOO" "bar";
                           JinjaRender "docker-compose.jinja";
                           WriteFile "docker-compose.yml" "image: bar";
                           Print Stderr
                             (MsgUncaught (RuntimeError RUNNER_NOT_FOUND)) ] |}).
Proof. intros h. repeat split; vm_compute; reflexivity. Qed.

(** C5 (amended).  When neither runner form is resolvable, no child process
    is spawned in any run mode.  In help pass-through mode the run fails
    with the runner-not-found error and exit status 1 before any side
    effect.  In normal mode without dump the exit status is 1, and the
    lookup of step 4, when the run reaches it, fails with the
    runner-not-found error and has no effect of its own. *)
Theorem no_runner_no_child_process h argv s :
  which h "docker" = None -> which h "docker-compose" = None ->
  (exists code s' t,
     dcj h argv s = Some (code, s')
     /\ trace s' = trace s ++ t /\ Forall not_spawn t)
  /\ (forall a, plain_help argv = Some a ->
        dcj h argv s
        = Some (1%Z,
                {| environ := environ s;
                   trace := trace s ++
                     [Print Stderr (MsgUncaught (RuntimeError RUNNER_NOT_FOUND))] |}))
  /\ (forall out c,
        normal_mode argv -> rewrite_argv argv = Some (Ok (out, c)) ->
        dump c = false ->
        exists s', dcj h argv s = Some (1%Z, s'))
  /\ (forall needs_default_f rw s1,
        main_compose h needs_default_f rw s1
        = Some (Raise (RuntimeError RUNNER_NOT_FOUND), s1)).
Proof.
  intros Hdocker Hlegacy. split; [|split; [|split]].
  - destruct (dcj_of_main h not_spawn any_result argv
                ltac:(done) (runs_main h Hdocker Hlegacy argv) s)
      as (r & s' & t & Hrun & Ht & HP & _).
    by exists (exit_status r), s', t.
  - intros a Ha. unfold dcj.
    by rewrite (plain_help_fails h Hdocker Hlegacy argv a s Ha).
  - intros out c Hmode Hrw Hdump.
    destruct (rewrite_process _ _ _ Hrw) as (rw & Hproc & <- & <-).
    pose proof (main_with_rewriter_raises h Hdocker Hlegacy rw Hdump) as Hruns.
    rewrite <- (main_normal_rewriter h argv rw Hproc),
            <- (main_normal_mode h argv Hmode) in Hruns.
    destruct (dcj_of_main h not_spawn _ argv ltac:(done) Hruns s)
      as (r & s' & t & Hrun & _ & _ & e & ->).
    by exists s'.
  - intros. by apply main_compose_fails.
Qed.

Lemma no_runner_no_child_process_witness :
  let h := example_host [line "FOO=bar"] true false in
  let argv := ["-h"] in
  let s := initial ∅ in
  (exists code s' t,
     dcj h argv s = Some (code, s')
     /\ trace s' = trace s ++ t /\ Forall not_spawn t)
  /\ (forall a, plain_help argv = Some a ->
        dcj h argv s
        = Some (1%Z,
                {| environ := environ s;
                   trace := trace s ++
                     [Print Stderr (MsgUncaught (RuntimeError RUNNER_NOT_FOUND))] |}))
  /\ (forall out c,
        normal_mode argv -> rewrite_argv argv = Some (Ok (out, c)) ->
        dump c = false ->
        exists s', dcj h argv s = Some (1%Z, s'))
  /\ (forall needs_default_f rw s1,
        main_compose h needs_default_f rw s1
        = Some (Raise (RuntimeError RUNNER_NOT_FOUND), s1)).
Proof.
  intros h argv s. apply (no_runner_no_child_process h argv s); reflexivity.
Defined.

(** C6 (default injection of the file flag).  In normal mode without dump,
    with a runner, the run of [main] terminates.  If a template is selected
    and was rendered to the output file, the run ends by spawning the
    runner, and the argument list is [-f <output path>] followed by the
    rewritten list when neither [-f] nor [--file] occurs in the rewritten
    list, and the rewritten list unchanged otherwise.  If no template
    exists the run ends by spawning the runner with the rewritten list
    unchanged. *)
Theorem default_file_flag_injection h argv out c compose_argv label s :
  normal_mode argv ->
  rewrite_argv argv = Some (Ok (out, c)) ->
  dump c = false ->
  which_compose h = Ok (compose_argv, label) ->
  let output_yml := or_else (yml_file c) DEFAULT_OUTPUT_YML in
  exists r s' t,
    main h argv s = Some (r, s') /\ trace s' = trace s ++ t
    /\ match find_first_template h with
       | Some _ =>
           written output_yml t ->
           ends_with_spawn h label
             (compose_argv ++
              (if negb (str_in "-f" out) && negb (str_in "--file" out)
               then ["-f"; output_yml] ++ out else out)) t r
       | None => ends_with_spawn h label (compose_argv ++ out) t r
       end.
Proof.
  intros Hmode Hrw Hdump Hwhich output_yml.
  destruct (rewrite_process _ _ _ Hrw) as (rw & Hproc & <- & <-).
  rewrite (main_normal_mode h argv Hmode), (main_normal_rewriter h argv rw Hproc).
  apply (main_with_rewriter_spawns h rw compose_argv label Hdump Hwhich s).
Qed.

Lemma default_file_flag_injection_witness :
  let h := example_host [line "FOO=bar"] true true in
  let argv := ["up"; "-d"] in
  let cmd := ["/usr/bin/docker"; "compose"; "-f"; "docker-compose.yml";
              "up"; "-d"] in
  main h argv (initial ∅)
  = Some (Ok 0%Z,
          {| environ := {[ "FOO" := "bar" ]};
             trace := [ SetEnv "FOO" "bar";
                        JinjaRender "docker-compose.jinja";
                        WriteFile "docker-compose.yml" "image: bar";
                        Print Stdout (MsgUsing "docker compose" cmd);
                        Spawn cmd ] |})
  /\ exists r s' t,
       main h argv (initial ∅) = Some (r, s')
       /\ trace s' = trace (initial ∅) ++ t
       /\ (written "docker-compose.yml" t ->
           ends_with_spawn h "docker compose" cmd t r).
Proof.
  intros h argv cmd. split; [vm_compute; reflexivity|].
  apply (default_file_flag_injection h argv argv CustomArgs_default
           ["/usr/bin/docker"; "compose"] "docker compose" (initial ∅));
    [repeat split| | |]; vm_compute; reflexivity.
Defined.

(** C7, as stated, fails: a value flag that is the last token is no error
    when the token before it is a value flag in its two-token form, which
    takes it as its value; and with the help flag of the program among the
    tokens the run prints the usage text and succeeds. *)
Lemma last_flag_without_error :
  let h := example_host [] true true in
  let cmd := ["/usr/bin/docker"; "compose"; "-f"; "docker-compose.yml";
              "--env-file"; "--yml-file"] in
  dcj h ["--env-file"; "--yml-file"] (initial {[ "FOO" := "bar" ]})
  = Some (0%Z,
          {| environ := {[ "FOO" := "bar" ]};
             trace := [ Print Stderr (MsgEnvFileMissing "--yml-file");
                        JinjaRender "docker-compose.jinja";
                        WriteFile "docker-compose.yml" "image: bar";
                        Print Stdout (MsgUsing "docker compose" cmd);
                        Spawn cmd ] |})
  /\ dcj h ["--jhelp"; "--env-file"] (initial ∅)
     = Some (0%Z, {| environ := ∅; trace := [Print Stdout (MsgHelp "dcj")] |}).
Proof. intros h cmd. split; vm_compute; reflexivity. Qed.

(** C7 (amended).  In normal mode, when the last token is [--yml-file] or
    [--env-file] and the cursor reaches it (the tokens before it are
    accepted by [process] on their own, so none of them takes it as its
    value), the run raises [SystemExit] with the message
    [<flag> requires a value] at once: the environment and the trace are
    untouched, and the program prints the message and exits with status
    1. *)
Theorem missing_value_terminates_immediately h pre flag r s :
  flag = "--yml-file" \/ flag = "--env-file" ->
  normal_mode (pre ++ [flag]) ->
  rewrite_argv pre = Some (Ok r) ->
  main h (pre ++ [flag]) s
  = Some (Raise (SystemExit (flag +:+ " requires a value")), s)
  /\ dcj h (pre ++ [flag]) s
     = Some (1%Z,
             {| environ := environ s;
                trace := trace s ++
                  [Print Stderr
                     (MsgUncaught (SystemExit (flag +:+ " requires a value")))] |}).
Proof.
  intros Hflag Hmode Hpre.
  assert (Hmain : main h (pre ++ [flag]) s
                  = Some (Raise (SystemExit (flag +:+ " requires a value")), s)).
  { rewrite (main_normal_mode h _ Hmode). unfold main_normal.
    by rewrite (process_last_flag flag pre r Hflag Hpre). }
  split; [done|]. unfold dcj. by rewrite Hmain.
Qed.

Lemma missing_value_terminates_immediately_witness :
  let h := example_host [line "FOO=bar"] true true in
  let s := initial ∅ in
  main h (["up"] ++ ["--env-file"]) s
  = Some (Raise (SystemExit ("--env-file" +:+ " requires a value")), s)
  /\ dcj h (["up"] ++ ["--env-file"]) s
     = Some (1%Z,
             {| environ := environ s;
                trace := trace s ++
                  [Print Stderr
                     (MsgUncaught
                        (SystemExit ("--env-file" +:+ " requires a value")))] |}).
Proof.
  intros h s.
  apply (missing_value_terminates_immediately h ["up"] "--env-file"
           (["up"], CustomArgs_default) s);
    [by right | repeat split | vm_compute; reflexivity].
Defined.

(** C8 (dump mode).  In normal mode, when the rewriter has recognized the
    [--dump] flag, the run terminates and spawns no process, whether the
    rendering succeeds or fails; and when no candidate template file
    exists, it prints nothing on standard output and the exit status is
    2. *)
Theorem dump_mode_never_invokes_the_tool h argv out c s :
  normal_mode argv ->
  rewrite_argv argv = Some (Ok (out, c)) ->
  dump c = true ->
  exists code s' t,
    dcj h argv s = Some (code, s') /\ trace s' = trace s ++ t
    /\ Forall not_spawn t
    /\ (find_first_template h = None -> code = 2%Z /\ Forall not_stdout t).
Proof.
  intros Hmode Hrw Hdump.
  destruct (rewrite_process _ _ _ Hrw) as (rw & Hproc & <- & <-).
  pose proof (main_normal_mode h argv Hmode) as Hmain.
  rewrite (main_normal_rewriter h argv rw Hproc) in Hmain.
  destruct (find_first_template h) as [template_path|] eqn:Htpl.
  - pose proof (dump_never_spawns h rw Hdump) as Hruns. rewrite <- Hmain in Hruns.
    destruct (dcj_of_main h not_spawn any_result argv ltac:(done) Hruns s)
      as (r & s' & t & Hrun & Ht & HP & _).
    exists (exit_status r), s', t. by repeat split.
  - pose proof (dump_without_template h rw Hdump Htpl) as Hruns.
    rewrite <- Hmain in Hruns.
    destruct (dcj_of_main h env_or_stderr _ argv ltac:(done) Hruns s)
      as (r & s' & t & Hrun & Ht & HP & ->).
    exists 2%Z, s', t. split; [done|]. split; [done|].
    split; [|intros _; split; [done|]];
      (eapply Forall_impl; [exact HP|]); by intros [[]| | | | |].
Qed.

Lemma dump_mode_never_invokes_the_tool_witness :
  let h := example_host [line "FOO=bar"] false true in
  let argv := ["--dump"; "up"] in
  dcj h argv (initial ∅)
  = Some (2%Z, {| environ := {[ "FOO" := "bar" ]};
                  trace := [SetEnv "FOO" "bar";
                            Print Stderr MsgDumpNoTemplate] |})
  /\ exists code s' t,
       dcj h argv (initial ∅) = Some (code, s')
       /\ trace s' = trace (initial ∅) ++ t
       /\ Forall not_spawn t
       /\ (find_first_template h = None -> code = 2%Z /\ Forall not_stdout t).
Proof.
  intros h argv. split; [vm_compute; reflexivity|].
  apply (dump_mode_never_invokes_the_tool h argv ["up"]
           {| yml_file := None; env_file := None; dump := true |} (initial ∅));
    [repeat split| |]; vm_compute; reflexivity.
Defined.

(** * Further properties of the code *)

(** ** ArgRewriter.process *)

Section RewriterMore.

Local Arguments Py.str_eq : simpl never.
Local Arguments Py.startswith : simpl never.
Local Arguments split_eq_1 : simpl never.

Lemma segments_copied argv :
  Forall (fun tok => recognized tok = false) argv ->
  segments argv = Ok (map Copied argv).
Proof.
  induction 1 as [|tok rest Htok _ IH]; [done|].
  change (tok :: rest) with (seg_in (Copied tok) ++ rest).
  by rewrite segments_cons, IH.
Qed.

Lemma flat_map_copied argv : flat_map seg_out (map Copied argv) = argv.
Proof. induction argv as [|tok rest IH]; [done|]. simpl. by rewrite IH. Qed.

Lemma fold_custom_copied argv c :
  fold_left seg_custom (map Copied argv) c = c.
Proof. revert c. induction argv as [|tok rest IH]; intros c; [done|]. apply IH. Qed.

Lemma segments_app pre gs post :
  segments pre = Ok gs ->
  segments (pre ++ post)
  = match segments post with
    | Ok gs2 => Ok (gs ++ gs2)
    | Raise e => Raise e
    end.
Proof.
  revert pre gs. apply segments_ind.
  - simpl. by destruct (segments post).
  - intros g rest gs Hok _ IH.
    rewrite <- (assoc_L (++)), segments_cons, IH by done.
    by destruct (segments post).
Qed.

Lemma merge_custom_step c g x :
  merge_custom (seg_custom c g) x
  = merge_custom c (merge_custom (seg_custom CustomArgs_default g) x).
Proof.
  destruct c as [y e d], x as [[y'|] [e'|] d'], g; unfold merge_custom; simpl;
    f_equal; by rewrite ?orb_false_r, ?orb_true_r, ?orb_assoc.
Qed.

Lemma fold_custom_merge gs : forall c,
  fold_left seg_custom gs c
  = merge_custom c (fold_left seg_custom gs CustomArgs_default).
Proof.
  induction gs as [|g gs IH]; intros c.
  - destruct c as [y e d]. unfold merge_custom. simpl. by rewrite orb_false_r.
  - cbn [fold_left]. rewrite IH, (IH (seg_custom CustomArgs_default g)).
    apply merge_custom_step.
Qed.

Lemma fold_custom_app gs1 gs2 :
  fold_left seg_custom (gs1 ++ gs2) CustomArgs_default
  = merge_custom (fold_left seg_custom gs1 CustomArgs_default)
      (fold_left seg_custom gs2 CustomArgs_default).
Proof. by rewrite fold_left_app, fold_custom_merge. Qed.

Lemma segments_raise_inv argv e :
  segments argv = Raise e ->
  exists pre flag gs,
    argv = pre ++ [flag]
    /\ (flag = "--yml-file" \/ flag = "--env-file")
    /\ segments pre = Ok gs
    /\ e = SystemExit (flag +:+ " requires a value").
Proof.
  induction argv as [argv IH] using (induction_ltof1 _ (@length string)).
  unfold ltof in IH. destruct argv as [|tok rest]; [done|].
  assert (Hstep : forall g l,
    seg_ok g -> tok :: rest = seg_in g ++ l ->
    cons_segment g (segments l) = Raise e ->
    exists pre flag gs,
      tok :: rest = pre ++ [flag]
      /\ (flag = "--yml-file" \/ flag = "--env-file")
      /\ segments pre = Ok gs
      /\ e = SystemExit (flag +:+ " requires a value")).
  { intros g l Hok Heq Hr. destruct (segments l) as [|e'] eqn:Hs; [done|].
    injection Hr as ->.
    assert (Hlen : length l < length (tok :: rest)).
    { rewrite Heq, length_app. destruct g; simpl; lia. }
    destruct (IH l Hlen Hs) as (pre & flag & gs & -> & Hflag & Hpre & ->).
    exists (seg_in g ++ pre), flag, (g :: gs).
    rewrite Heq, <- (assoc_L (++)). split; [done|]. split; [done|].
    split; [|done]. by rewrite segments_cons, Hpre. }
  simpl.
  destruct (Py.str_eq tok "--yml-file") eqn:Ey.
  { apply str_eq_true in Ey as ->. destruct rest as [|v rest'].
    - intros [= <-]. exists [], "--yml-file", []. by repeat split; auto.
    - by apply (Hstep (YmlNext v)). }
  destruct (Py.startswith tok "--yml-file=") eqn:Eyp.
  { destruct (split_eq_1_yml _ Eyp) as (v & -> & Htok).
    by apply (Hstep (YmlEq tok v)). }
  destruct (Py.str_eq tok "--env-file") eqn:Ee.
  { apply str_eq_true in Ee as ->. destruct rest as [|v rest'].
    - intros [= <-]. exists [], "--env-file", []. by repeat split; auto.
    - by apply (Hstep (EnvNext v)). }
  destruct (Py.startswith tok "--env-file=") eqn:Eep.
  { destruct (split_eq_1_env _ Eep) as (v & -> & Htok).
    by apply (Hstep (EnvEq tok v)). }
  destruct (Py.str_eq tok "--dump") eqn:Ed.
  { apply str_eq_true in Ed as ->. by apply (Hstep DumpFlag). }
  apply (Hstep (Copied tok)); [|done].
  unfold seg_ok, recognized. by rewrite Ey, Eyp, Ee, Eep, Ed.
Qed.

Lemma rewrite_argv_ok_iff argv :
  (exists r, rewrite_argv argv = Some (Ok r)) <-> exists gs, segments argv = Ok gs.
Proof.
  rewrite rewrite_segments. split.
  - intros [r Hr]. destruct (segments argv); [eauto|done].
  - intros [gs ->]. simpl. eauto.
Qed.

Lemma yml_value_in_output gs v :
  v ∈ yml_values gs ->
  exists out1 out2, flat_map seg_out gs = out1 ++ "-f" :: v :: out2.
Proof.
  induction gs as [|g gs IH]; simpl; [by intros H%elem_of_nil|].
  unfold yml_values. cbn [flat_map]. fold (yml_values gs).
  intros [Hin|Hin]%elem_of_app.
  - exists [], (flat_map seg_out gs).
    destruct g; simpl in *; try (by apply elem_of_nil in Hin);
      by apply list_elem_of_singleton in Hin as ->.
  - destruct (IH Hin) as (o1 & o2 & ->).
    exists (seg_out g ++ o1), o2. by rewrite <- (assoc_L (++)).
Qed.

Lemma env_value_in_output gs v :
  v ∈ env_values gs ->
  exists out1 out2, flat_map seg_out gs = out1 ++ "--env-file" :: v :: out2.
Proof.
  induction gs as [|g gs IH]; simpl; [by intros H%elem_of_nil|].
  unfold env_values. cbn [flat_map]. fold (env_values gs).
  intros [Hin|Hin]%elem_of_app.
  - exists [], (flat_map seg_out gs).
    destruct g; simpl in *; try (by apply elem_of_nil in Hin);
      by apply list_elem_of_singleton in Hin as ->.
  - destruct (IH Hin) as (o1 & o2 & ->).
    exists (seg_out g ++ o1), o2. by rewrite <- (assoc_L (++)).
Qed.

Lemma str_in_middle x (l1 l2 : list string) : str_in x (l1 ++ x :: l2) = true.
Proof.
  unfold str_in. rewrite existsb_app. simpl.
  unfold Py.str_eq. by rewrite String.eqb_refl, orb_true_r.
Qed.

End RewriterMore.

(** C9 (a consumed value is not a flag).  Let [process] accept [pre], so
    that a flag following [pre] is met by the cursor.  Then on
    [pre ++ --env-file :: v :: post], for every token [v] whatever (a
    custom flag such as [--dump], [--yml-file] or [--env-file=x]
    included), the whole run is the run on [pre], then the pair
    [--env-file v] with [v] recorded as the env-file override, then the run
    on [post]: [v] reaches the output unchanged, sets no other custom value
    and is never the start of an occurrence; an error can only come from
    [post].  Likewise for [--yml-file v], emitted as [-f v].  In
    particular the run on the flag and a value alone records that value
    and leaves the dump flag false, and on [--env-file --dump] the
    env-file override is the string [--dump], the dump flag stays false and
    the output is [--env-file --dump]. *)
Theorem consumed_value_is_taken_verbatim pre out1 c1 v post :
  rewrite_argv pre = Some (Ok (out1, c1)) ->
  rewrite_argv (pre ++ "--env-file" :: v :: post)
  = match rewrite_argv post with
    | Some (Ok (out2, c2)) =>
        Some (Ok (out1 ++ "--env-file" :: v :: out2,
                  merge_custom (set_env_file c1 v) c2))
    | other => other
    end
  /\ rewrite_argv (pre ++ "--yml-file" :: v :: post)
     = match rewrite_argv post with
       | Some (Ok (out2, c2)) =>
           Some (Ok (out1 ++ "-f" :: v :: out2,
                     merge_custom (set_yml_file c1 v) c2))
       | other => other
       end
  /\ rewrite_argv ["--env-file"; v]
     = Some (Ok (["--env-file"; v],
                 {| yml_file := None; env_file := Some v; dump := false |}))
  /\ rewrite_argv ["--yml-file"; v]
     = Some (Ok (["-f"; v],
                 {| yml_file := Some v; env_file := None; dump := false |}))
  /\ rewrite_argv ["--env-file"; "--dump"]
     = Some (Ok (["--env-file"; "--dump"],
                 {| yml_file := None; env_file := Some "--dump";
                    dump := false |})).
Proof.
  intros (gs & Hgs & -> & ->)%rewrite_ok.
  assert (Hrun : forall g,
    seg_ok g ->
    rewrite_argv (pre ++ seg_in g ++ post)
    = match rewrite_argv post with
      | Some (Ok (out2, c2)) =>
          Some (Ok (flat_map seg_out gs ++ seg_out g ++ out2,
                    merge_custom
                      (seg_custom (fold_left seg_custom gs CustomArgs_default) g)
                      c2))
      | other => other
      end).
  { intros g Hg.
    rewrite !rewrite_segments, (segments_app pre gs _ Hgs),
            (segments_cons g post Hg).
    destruct (segments post) as [gs2|e]; [|done]. simpl.
    rewrite flat_map_app, fold_left_app. cbn [flat_map fold_left].
    by rewrite fold_custom_merge. }
  assert (Hone : forall g,
    seg_ok g ->
    rewrite_argv (seg_in g)
    = Some (Ok (seg_out g, seg_custom CustomArgs_default g))).
  { intros g Hg. rewrite <- (app_nil_r (seg_in g)).
    rewrite rewrite_segments, (segments_cons g [] Hg). simpl.
    by rewrite app_nil_r. }
  split; [exact (Hrun (EnvNext v) I)|].
  split; [exact (Hrun (YmlNext v) I)|].
  split; [exact (Hone (EnvNext v) I)|].
  split; [exact (Hone (YmlNext v) I)|].
  exact (Hone (EnvNext "--dump") I).
Qed.

(** After [up], the value [--dump] of [--env-file] is recorded and
    forwarded, and the dump flag stays false. *)
Lemma consumed_value_is_taken_verbatim_witness :
  rewrite_argv ["up"] = Some (Ok (["up"], CustomArgs_default))
  /\ rewrite_argv (["up"] ++ "--env-file" :: "--dump" :: ["-d"])
     = Some (Ok (["up"; "--env-file"; "--dump"; "-d"],
                 {| yml_file := None; env_file := Some "--dump";
                    dump := false |})).
Proof.
  split; [vm_compute; reflexivity|].
  refine (eq_trans
    (proj1 (consumed_value_is_taken_verbatim
              ["up"] ["up"] CustomArgs_default "--dump" ["-d"] _)) _);
    vm_compute; reflexivity.
Defined.

(** X1 (identity).  A token list without any token that [process]
    recognizes (the three flags and the two [<flag>=] prefixes) is
    returned unchanged, with no custom value set. *)
Theorem unrecognized_tokens_pass_unchanged argv :
  Forall (fun tok => recognized tok = false) argv ->
  rewrite_argv argv = Some (Ok (argv, CustomArgs_default)).
Proof.
  intros Hargv. rewrite rewrite_segments, (segments_copied _ Hargv). simpl.
  by rewrite flat_map_copied, fold_custom_copied.
Qed.

Lemma unrecognized_tokens_pass_unchanged_witness :
  rewrite_argv ["up"; "-d"; "--build"; "-f"; "x.yml"; "--yml-filex"; "--dumps"]
  = Some (Ok (["up"; "-d"; "--build"; "-f"; "x.yml"; "--yml-filex"; "--dumps"],
              CustomArgs_default)).
Proof.
  apply unrecognized_tokens_pass_unchanged.
  repeat constructor.
Defined.

(** X2 (the two forms of a value flag).  After tokens that [process]
    accepts, [--yml-file v] and [--yml-file=v] give the same result
    (rewritten list, custom values or error), whatever follows; and so do
    [--env-file v] and [--env-file=v]. *)
Theorem two_forms_rewrite_alike pre r v post :
  rewrite_argv pre = Some (Ok r) ->
  rewrite_argv (pre ++ "--yml-file" :: v :: post)
  = rewrite_argv (pre ++ ("--yml-file=" +:+ v) :: post)
  /\ rewrite_argv (pre ++ "--env-file" :: v :: post)
     = rewrite_argv (pre ++ ("--env-file=" +:+ v) :: post).
Proof.
  intros Hpre.
  destruct (proj1 (rewrite_argv_ok_iff pre) (ex_intro _ r Hpre)) as [gs Hgs].
  rewrite !rewrite_segments, !(segments_app pre gs _ Hgs).
  change ("--yml-file" :: v :: post) with (seg_in (YmlNext v) ++ post).
  change (("--yml-file=" +:+ v) :: post)
    with (seg_in (YmlEq ("--yml-file=" +:+ v) v) ++ post).
  change ("--env-file" :: v :: post) with (seg_in (EnvNext v) ++ post).
  change (("--env-file=" +:+ v) :: post)
    with (seg_in (EnvEq ("--env-file=" +:+ v) v) ++ post).
  rewrite !segments_cons by done.
  destruct (segments post) as [gs2|e]; [|done]. simpl.
  by rewrite !flat_map_app, !fold_left_app.
Qed.

Lemma two_forms_rewrite_alike_witness :
  rewrite_argv (["up"] ++ "--yml-file" :: "a.yml" :: ["-d"])
  = rewrite_argv (["up"] ++ ("--yml-file=" +:+ "a.yml") :: ["-d"])
  /\ rewrite_argv (["up"] ++ "--env-file" :: "a.yml" :: ["-d"])
     = rewrite_argv (["up"] ++ ("--env-file=" +:+ "a.yml") :: ["-d"]).
Proof.
  apply (two_forms_rewrite_alike ["up"] (["up"], CustomArgs_default)).
  vm_compute. reflexivity.
Defined.

(** X3 (termination and errors of [process]).  [process] terminates on
    every token list.  It raises exactly when the list ends with
    [--yml-file] or [--env-file] and the tokens before it are accepted on
    their own; the exception is then [SystemExit] with the message
    [<flag> requires a value].  No index is ever out of range. *)
Theorem process_raises_exactly_on_missing_value argv :
  (exists r, rewrite_argv argv = Some r)
  /\ forall e,
       rewrite_argv argv = Some (Raise e) <->
       exists pre flag r,
         argv = pre ++ [flag]
         /\ (flag = "--yml-file" \/ flag = "--env-file")
         /\ rewrite_argv pre = Some (Ok r)
         /\ e = SystemExit (flag +:+ " requires a value").
Proof.
  split; [rewrite rewrite_segments; eauto|]. intros e. split.
  - rewrite rewrite_segments. destruct (segments argv) as [gs|e'] eqn:Hs; [done|].
    intros [= ->].
    destruct (segments_raise_inv _ _ Hs) as (pre & flag & gs & -> & Hflag & Hpre & ->).
    destruct (proj2 (rewrite_argv_ok_iff pre) (ex_intro _ gs Hpre)) as [r Hr].
    by exists pre, flag, r.
  - intros (pre & flag & r & -> & Hflag & Hpre & ->).
    destruct (proj1 (rewrite_argv_ok_iff pre) (ex_intro _ r Hpre)) as [gs Hgs].
    by rewrite rewrite_segments, (segments_last_flag flag pre gs Hflag Hgs).
Qed.

(** X4 (concatenation).  When [process] accepts [pre], its run on
    [pre ++ post] is its run on [pre] followed by its run on [post]: the
    rewritten lists are concatenated, a custom value of [post] replaces the
    one of [pre], the dump flag is set by either; and an error of [post] is
    the error of the whole. *)
Theorem process_concatenation pre out1 c1 post :
  rewrite_argv pre = Some (Ok (out1, c1)) ->
  rewrite_argv (pre ++ post)
  = match rewrite_argv post with
    | Some (Ok (out2, c2)) => Some (Ok (out1 ++ out2, merge_custom c1 c2))
    | other => other
    end.
Proof.
  intros (gs & Hgs & -> & ->)%rewrite_ok.
  rewrite !rewrite_segments, (segments_app pre gs post Hgs).
  destruct (segments post) as [gs2|e]; [|done]. simpl.
  by rewrite flat_map_app, fold_custom_app.
Qed.

Lemma process_concatenation_witness :
  rewrite_argv (["--yml-file"; "a"; "--dump"] ++ ["up"; "--yml-file=b"])
  = match rewrite_argv ["up"; "--yml-file=b"] with
    | Some (Ok (out2, c2)) =>
        Some (Ok (["-f"; "a"] ++ out2,
                  merge_custom
                    {| yml_file := Some "a"; env_file := None; dump := true |} c2))
    | other => other
    end.
Proof.
  apply (process_concatenation ["--yml-file"; "a"; "--dump"]).
  vm_compute. reflexivity.
Defined.

(** X5 (a given output file is passed by the rewriter).  When the custom
    values hold an output file [v], the rewritten list contains the pair
    [-f v], so [-f] occurs in it and [main] injects no default [-f];
    likewise a recorded env file [v] comes with the pair [--env-file v]. *)
Theorem recorded_value_is_forwarded argv out c :
  rewrite_argv argv = Some (Ok (out, c)) ->
  (forall v, yml_file c = Some v ->
     str_in "-f" out = true
     /\ exists out1 out2, out = out1 ++ "-f" :: v :: out2)
  /\ (forall v, env_file c = Some v ->
        exists out1 out2, out = out1 ++ "--env-file" :: v :: out2).
Proof.
  intros (gs & Hgs & -> & ->)%rewrite_ok. split; intros v Hv.
  - rewrite fold_custom_yml in Hv. simpl in Hv.
    destruct (last (yml_values gs)) as [v'|] eqn:Hlast; [|done].
    injection Hv as ->. apply last_Some in Hlast as [l' Hl'].
    destruct (yml_value_in_output gs v) as (o1 & o2 & Hout).
    { rewrite Hl'. apply elem_of_app. right. by apply list_elem_of_singleton. }
    rewrite Hout. split; [apply str_in_middle|by exists o1, o2].
  - rewrite fold_custom_env in Hv. simpl in Hv.
    destruct (last (env_values gs)) as [v'|] eqn:Hlast; [|done].
    injection Hv as ->. apply last_Some in Hlast as [l' Hl'].
    apply env_value_in_output. rewrite Hl'. apply elem_of_app. right.
    by apply list_elem_of_singleton.
Qed.

Lemma recorded_value_is_forwarded_witness :
  let out := ["up"; "-f"; "a.yml"; "--env-file"; "e"] in
  let c := {| yml_file := Some "a.yml"; env_file := Some "e"; dump := false |} in
  (forall v, yml_file c = Some v ->
     str_in "-f" out = true
     /\ exists out1 out2, out = out1 ++ "-f" :: v :: out2)
  /\ (forall v, env_file c = Some v ->
        exists out1 out2, out = out1 ++ "--env-file" :: v :: out2).
Proof.
  intros out c.
  apply (recorded_value_is_forwarded ["up"; "--yml-file=a.yml"; "--env-file"; "e"]).
  vm_compute. reflexivity.
Defined.

(** ** parse_equals_or_next *)

Lemma string_app_assoc (a b c : string) : (a +:+ b) +:+ c = a +:+ (b +:+ c).
Proof.
  induction a as [|x a IH]; [done|]. unfold String.app in *. simpl.
  by rewrite IH.
Qed.

Lemma split_eq_1_flag flag tok :
  Py.contains "=" flag = false ->
  Py.startswith tok (flag +:+ "=") = true ->
  exists v, split_eq_1 tok = Ok v /\ tok = flag +:+ "=" +:+ v.
Proof.
  intros Hflag H%startswith_app. rewrite string_app_assoc in H.
  eexists. split; [|exact H]. rewrite H at 1. unfold split_eq_1.
  change ("=" +:+ ?v) with (String "=" v). by rewrite split_once_app.
Qed.

Lemma parse_equals_or_next_from_spec flag :
  Py.contains "=" flag = false ->
  forall argv i,
    match parse_equals_or_next_from i argv flag with
    | Ok (None, consumed) => consumed = [] /\ Forall (no_match flag) argv
    | Ok (Some v, consumed) =>
        exists pre post,
          Forall (no_match flag) pre
          /\ ((argv = pre ++ flag :: v :: post
               /\ consumed = [i + length pre; i + length pre + 1])
              \/ (argv = pre ++ (flag +:+ "=" +:+ v) :: post
                  /\ consumed = [i + length pre]))
    | Raise e =>
        e = SystemExit ("Expected a value after " +:+ flag)
        /\ exists pre, argv = pre ++ [flag] /\ Forall (no_match flag) pre
    end.
Proof.
  intros Hflag. induction argv as [|tok rest IH]; intros i; [done|].
  cbn [parse_equals_or_next_from].
  destruct (Py.str_eq tok flag) eqn:Heq.
  { apply String.eqb_eq in Heq as ->. destruct rest as [|v rest'].
    - split; [done|]. by exists [].
    - exists [], rest'. split; [done|]. left. simpl.
      by rewrite Nat.add_0_r. }
  destruct (Py.startswith tok (flag +:+ "=")) eqn:Hpre.
  { destruct (split_eq_1_flag flag tok Hflag Hpre) as (v & -> & ->).
    exists [], rest. split; [done|]. right. simpl. by rewrite Nat.add_0_r. }
  specialize (IH (S i)).
  destruct (parse_equals_or_next_from (S i) rest flag) as [[[v|] consumed]|e].
  - destruct IH as (pre & post & Hno & Hcase).
    exists (tok :: pre), post. split; [by constructor|]. simpl.
    replace (i + S (length pre)) with (S i + length pre) by lia.
    destruct Hcase as [[-> ->]|[-> ->]]; [by left|by right].
  - destruct IH as [-> Hno]. split; [done|]. by constructor.
  - destruct IH as (-> & pre & -> & Hno). split; [done|].
    exists (tok :: pre). split; [done|]. by constructor.
Qed.

(** X6 (what [parse_equals_or_next] finds).  For a flag without [=] in its
    name, the function stops at the first token that is the flag or starts
    with [<flag>=].  If there is none, it returns no value and no index.  If
    that token is [<flag>=v], it returns [v] and the index of the token.
    If it is the flag followed by a token [v], it returns [v] and the two
    indices.  If it is the flag as the last token, it raises [SystemExit]
    with the message [Expected a value after <flag>]. *)
Theorem parse_equals_or_next_first_occurrence argv flag :
  Py.contains "=" flag = false ->
  match parse_equals_or_next argv flag with
  | Ok (None, consumed) => consumed = [] /\ Forall (no_match flag) argv
  | Ok (Some v, consumed) =>
      exists pre post,
        Forall (no_match flag) pre
        /\ ((argv = pre ++ flag :: v :: post
             /\ consumed = [length pre; length pre + 1])
            \/ (argv = pre ++ (flag +:+ "=" +:+ v) :: post
                /\ consumed = [length pre]))
  | Raise e =>
      e = SystemExit ("Expected a value after " +:+ flag)
      /\ exists pre, argv = pre ++ [flag] /\ Forall (no_match flag) pre
  end.
Proof.
  intros Hflag. apply (parse_equals_or_next_from_spec flag Hflag argv 0).
Qed.

Lemma parse_equals_or_next_first_occurrence_witness :
  parse_equals_or_next ["up"; "--env-file=a"; "--env-file"; "b"] "--env-file"
  = Ok (Some "a", [1])
  /\ match parse_equals_or_next ["up"; "--env-file=a"; "--env-file"; "b"]
             "--env-file" with
     | Ok (None, consumed) =>
         consumed = []
         /\ Forall (no_match "--env-file")
              ["up"; "--env-file=a"; "--env-file"; "b"]
     | Ok (Some v, consumed) =>
         exists pre post,
           Forall (no_match "--env-file") pre
           /\ ((["up"; "--env-file=a"; "--env-file"; "b"]
                = pre ++ "--env-file" :: v :: post
                /\ consumed = [length pre; length pre + 1])
               \/ (["up"; "--env-file=a"; "--env-file"; "b"]
                   = pre ++ ("--env-file" +:+ "=" +:+ v) :: post
                   /\ consumed = [length pre]))
     | Raise e =>
         e = SystemExit ("Expected a value after " +:+ "--env-file")
         /\ exists pre,
              ["up"; "--env-file=a"; "--env-file"; "b"] = pre ++ ["--env-file"]
              /\ Forall (no_match "--env-file") pre
     end.
Proof.
  split; [vm_compute; reflexivity|].
  apply (parse_equals_or_next_first_occurrence
           ["up"; "--env-file=a"; "--env-file"; "b"] "--env-file").
  reflexivity.
Defined.

(** ** load_dotenv: what a load adds *)

Section LoaderMore.

Lemma bind_when_print {A} (b : bool) to m (k : unit -> M A) s :
  exists s', environ s' = environ s
             /\ trace s' = trace s ++ (if b then [Print to m] else [])
             /\ bind (when b (print to m)) k s = k tt s'.
Proof.
  destruct b; simpl.
  - by eexists {| environ := environ s; trace := trace s ++ [Print to m] |}.
  - exists s. by rewrite app_nil_r.
Qed.

Lemma union_insert_present (m1 m2 : gmap string string) k v :
  is_Some (m1 !! k) -> m1 ∪ <[k := v]> m2 = m1 ∪ m2.
Proof.
  intros [old Hold]. apply map_eq. intros i. rewrite !lookup_union.
  destruct (decide (k = i)) as [<-|Hne].
  - rewrite Hold, lookup_insert_eq. by destruct (m2 !! k).
  - by rewrite lookup_insert_ne.
Qed.

(** Without a NUL in a value, the loop adds the entries of the lines to
    the environment, the bindings already there and the earlier entries
    winning. *)
Lemma load_lines_union debug at_eof raw_lines :
  Forall (fun kv => Py.contains nul kv.2 = false) (dotenv_entries raw_lines) ->
  forall loaded_keys s,
    exists keys s',
      load_lines debug raw_lines at_eof loaded_keys s
      = Some (Ok (keys, at_eof), s')
      /\ environ s' = environ s ∪ list_to_map (dotenv_entries raw_lines).
Proof.
  induction raw_lines as [|raw_line rest IH]; intros Hnul loaded_keys s.
  { exists loaded_keys, s. split; [done|]. simpl.
    by rewrite (right_id_L ∅ (∪)). }
  cbn [load_lines dotenv_entries] in *.
  destruct (parse_line raw_line) as [| |key val].
  - by apply IH.
  - destruct (bind_when_print debug Stderr (DbgSkipNoEquals (Py.rstrip raw_line))
                (fun _ => load_lines debug rest at_eof loaded_keys) s)
      as (s0 & Henv & _ & ->).
    rewrite <- Henv. by apply IH.
  - destruct (valid_key key).
    2:{ destruct (bind_when_print debug Stderr (DbgSkipInvalidKey key)
                    (fun _ => load_lines debug rest at_eof loaded_keys) s)
          as (s0 & Henv & _ & ->).
        rewrite <- Henv. by apply IH. }
    apply Forall_cons in Hnul as [Hval Hnul]. simpl in Hval.
    unfold bind at 1, get_environ. cbn [list_to_map foldr].
    destruct (environ s !! key) as [old|] eqn:Hkey.
    + destruct (IH Hnul loaded_keys s) as (keys & s' & Hrun & Henv).
      exists keys, s'. split; [done|].
      rewrite Henv. symmetry. apply union_insert_present. by exists old.
    + rewrite Hval. unfold bind, setenv.
      destruct (IH Hnul (loaded_keys ++ [key])
                  {| environ := <[key := val]> (environ s);
                     trace := trace s ++ [SetEnv key val] |})
        as (keys & s' & Hrun & Henv).
      exists keys, s'. split; [done|]. rewrite Henv. simpl.
      by rewrite <- insert_union_l, <- insert_union_r.
Qed.

(** The keys the loop returns are the keys it assigns, in order; each is a
    valid key that was not bound, and none is assigned twice. *)
Lemma load_lines_keys debug at_eof raw_lines : forall loaded_keys s,
  exists keys failure s' t,
    load_lines debug raw_lines at_eof loaded_keys s
    = Some (Ok (loaded_keys ++ keys, failure), s')
    /\ trace s' = trace s ++ t
    /\ assigned_keys t = keys
    /\ Forall (fun k => valid_key k = true /\ environ s !! k = None) keys
    /\ NoDup keys.
Proof.
  induction raw_lines as [|raw_line rest IH]; intros loaded_keys s.
  { exists [], at_eof, s, []. simpl. unfold ret. rewrite !app_nil_r.
    repeat split; [done|constructor]. }
  cbn [load_lines].
  assert (Hskip : forall m b,
    exists keys failure s' t,
      bind (when b (print Stderr m))
        (fun _ => load_lines debug rest at_eof loaded_keys) s
      = Some (Ok (loaded_keys ++ keys, failure), s')
      /\ trace s' = trace s ++ t
      /\ assigned_keys t = keys
      /\ Forall (fun k => valid_key k = true /\ environ s !! k = None) keys
      /\ NoDup keys).
  { intros m b.
    destruct (bind_when_print b Stderr m
                (fun _ => load_lines debug rest at_eof loaded_keys) s)
      as (s0 & Henv & Htr0 & ->).
    destruct (IH loaded_keys s0) as (keys & failure & s' & t & Hrun & Htr & Hk & Hv & Hnd).
    exists keys, failure, s', ((if b then [Print Stderr m] else []) ++ t).
    rewrite Hrun, Htr, Htr0, <- (assoc_L (++)), <- Henv.
    repeat split; try done.
    unfold assigned_keys in *. rewrite flat_map_app, Hk. by destruct b. }
  destruct (parse_line raw_line) as [| |key val]; [apply IH|apply Hskip|].
  destruct (valid_key key) eqn:Hvalid; [|apply Hskip].
  unfold bind at 1, get_environ.
  destruct (environ s !! key) as [old|] eqn:Hkey; [apply IH|].
  destruct (Py.contains nul val).
  { exists [], (Some ValueError), s, []. unfold ret. rewrite !app_nil_r.
    repeat split; [done|constructor]. }
  unfold bind, setenv.
  destruct (IH (loaded_keys ++ [key])
              {| environ := <[key := val]> (environ s);
                 trace := trace s ++ [SetEnv key val] |})
    as (keys & failure & s' & t & Hrun & Htr & Hk & Hv & Hnd).
  simpl in *.
  exists (key :: keys), failure, s', (SetEnv key val :: t).
  rewrite Hrun, Htr, <- !(assoc_L (++)). simpl.
  split; [done|]. split; [done|]. split; [by rewrite Hk|].
  rewrite Forall_forall in Hv. split.
  - constructor; [done|]. apply Forall_forall. intros k Hin.
    destruct (Hv k Hin) as [Hkv Hks]. split; [done|].
    destruct (decide (key = k)) as [->|Hne];
      [by rewrite lookup_insert_eq in Hks|by rewrite lookup_insert_ne in Hks].
  - constructor; [|done]. intros Hin. destruct (Hv key Hin) as [_ Hks].
    by rewrite lookup_insert_eq in Hks.
Qed.

(** Running the loop again on the environment a first run left adds
    nothing. *)
Lemma load_lines_again debug debug2 at_eof raw_lines :
  forall loaded_keys s keys failure s1,
    load_lines debug raw_lines at_eof loaded_keys s
    = Some (Ok (keys, failure), s1) ->
    forall loaded_keys2 s2,
      environ s2 = environ s1 ->
      exists s3,
        load_lines debug2 raw_lines at_eof loaded_keys2 s2
        = Some (Ok (loaded_keys2, failure), s3)
        /\ environ s3 = environ s2
        /\ assigned_keys (drop (length (trace s2)) (trace s3)) = [].
Proof.
  induction raw_lines as [|raw_line rest IH];
    intros loaded_keys s keys failure s1 Hrun loaded_keys2 s2 Henv.
  { injection Hrun as <- <- <-. exists s2. split; [done|]. split; [done|].
    by rewrite drop_all. }
  cbn [load_lines] in *.
  assert (Hskip2 : forall m b,
    (exists loaded_keys s, load_lines debug rest at_eof loaded_keys s
                           = Some (Ok (keys, failure), s1)) ->
    exists s3,
      bind (when b (print Stderr m))
        (fun _ => load_lines debug2 rest at_eof loaded_keys2) s2
      = Some (Ok (loaded_keys2, failure), s3)
      /\ environ s3 = environ s2
      /\ assigned_keys (drop (length (trace s2)) (trace s3)) = []).
  { intros m b (lk & s0 & Hrun0).
    destruct (bind_when_print b Stderr m
                (fun _ => load_lines debug2 rest at_eof loaded_keys2) s2)
      as (s2' & Henv' & Htr' & ->).
    destruct (IH lk s0 keys failure s1 Hrun0 loaded_keys2 s2')
      as (s3 & Hrun3 & Henv3 & Hk3); [congruence|].
    exists s3. split; [done|]. split; [congruence|].
    destruct (load_lines_keys debug2 at_eof rest loaded_keys2 s2')
      as (ks & f & s3' & t & Hr & Htr & Hkt & _).
    rewrite Hrun3 in Hr. injection Hr as Hks _ <-.
    rewrite Htr, Htr', <- (assoc_L (++)), drop_app_length.
    rewrite Htr, drop_app_length in Hk3.
    unfold assigned_keys in *. rewrite flat_map_app, Hk3. by destruct b. }
  destruct (parse_line raw_line) as [| |key val].
  - by eapply IH.
  - destruct (bind_when_print debug Stderr (DbgSkipNoEquals (Py.rstrip raw_line))
                (fun _ => load_lines debug rest at_eof loaded_keys) s)
      as (s0 & _ & _ & Hb).
    rewrite Hb in Hrun. apply Hskip2. eauto.
  - destruct (valid_key key).
    2:{ destruct (bind_when_print debug Stderr (DbgSkipInvalidKey key)
                    (fun _ => load_lines debug rest at_eof loaded_keys) s)
          as (s0 & _ & _ & Hb).
        rewrite Hb in Hrun. apply Hskip2. eauto. }
    unfold bind at 1, get_environ in Hrun. unfold bind at 1, get_environ.
    destruct (environ s !! key) as [old|] eqn:Hkey.
    + destruct (load_lines_spec debug at_eof rest loaded_keys s)
        as (ks & f & s' & t & Hr & _ & _ & Hkeep & _).
      rewrite Hrun in Hr. injection Hr as _ _ <-.
      pose proof (Hkeep key old Hkey) as Hk1. rewrite <- Henv in Hk1.
      rewrite Hk1. by eapply IH.
    + destruct (Py.contains nul val) eqn:Hnul.
      * injection Hrun as <- <- <-. rewrite <- Henv in Hkey.
        rewrite Hkey.
        exists s2. split; [done|]. split; [done|]. by rewrite drop_all.
      * unfold bind, setenv in Hrun.
        destruct (load_lines_spec debug at_eof rest (loaded_keys ++ [key])
                    {| environ := <[key := val]> (environ s);
                       trace := trace s ++ [SetEnv key val] |})
          as (ks & f & s' & t & Hr & _ & _ & Hkeep & _).
        rewrite Hrun in Hr. injection Hr as _ _ <-.
        pose proof (Hkeep key val ltac:(simpl; apply lookup_insert_eq)) as Hk1.
        rewrite <- Henv in Hk1. rewrite Hk1. by eapply IH.
Qed.

End LoaderMore.

(** X7 (what a load adds).  For a file none of whose entries has a NUL
    character in its value, [load_dotenv] leaves the environment equal to
    the ambient bindings completed by the entries of the file that have a
    valid key: an ambient binding wins over the file, and of two entries
    with the same key the first wins. *)
Theorem load_dotenv_is_union h path debug f s :
  regular_file h path = Some f ->
  Forall (fun kv => Py.contains nul kv.2 = false)
    (dotenv_entries (file_lines f)) ->
  exists loaded_keys s',
    load_dotenv h path debug s = Some (Ok loaded_keys, s')
    /\ environ s' = environ s ∪ list_to_map (dotenv_entries (file_lines f)).
Proof.
  intros Hfile Hnul. unfold load_dotenv. rewrite Hfile.
  assert (Hgo : forall at_eof,
    exists loaded_keys s',
      bind (load_lines debug (file_lines f) at_eof [])
        (fun '(loaded_keys, failure) =>
           bind match failure with
                | Some _ => print Stderr (MsgLoadFailed path)
                | None => ret tt
                end (fun _ => ret loaded_keys)) s
      = Some (Ok loaded_keys, s')
      /\ environ s' = environ s ∪ list_to_map (dotenv_entries (file_lines f))).
  { intros at_eof. unfold bind at 1.
    destruct (load_lines_union debug at_eof (file_lines f) Hnul [] s)
      as (keys & s' & -> & Henv).
    destruct at_eof; by eexists _, _. }
  destruct f; apply Hgo.
Qed.

Lemma load_dotenv_is_union_witness :
  let lines := [line "# settings"; line "FOO=fromfile"; line "BAR=one";
                line "export BAR=two"; line "bad key=x"] in
  let h := example_host lines true true in
  let s := initial {[ "FOO" := "ambient" ]} in
  dotenv_entries lines = [("FOO", "fromfile"); ("BAR", "one"); ("BAR", "two")]
  /\ exists loaded_keys s',
       load_dotenv h ".env" false s = Some (Ok loaded_keys, s')
       /\ environ s' = environ s ∪ list_to_map (dotenv_entries lines).
Proof.
  intros lines h s. split; [vm_compute; reflexivity|].
  apply (load_dotenv_is_union h ".env" false (Readable lines) s);
    [reflexivity|].
  vm_compute. repeat constructor.
Defined.

(** X8 (the returned keys).  The list [load_dotenv] returns holds exactly
    the keys it assigned in the environment, in the order of the
    assignments; each of them is a valid key (not empty, made of letters,
    digits and underscores) that was not bound, and none occurs twice. *)
Theorem load_dotenv_returns_assigned_keys h path debug s :
  exists loaded_keys s' t,
    load_dotenv h path debug s = Some (Ok loaded_keys, s')
    /\ trace s' = trace s ++ t
    /\ assigned_keys t = loaded_keys
    /\ Forall (fun k => valid_key k = true /\ environ s !! k = None) loaded_keys
    /\ NoDup loaded_keys.
Proof.
  unfold load_dotenv. destruct (regular_file h path) as [f|].
  2:{ exists [], s, []. unfold ret. rewrite app_nil_r.
      repeat split; [done|constructor]. }
  assert (Hgo : forall raw_lines at_eof,
    exists loaded_keys s' t,
      bind (load_lines debug raw_lines at_eof [])
        (fun '(loaded_keys, failure) =>
           bind match failure with
                | Some _ => print Stderr (MsgLoadFailed path)
                | None => ret tt
                end (fun _ => ret loaded_keys)) s
      = Some (Ok loaded_keys, s')
      /\ trace s' = trace s ++ t
      /\ assigned_keys t = loaded_keys
      /\ Forall (fun k => valid_key k = true /\ environ s !! k = None) loaded_keys
      /\ NoDup loaded_keys).
  { intros raw_lines at_eof. unfold bind at 1.
    destruct (load_lines_keys debug at_eof raw_lines [] s)
      as (keys & failure & s' & t & -> & Htr & Hk & Hv & Hnd).
    simpl. destruct failure as [e|]; unfold bind, print, emit, ret; simpl.
    - eexists keys, _, (t ++ [Print Stderr (MsgLoadFailed path)]).
      split; [reflexivity|]. simpl. rewrite Htr, <- (assoc_L (++)).
      repeat split; try done.
      unfold assigned_keys in *. by rewrite flat_map_app, Hk, app_nil_r.
    - by exists keys, s', t. }
  destruct f; apply Hgo.
Qed.

(** X9 (loading twice).  Loading the same file a second time, on the
    environment the first load left, returns no key, assigns nothing and
    leaves the environment as it is - also when reading the file fails or
    a value with a NUL character stops the load. *)
Theorem load_dotenv_twice_adds_nothing h path debug debug2 s loaded_keys s1 :
  load_dotenv h path debug s = Some (Ok loaded_keys, s1) ->
  exists s2,
    load_dotenv h path debug2 s1 = Some (Ok [], s2)
    /\ environ s2 = environ s1
    /\ assigned_keys (drop (length (trace s1)) (trace s2)) = [].
Proof.
  unfold load_dotenv. destruct (regular_file h path) as [f|].
  2:{ intros _. exists s1. unfold ret. split; [done|]. split; [done|].
      by rewrite drop_all. }
  assert (Hgo : forall raw_lines at_eof,
    bind (load_lines debug raw_lines at_eof [])
      (fun '(loaded_keys, failure) =>
         bind match failure with
              | Some _ => print Stderr (MsgLoadFailed path)
              | None => ret tt
              end (fun _ => ret loaded_keys)) s
    = Some (Ok loaded_keys, s1) ->
    exists s2,
      bind (load_lines debug2 raw_lines at_eof [])
        (fun '(loaded_keys, failure) =>
           bind match failure with
                | Some _ => print Stderr (MsgLoadFailed path)
                | None => ret tt
                end (fun _ => ret loaded_keys)) s1
      = Some (Ok [], s2)
      /\ environ s2 = environ s1
      /\ assigned_keys (drop (length (trace s1)) (trace s2)) = []).
  { intros raw_lines at_eof Hrun. unfold bind at 1 in Hrun.
    destruct (load_lines debug raw_lines at_eof [] s)
      as [[[[keys failure]|e] s0]|] eqn:Hfirst; [|done..].
    assert (Henv0 : environ s1 = environ s0).
    { destruct failure; unfold bind, print, emit, ret in Hrun; simpl in Hrun;
        by injection Hrun as _ <-. }
    destruct (load_lines_again debug debug2 at_eof raw_lines [] s keys failure
                s0 Hfirst [] s1 Henv0) as (s3 & Hrun3 & Henv3 & Hk3).
    unfold bind at 1. rewrite Hrun3.
    destruct failure as [e|]; unfold bind, print, emit, ret; simpl.
    - eexists. split; [reflexivity|]. simpl. split; [done|].
      destruct (load_lines_keys debug2 at_eof raw_lines [] s1)
        as (ks & f' & s3' & t & Hr & Htr & _).
      rewrite Hrun3 in Hr. injection Hr as _ _ <-.
      rewrite Htr, drop_app_length in Hk3.
      rewrite Htr, <- (assoc_L (++)), drop_app_length.
      unfold assigned_keys in *. by rewrite flat_map_app, Hk3.
    - by exists s3. }
  destruct f; apply Hgo.
Qed.

Lemma load_dotenv_twice_adds_nothing_witness :
  let h := example_host [line "FOO=fromfile"; line "BAR=baz"] true true in
  let s := initial {[ "FOO" := "ambient" ]} in
  let s1 := {| environ := <["BAR" := "baz"]> {[ "FOO" := "ambient" ]};
               trace := [SetEnv "BAR" "baz"] |} in
  exists s2,
    load_dotenv h ".env" true s1 = Some (Ok [], s2)
    /\ environ s2 = environ s1
    /\ assigned_keys (drop (length (trace s1)) (trace s2)) = [].
Proof.
  intros h s s1.
  apply (load_dotenv_twice_adds_nothing h ".env" false true s ["BAR"] s1).
  vm_compute. reflexivity.
Defined.

(** ** load_dotenv: how a line is read *)

Section Strings.

Lemma append_nil_r s : s +:+ "" = s.
Proof. induction s as [|a s IH]; [done|]. unfold String.app in *. simpl. by rewrite IH. Qed.

Lemma rev_app_spec s : forall acc,
  String.rev_app s acc = String.rev_app s "" +:+ acc.
Proof.
  induction s as [|a s IH]; intros acc; [done|]. cbn [String.rev_app].
  rewrite (IH (String a acc)), (IH (String a "")).
  by rewrite string_app_assoc.
Qed.

Lemma rev_append s t : String.rev (s +:+ t) = String.rev t +:+ String.rev s.
Proof.
  unfold String.rev. rewrite rev_app_append.
  by rewrite (rev_app_spec t (String.rev_app s "")).
Qed.

Lemma rev_cons a s : String.rev (String a s) = String.rev s +:+ str1 a.
Proof. unfold String.rev. cbn [String.rev_app]. apply rev_app_spec. Qed.

Lemma rev_involutive s : String.rev (String.rev s) = s.
Proof.
  induction s as [|a s IH]; [done|].
  by rewrite rev_cons, rev_append, IH.
Qed.

Lemma rev_empty s : String.rev s = "" -> s = "".
Proof. intros H. by rewrite <- (rev_involutive s), H. Qed.

Lemma lstrip_app x y :
  Py.lstrip (x +:+ y)
  = match Py.lstrip x with
    | EmptyString => Py.lstrip y
    | String _ _ => Py.lstrip x +:+ y
    end.
Proof.
  induction x as [|a x IH]; [reflexivity|].
  unfold String.app in *. simpl. by destruct (Py.isspace a).
Qed.

Lemma lstrip_idempotent s : Py.lstrip (Py.lstrip s) = Py.lstrip s.
Proof.
  induction s as [|a s IH]; [done|]. simpl.
  destruct (Py.isspace a) eqn:Ha; [done|]. simpl. by rewrite Ha.
Qed.

(** [s[len(p):]] after a prefix. *)
Lemma lstrip_split s : exists pre, s = pre +:+ Py.lstrip s.
Proof.
  induction s as [|a s [pre IH]]; [by exists ""|]. simpl.
  destruct (Py.isspace a); [|by exists ""].
  exists (String a pre). unfold String.app in *. simpl. by rewrite <- IH.
Qed.

Lemma lstrip_head a s : Py.lstrip (String a s) = String a s -> Py.isspace a = false.
Proof.
  simpl. destruct (Py.isspace a); [|done]. intros H.
  destruct (lstrip_split s) as [pre Hpre].
  apply (f_equal String.length) in H. simpl in H.
  pose proof (f_equal String.length Hpre) as Hl.
  rewrite length_append in Hl. lia.
Qed.

Lemma rstrip_app a b :
  Py.rstrip (a +:+ b)
  = match Py.lstrip (String.rev b) with
    | EmptyString => Py.rstrip a
    | String _ _ => a +:+ Py.rstrip b
    end.
Proof.
  unfold Py.rstrip. rewrite rev_append, lstrip_app.
  destruct (Py.lstrip (String.rev b)); [done|].
  by rewrite rev_append, rev_involutive.
Qed.

Lemma rstrip_idempotent s : Py.rstrip (Py.rstrip s) = Py.rstrip s.
Proof. unfold Py.rstrip. by rewrite rev_involutive, lstrip_idempotent. Qed.

Lemma rstrip_split s : exists post, s = Py.rstrip s +:+ post.
Proof.
  unfold Py.rstrip. destruct (lstrip_split (String.rev s)) as [pre Hpre].
  exists (String.rev pre).
  by rewrite <- rev_append, <- Hpre, rev_involutive.
Qed.

(** Right-trimming keeps a text free of leading whitespace so. *)
Lemma lstrip_rstrip s : Py.lstrip s = s -> Py.lstrip (Py.rstrip s) = Py.rstrip s.
Proof.
  intros Hs. destruct (rstrip_split s) as [post Hpost].
  destruct (Py.rstrip s) as [|a r]; [done|].
  rewrite Hpost in Hs. unfold String.app in Hs. cbn [String.append] in Hs.
  apply lstrip_head in Hs. simpl. by rewrite Hs.
Qed.

Lemma rstrip_after a b :
  Py.rstrip a = a -> Py.rstrip (a +:+ b) = a +:+ Py.rstrip b.
Proof.
  intros Ha. rewrite rstrip_app.
  destruct (Py.lstrip (String.rev b)) eqn:Hb; [|done].
  unfold Py.rstrip at 2. rewrite Hb.
  change (String.rev "") with "". by rewrite Ha, append_nil_r.
Qed.

Lemma rstrip_last s a :
  Py.isspace a = false -> Py.rstrip (s +:+ str1 a) = s +:+ str1 a.
Proof.
  intros Ha. rewrite rstrip_app. simpl. rewrite Ha.
  unfold Py.rstrip. simpl. by rewrite Ha.
Qed.

Lemma all_chars_app P s t :
  all_chars P (s +:+ t) = all_chars P s && all_chars P t.
Proof.
  induction s as [|a s IH]; [done|]. unfold String.app in *. simpl.
  by rewrite IH, andb_assoc.
Qed.

Lemma all_key_chars_spec key :
  all_key_chars key = all_chars (fun c => Ascii.eqb c "_" || Py.isalnum c) key.
Proof. induction key as [|c key IH]; [done|]. simpl. by rewrite IH. Qed.

End Strings.

Section Lines.

Local Arguments Py.lower_char : simpl never.
Local Arguments Py.isspace : simpl never.
Local Arguments Py.isalnum : simpl never.

(** What the test of a key character excludes. *)
Lemma key_char_facts c :
  Ascii.eqb c "_" || Py.isalnum c = true ->
  Py.isspace c = false /\ Ascii.eqb c "=" = false /\ Ascii.eqb c "#" = false
  /\ Ascii.eqb c dquote = false /\ Ascii.eqb (Py.lower_char c) " " = false.
Proof.
  destruct c as [[] [] [] [] [] [] [] []]; vm_compute; intros H;
    first [discriminate H | by repeat split].
Qed.

Lemma key_no_space key :
  all_key_chars key = true -> all_chars (fun c => negb (Py.isspace c)) key = true.
Proof.
  induction key as [|c key IH]; [done|]. simpl.
  intros [Hc Hk]%andb_true_iff. destruct (key_char_facts c Hc) as (-> & _).
  by apply IH.
Qed.

Lemma key_no_equals key :
  all_key_chars key = true -> Py.contains "=" key = false.
Proof.
  induction key as [|c key IH]; [done|]. simpl.
  intros [Hc Hk]%andb_true_iff. destruct (key_char_facts c Hc) as (_ & -> & _).
  by apply IH.
Qed.

Lemma lstrip_no_space s :
  all_chars (fun c => negb (Py.isspace c)) s = true -> Py.lstrip s = s.
Proof.
  destruct s as [|a s]; [done|]. simpl. intros [Ha _]%andb_true_iff.
  by destruct (Py.isspace a).
Qed.

Lemma rstrip_no_space s :
  all_chars (fun c => negb (Py.isspace c)) s = true -> Py.rstrip s = s.
Proof.
  induction s as [|a s IH]; [done|]. simpl. intros [Ha Hs]%andb_true_iff.
  apply negb_true_iff in Ha. specialize (IH Hs).
  change (String a s) with (str1 a +:+ s). rewrite rstrip_app.
  destruct (Py.lstrip (String.rev s)) eqn:Hrev.
  - unfold Py.rstrip in IH. rewrite Hrev in IH. simpl in IH. subst s.
    unfold Py.rstrip. simpl. by rewrite Ha.
  - by rewrite IH.
Qed.

(** A line that starts with a key and [=] does not start with [export ]. *)
Lemma not_export key rest :
  all_key_chars key = true ->
  Py.startswith (Py.lower (key +:+ String "=" rest)) "export " = false.
Proof.
  assert (Heq : Py.lower_char "=" = "="%char) by reflexivity.
  destruct key as [|a0 [|a1 [|a2 [|a3 [|a4 [|a5 [|a6 key]]]]]]];
    unfold String.app; cbn [String.append Py.lower Py.startswith all_key_chars];
    rewrite ?Heq; intros Hkey; try (by rewrite ?andb_false_r).
  repeat (apply andb_true_iff in Hkey as [? Hkey]).
  destruct (key_char_facts a6) as (_ & _ & _ & _ & ->); [done|].
  by rewrite ?andb_false_r.
Qed.

(** The scan for a comment passes over ordinary characters. *)
Lemma comment_start_ordinary v t : forall i,
  all_chars ordinary v = true ->
  comment_start (v +:+ t) i false false false
  = comment_start t (i + String.length v) false false false.
Proof.
  induction v as [|c v IH]; intros i Hv.
  { simpl. by rewrite Nat.add_0_r. }
  simpl in Hv. apply andb_true_iff in Hv as [Hc Hv].
  unfold ordinary in Hc.
  repeat (apply andb_true_iff in Hc as [Hc ?]).
  unfold String.app in *. cbn [String.append comment_start].
  repeat match goal with H : negb _ = true |- _ => apply negb_true_iff in H end.
  rewrite H1, Hc, H0, H. simpl. rewrite IH by done.
  f_equal. simpl. lia.
Qed.

Lemma comment_start_none v i :
  all_chars ordinary v = true -> comment_start v i false false false = None.
Proof.
  intros Hv. rewrite <- (append_nil_r v), comment_start_ordinary by done.
  done.
Qed.

Lemma ordinary_not_quoted v : all_chars ordinary v = true -> quoted v = false.
Proof.
  destruct v as [|c v]; [done|]. simpl. intros [Hc _]%andb_true_iff.
  unfold ordinary in Hc. repeat (apply andb_true_iff in Hc as [Hc ?]).
  repeat match goal with H : negb _ = true |- _ => apply negb_true_iff in H end.
  unfold quoted, Py.startswith, str1. by rewrite Hc, H1.
Qed.

Lemma not_quoted_app v t :
  v <> "" -> all_chars ordinary v = true -> quoted (v +:+ t) = false.
Proof.
  destruct v as [|c v]; [done|]. intros _. simpl. intros [Hc _]%andb_true_iff.
  unfold ordinary in Hc. repeat (apply andb_true_iff in Hc as [Hc ?]).
  repeat match goal with H : negb _ = true |- _ => apply negb_true_iff in H end.
  unfold quoted, String.app. cbn [String.append Py.startswith str1].
  by rewrite Hc, H1.
Qed.

(** A trimmed text of ordinary characters is stored as it is. *)
Lemma parse_value_ordinary raw_line v :
  all_chars ordinary v = true -> Py.lstrip v = v -> Py.rstrip v = v ->
  parse_value raw_line v = v.
Proof.
  intros Hv Hl Hr. unfold parse_value.
  rewrite (ordinary_not_quoted v Hv). cbn [negb].
  unfold strip_inline_comment_unquoted, Py.strip.
  rewrite (comment_start_none v 0 Hv), Hr, Hl, Hr.
  by rewrite (ordinary_not_quoted v Hv).
Qed.

Lemma comment_start_space_hash c i :
  comment_start (String " " (String "#" c)) i false false false = Some (S i).
Proof. reflexivity. Qed.

(** After such a text, a space and [#] start a comment. *)
Lemma parse_value_comment raw_line v c :
  v <> "" -> all_chars ordinary v = true ->
  Py.lstrip v = v -> Py.rstrip v = v ->
  parse_value raw_line (v +:+ " #" +:+ c) = v.
Proof.
  intros Hne Hv Hl Hr. unfold parse_value.
  rewrite (not_quoted_app v _ Hne Hv). cbn [negb].
  unfold strip_inline_comment_unquoted, Py.strip.
  rewrite (comment_start_ordinary v _ 0 Hv).
  change (" #" +:+ c) with (String " " (String "#" c)).
  rewrite comment_start_space_hash.
  change (String " " (String "#" c)) with (" " +:+ String "#" c).
  rewrite <- string_app_assoc.
  replace (S (0 + String.length v)) with (String.length (v +:+ " "))
    by (rewrite length_append; simpl; lia).
  rewrite take_append.
  replace (Py.rstrip (v +:+ " ")) with v
    by (rewrite rstrip_app; simpl; by rewrite Hr).
  rewrite Hl, Hr. by rewrite (ordinary_not_quoted v Hv).
Qed.

Lemma replace2_no_first o1 o2 new s :
  Py.contains o1 s = false -> Py.replace2 o1 o2 new s = s.
Proof.
  induction s as [|a s IH]; [done|]. simpl.
  intros [Ha Hs]%orb_false_iff. destruct s as [|b s']; [done|].
  rewrite Ha. cbn [andb]. by rewrite IH.
Qed.

Lemma decode_escapes_no_backslash v :
  Py.contains backslash v = false -> decode_escapes v = v.
Proof.
  intros Hv. unfold decode_escapes.
  by rewrite !(replace2_no_first backslash _ _ v Hv).
Qed.

Lemma quoted_is_quoted q v :
  q = squote \/ q = dquote -> quoted (str1 q +:+ v +:+ str1 q) = true.
Proof.
  intros Hq. unfold quoted, Py.endswith, String.rev.
  change (str1 q +:+ v +:+ str1 q) with (String q (v +:+ str1 q)).
  cbn [String.rev_app]. rewrite rev_app_append.
  by destruct Hq as [-> | ->].
Qed.

Lemma quoted_strip_ends q v : Py.strip_ends (str1 q +:+ v +:+ str1 q) = v.
Proof.
  unfold Py.strip_ends.
  change (str1 q +:+ v +:+ str1 q) with (String q (v +:+ str1 q)).
  cbn [String.length Py.drop]. rewrite length_append.
  replace (S (String.length v + String.length (str1 q)) - 2)
    with (String.length v) by (simpl; lia).
  apply take_append.
Qed.

(** A text without backslash between two quotes of the same kind is stored
    as it is. *)
Lemma parse_value_quoted raw_line q v :
  q = squote \/ q = dquote -> Py.contains backslash v = false ->
  parse_value raw_line (str1 q +:+ v +:+ str1 q) = v.
Proof.
  intros Hq Hv. unfold parse_value.
  rewrite (quoted_is_quoted q v Hq). cbn [negb].
  rewrite (quoted_is_quoted q v Hq), quoted_strip_ends.
  rewrite (decode_escapes_no_backslash v Hv). by destruct (_ || _).
Qed.

(** A line [key=text], the text not starting with whitespace, is an entry
    for [key]; its value is read from the right-trimmed text. *)
Lemma parse_line_entry key w :
  valid_key key = true -> Py.lstrip w = w ->
  parse_line (key +:+ "=" +:+ w +:+ str1 newline)
  = Entry key (parse_value (key +:+ "=" +:+ w +:+ str1 newline) (Py.rstrip w)).
Proof.
  intros [Hne Hkey]%andb_true_iff Hw.
  pose proof (key_no_space key Hkey) as Hsp.
  assert (Hstrip : Py.strip (key +:+ "=" +:+ w +:+ str1 newline)
                   = key +:+ String "=" (Py.rstrip w)).
  { unfold Py.strip.
    replace (Py.lstrip (key +:+ "=" +:+ w +:+ str1 newline))
      with (key +:+ "=" +:+ w +:+ str1 newline).
    2:{ destruct key as [|a key]; [done|]. simpl in Hsp.
        apply andb_true_iff in Hsp as [Ha _]. apply negb_true_iff in Ha.
        unfold String.app. simpl. by rewrite Ha. }
    rewrite <- (string_app_assoc key "=").
    rewrite rstrip_after by (apply rstrip_last; reflexivity).
    rewrite (rstrip_app w (str1 newline)).
    change (Py.lstrip (String.rev (str1 newline))) with "".
    by rewrite string_app_assoc. }
  unfold parse_line. rewrite Hstrip.
  destruct key as [|a key]; [done|].
  simpl in Hkey. apply andb_true_iff in Hkey as [Ha Hkey'].
  destruct (key_char_facts a Ha) as (_ & _ & Hhash & Hdq & _).
  replace (nonempty (String a key +:+ String "=" (Py.rstrip w))) with true
    by reflexivity.
  replace (Py.startswith (String a key +:+ String "=" (Py.rstrip w)) "#")
    with false
    by (unfold String.app; simpl; by rewrite Hhash).
  cbn [negb orb].
  rewrite not_export by (simpl; by rewrite Ha, Hkey').
  rewrite split_once_app
    by (apply key_no_equals; simpl; by rewrite Ha, Hkey').
  unfold Py.strip at 1 2.
  rewrite (lstrip_no_space _ Hsp), (rstrip_no_space _ Hsp).
  by rewrite (lstrip_rstrip w Hw), rstrip_idempotent.
Qed.

End Lines.

(** X10 (quoted values).  On a line [KEY="text"] or [KEY='text'] with a
    valid key and no backslash in the text, the value stored for [KEY] is
    the text between the quotes, unchanged: a [#] inside the quotes does
    not start a comment, and whitespace inside the quotes is kept. *)
Theorem quoted_value_is_kept key q v :
  valid_key key = true -> q = squote \/ q = dquote ->
  Py.contains backslash v = false ->
  parse_line (key +:+ "=" +:+ (str1 q +:+ v +:+ str1 q) +:+ str1 newline)
  = Entry key v.
Proof.
  intros Hkey Hq Hv.
  assert (Hqs : Py.isspace q = false) by (by destruct Hq as [-> | ->]).
  rewrite parse_line_entry; [|done|].
  2:{ change (str1 q +:+ v +:+ str1 q) with (String q (v +:+ str1 q)).
      simpl. by rewrite Hqs. }
  assert (Hr : Py.rstrip (str1 q +:+ v +:+ str1 q) = str1 q +:+ v +:+ str1 q).
  { rewrite <- (string_app_assoc (str1 q) v). by apply rstrip_last. }
  rewrite Hr. f_equal. by apply parse_value_quoted.
Qed.

Lemma quoted_value_is_kept_witness :
  parse_line ("KEY" +:+ "=" +:+ (str1 dquote +:+ " a # b " +:+ str1 dquote)
              +:+ str1 newline)
  = Entry "KEY" " a # b ".
Proof.
  apply (quoted_value_is_kept "KEY" dquote " a # b "); [reflexivity| |reflexivity].
  by right.
Defined.

(** X11 (plain lines).  A line [KEY=text] with a valid key and a text
    without quote, backslash or [#], not starting or ending with
    whitespace, is read as the entry [(KEY, text)]. *)
Theorem plain_line_is_an_entry key v :
  valid_key key = true -> all_chars ordinary v = true ->
  Py.lstrip v = v -> Py.rstrip v = v ->
  parse_line (key +:+ "=" +:+ v +:+ str1 newline) = Entry key v.
Proof.
  intros Hkey Hv Hl Hr. rewrite parse_line_entry by done.
  rewrite Hr. f_equal. by apply parse_value_ordinary.
Qed.

Lemma plain_line_is_an_entry_witness :
  parse_line ("DB_URL" +:+ "=" +:+ "postgres://u:p@host/db?x=1 y" +:+ str1 newline)
  = Entry "DB_URL" "postgres://u:p@host/db?x=1 y".
Proof.
  apply (plain_line_is_an_entry "DB_URL" "postgres://u:p@host/db?x=1 y");
    reflexivity.
Defined.

(** X12 (inline comments).  On a line [KEY=text #comment] with a valid key
    and a text as in X11 that is not empty, the value stored is the text:
    the space and the [#] start a comment that runs to the end of the
    line, whatever it contains. *)
Theorem inline_comment_is_dropped key v c :
  valid_key key = true -> v <> "" -> all_chars ordinary v = true ->
  Py.lstrip v = v -> Py.rstrip v = v ->
  parse_line (key +:+ "=" +:+ (v +:+ " #" +:+ c) +:+ str1 newline) = Entry key v.
Proof.
  intros Hkey Hne Hv Hl Hr.
  rewrite parse_line_entry; [|done|].
  2:{ rewrite lstrip_app, Hl. by destruct v. }
  assert (Hrs : Py.rstrip (v +:+ " #" +:+ c) = v +:+ " #" +:+ Py.rstrip c).
  { rewrite <- !(string_app_assoc v " #"). apply rstrip_after.
    change " #" with (" " +:+ str1 "#"). rewrite <- string_app_assoc.
    by apply rstrip_last. }
  rewrite Hrs. f_equal. by apply parse_value_comment.
Qed.

Lemma inline_comment_is_dropped_witness :
  parse_line ("KEY" +:+ "=" +:+ ("a" +:+ " #" +:+ " 'x' = " +:+ str1 dquote)
              +:+ str1 newline)
  = Entry "KEY" "a".
Proof.
  apply (inline_comment_is_dropped "KEY" "a"); [reflexivity|discriminate|reflexivity..].
Defined.

(** ** The modes of main *)

Section Modes.

Variable h : Host.

Lemma str_in_spec x xs : str_in x xs = true <-> x ∈ xs.
Proof.
  unfold str_in. rewrite existsb_exists. setoid_rewrite <- list_elem_of_In.
  split.
  - intros (t & Hin & Heq). apply String.eqb_eq in Heq. by subst.
  - intros Hin. exists x. split; [done|]. apply String.eqb_refl.
Qed.

Lemma str_in_false x xs : x ∉ xs -> str_in x xs = false.
Proof.
  intros Hx. destruct (str_in x xs) eqn:E; [|done]. by apply str_in_spec in E.
Qed.

(** A list that holds one of the program's own flags is not the plain
    help request. *)
Lemma plain_help_none argv flag :
  flag ∈ argv -> Py.str_eq flag "-h" = false -> Py.str_eq flag "--help" = false ->
  plain_help argv = None.
Proof.
  intros Hin H1 H2. destruct argv as [|a [|b rest]]; [done| |done].
  apply list_elem_of_singleton in Hin as ->. simpl. by rewrite H1, H2.
Qed.

Lemma runs_try_except_gen {A} (P : event -> Prop) (Q1 Q : result A -> Prop)
    (m : M A) handler :
  runs P Q1 m ->
  (forall a, Q1 (Ok a) -> Q (Ok a)) ->
  (forall msg, Q (Raise (SystemExit msg))) ->
  (forall e, runs P Q (handler e)) ->
  runs P Q (try_except m handler).
Proof.
  intros Hm Hok Hexit Hh s. unfold try_except.
  destruct (Hm s) as (r & s1 & t1 & -> & Ht1 & HP1 & HQ1).
  assert (Hhandled : forall e,
    exists r s' t, handler e s1 = Some (r, s')
                   /\ trace s' = trace s ++ t /\ Forall P t /\ Q r).
  { intros e. destruct (Hh e s1) as (r' & s2 & t2 & Hrun & Ht2 & HP2 & HQ2).
    exists r', s2, (t1 ++ t2). rewrite Hrun, Ht2, Ht1, <- (assoc_L (++)).
    split; [done|]. split; [done|]. split; [|done]. by apply Forall_app. }
  destruct r as [a|[]]; try apply Hhandled.
  - exists (Ok a), s1, t1. auto.
  - exists (Raise (SystemExit msg)), s1, t1. auto.
Qed.

Lemma runs_render_template_string_gen (P : event -> Prop) template_path env debug :
  (forall m, P (Print Stderr m)) -> (forall t, P (JinjaRender t)) ->
  runs P any_result (render_template_string h template_path env debug).
Proof.
  intros Hprint Hrender. unfold render_template_string.
  destruct (negb (jinja2_installed h)); [by apply runs_raise|].
  eapply (runs_bind _ any_result);
    [apply runs_when_gen; [|done]; eapply runs_post;
       [by apply runs_print|done]
    |intros _ _|done].
  eapply (runs_bind _ any_result);
    [eapply runs_post; [by apply runs_emit|done]|intros _ _|done].
  destruct (jinja h template_path env); [by apply runs_ret|].
  eapply (runs_bind _ any_result);
    [apply runs_when_gen; [|done]; eapply runs_post;
       [by apply runs_print|done]
    |intros _ _|done].
  by apply runs_raise.
Qed.

(** The end of [run_single_debug]: the rendering in memory and the exit. *)
Lemma debug_render_and_exit template_path :
  runs diagnostic status_0_or_1
    (bind
       match template_path with
       | Some template_path =>
           try_except
             (bind get_environ (fun env =>
              bind (render_template_string h template_path env true) (fun rendered =>
              bind (print Stderr (DbgRenderOk (String.length rendered))) (fun _ =>
              bind (print Stderr DbgUseDump) (fun _ => ret None)))))
             (fun e =>
                bind (print Stderr (MsgRenderFailed (exn_text e)))
                  (fun _ => ret (Some 1%Z)))
       | None => bind (print Stderr DbgNoTemplate) (fun _ => ret None)
       end
       (fun returned =>
          match returned with
          | Some code => ret code
          | None => bind (print Stderr DbgComplete) (fun _ => ret 0%Z)
          end)).
Proof.
  set (Q1 := fun r : result (option Z) =>
               match r with
               | Ok None | Ok (Some 1%Z) | Raise _ => True
               | Ok (Some _) => False
               end).
  eapply (runs_bind _ Q1).
  - destruct template_path as [template_path|].
    + apply (runs_try_except_gen _ Q1); [|done|done|].
      * eapply (runs_bind _ any_result);
          [eapply runs_post; [apply runs_get_environ|done]|intros env _|done].
        eapply (runs_bind _ any_result);
          [by apply runs_render_template_string_gen|intros rendered _|done].
        eapply (runs_bind _ any_result);
          [eapply runs_post; [by apply runs_print|done]|intros _ _|done].
        eapply (runs_bind _ any_result);
          [eapply runs_post; [by apply runs_print|done]|intros _ _|done].
        by apply runs_ret.
      * intros e. eapply (runs_bind _ any_result);
          [eapply runs_post; [by apply runs_print|done]|intros _ _|done].
        by apply runs_ret.
    + eapply (runs_bind _ any_result);
        [eapply runs_post; [by apply runs_print|done]|intros _ _|done].
      by apply runs_ret.
  - intros [code|] Hcode.
    + destruct code as [|[]|]; try done. apply runs_ret. by right.
    + eapply (runs_bind _ any_result);
        [eapply runs_post; [by apply runs_print|done]|intros _ _|by right].
      apply runs_ret. by left.
  - intros e _. by right.
Qed.

End Modes.

(** Walks [run_single_debug] up to its last step. *)
Ltac debug_walk h :=
  lazymatch goal with
  | |- runs _ _ (bind (match _ with Some _ => _ | None => _ end) _) =>
      apply (debug_render_and_exit h)
  | |- runs _ _ (bind _ _) =>
      eapply (runs_bind _ any_result);
      [runs_walk | intros ? _; cbv beta; debug_walk h | intros; by right]
  | |- runs _ _ (match ?x with _ => _ end) => destruct x; debug_walk h
  end.

Lemma run_single_debug_is_diagnostic h prog argv :
  runs diagnostic status_0_or_1 (run_single_debug h prog argv).
Proof.
  unfold run_single_debug. cbv zeta. debug_walk h; by apply runs_raise; right.
Qed.

(** X13 (the program's help wins).  Whenever [--jhelp] is among the
    arguments, whatever the others are, the program prints its usage text
    on standard output and exits with status 0: it loads no env file,
    renders nothing, spawns nothing, and a malformed flag is no error. *)
Theorem jhelp_wins h argv s :
  "--jhelp" ∈ argv ->
  dcj h argv s
  = Some (0%Z, {| environ := environ s;
                  trace := trace s ++ [Print Stdout (MsgHelp (program_name h))] |}).
Proof.
  intros Hin. unfold dcj, main.
  rewrite (plain_help_none argv "--jhelp" Hin) by reflexivity.
  by rewrite (proj2 (str_in_spec "--jhelp" argv) Hin).
Qed.

Lemma jhelp_wins_witness :
  let h := example_host [line "FOO=bar"] true true in
  dcj h ["--jdebug"; "--env-file"; "--jhelp"; "--yml-file"] (initial ∅)
  = Some (0%Z, {| environ := ∅; trace := [Print Stdout (MsgHelp "dcj")] |}).
Proof.
  intros h.
  apply (jhelp_wins h ["--jdebug"; "--env-file"; "--jhelp"; "--yml-file"]
           (initial ∅)).
  apply (bool_decide_unpack _). vm_compute. exact I.
Defined.

(** X14 (the debug mode is a diagnostic pass).  When [--jdebug] is among
    the arguments and [--jhelp] is not, the run terminates with exit status
    0 or 1, and all it does is print on standard error, load the env file
    into the environment and render the template in memory: it writes no
    file, creates no directory, prints nothing on standard output and
    spawns no process. *)
Theorem jdebug_is_read_only h argv s :
  "--jdebug" ∈ argv -> "--jhelp" ∉ argv ->
  exists code s' t,
    dcj h argv s = Some (code, s') /\ trace s' = trace s ++ t
    /\ Forall diagnostic t /\ (code = 0%Z \/ code = 1%Z).
Proof.
  intros Hdebug Hhelp.
  assert (Hruns : runs diagnostic status_0_or_1 (main h argv)).
  { unfold main. rewrite (plain_help_none argv "--jdebug" Hdebug) by reflexivity.
    rewrite (str_in_false _ _ Hhelp), (proj2 (str_in_spec _ _) Hdebug).
    apply run_single_debug_is_diagnostic. }
  destruct (dcj_of_main h diagnostic status_0_or_1 argv ltac:(done) Hruns s)
    as (r & s' & t & Hrun & Ht & HP & HQ).
  by exists (exit_status r), s', t.
Qed.

Lemma jdebug_is_read_only_witness :
  let h := example_host [line "FOO=bar"] true true in
  let argv := ["up"; "--jdebug"; "--yml-file=out/x.yml"] in
  exists code s' t,
    dcj h argv (initial ∅) = Some (code, s')
    /\ trace s' = trace (initial ∅) ++ t
    /\ Forall diagnostic t /\ (code = 0%Z \/ code = 1%Z).
Proof.
  intros h argv.
  apply (jdebug_is_read_only h argv (initial ∅));
    apply (bool_decide_unpack _); vm_compute; exact I.
Defined.

(** ** One child process at most *)

Section Once.

Variable h : Host.

Lemma once_after t1 t2 r :
  Forall not_spawn t1 -> spawns_at_most_once h t2 r ->
  spawns_at_most_once h (t1 ++ t2) r.
Proof.
  intros Ht1 [Ht2|(t0 & cmd & t3 & -> & Ht0 & Ht3 & ->)].
  - left. by apply Forall_app.
  - right. exists (t1 ++ t0), cmd, t3. rewrite <- (assoc_L (++)).
    split; [done|]. split; [by apply Forall_app|done].
Qed.

Lemma once_of_runs {A} (m : M A) (k : A -> M Z) :
  runs not_spawn any_result m ->
  (forall a, runs_to (spawns_at_most_once h) (k a)) ->
  runs_to (spawns_at_most_once h) (bind m k).
Proof.
  intros Hm Hk s. unfold bind.
  destruct (Hm s) as ([a|e] & s1 & t1 & -> & Ht1 & HP1 & _).
  - destruct (Hk a s1) as (r & s2 & t2 & -> & Ht2 & HT).
    exists r, s2, (t1 ++ t2). split; [done|].
    rewrite Ht2, Ht1, <- (assoc_L (++)). split; [done|]. by apply once_after.
  - exists (Raise e), s1, t1. split; [done|]. split; [done|]. by left.
Qed.

Lemma once_leaf (m : M Z) :
  runs not_spawn any_result m -> runs_to (spawns_at_most_once h) m.
Proof.
  intros Hm s. destruct (Hm s) as (r & s1 & t1 & Hrun & Ht1 & HP1 & _).
  exists r, s1, t1. split; [done|]. split; [done|]. by left.
Qed.

Lemma main_compose_once needs_default_f rw :
  runs_to (spawns_at_most_once h) (main_compose h needs_default_f rw).
Proof.
  intros s. unfold main_compose.
  destruct (which_compose h) as [[compose_argv label]|e].
  - eexists _, _, [_; _]. split; [reflexivity|]. simpl.
    rewrite <- (assoc_L (++)). split; [reflexivity|]. right.
    eexists [_], _, []. split; [reflexivity|]. by repeat constructor.
  - eexists _, s, []. split; [reflexivity|]. rewrite app_nil_r.
    split; [done|]. by left.
Qed.

Lemma main_with_rewriter_once rw :
  runs_to (spawns_at_most_once h) (main_with_rewriter h rw).
Proof.
  unfold main_with_rewriter. cbv zeta.
  apply once_of_runs; [runs_walk|intros _].
  apply once_of_runs; [runs_walk|intros _].
  destruct (find_first_template h) as [template_path|].
  - apply once_of_runs; [runs_walk; apply runs_makedirs|intros _].
    destruct (dump (custom rw)).
    + apply once_leaf. runs_walk. apply runs_render_template_string.
    + apply once_of_runs; [runs_walk|intros env].
      apply once_of_runs; [apply runs_render_template_to_yaml|intros _].
      apply main_compose_once.
  - destruct (dump (custom rw)); [apply once_leaf; runs_walk|].
    apply main_compose_once.
Qed.

Lemma main_once argv : runs_to (spawns_at_most_once h) (main h argv).
Proof.
  unfold main. destruct (plain_help argv) as [a|].
  { intros s. destruct (which_compose h) as [[compose_argv label]|e].
    - eexists _, _, [_; _; _]. split; [reflexivity|]. simpl.
      rewrite <- !(assoc_L (++)). split; [reflexivity|]. right.
      eexists [_], _, [_]. split; [reflexivity|]. by repeat constructor.
    - eexists _, s, []. split; [reflexivity|]. rewrite app_nil_r.
      split; [done|]. by left. }
  destruct (str_in "--jhelp" argv); [apply once_leaf; runs_walk|].
  destruct (str_in "--jdebug" argv);
    [apply once_leaf, runs_run_single_debug|].
  unfold main_normal.
  apply once_of_runs; [apply runs_process|intros rw].
  apply main_with_rewriter_once.
Qed.

(** *** Dump mode writes nothing *)

Lemma dump_is_quiet rw :
  dump (custom rw) = true ->
  runs quiet
    (fun r => match find_first_template h with
              | Some _ => status_0_or_1 r
              | None => True
              end)
    (main_with_rewriter h rw).
Proof.
  intros Hdump. unfold main_with_rewriter. cbv zeta. rewrite Hdump.
  assert (Hraise : forall A (e : exn), any_result (@Raise A e) ->
    match find_first_template h with
    | Some _ => status_0_or_1 (Raise e)
    | None => True
    end).
  { intros A e _. destruct (find_first_template h); [by right|done]. }
  eapply (runs_bind _ any_result); [runs_walk|intros _ _|apply Hraise].
  eapply (runs_bind _ any_result); [runs_walk|intros _ _|apply Hraise].
  destruct (find_first_template h) as [template_path|]; [|runs_walk].
  eapply (runs_bind _ any_result);
    [runs_walk; unfold makedirs; runs_walk|intros _ _|by right].
  set (Q1 := fun r : result (string + Z) =>
               match r with
               | Ok (inl _) | Ok (inr 1%Z) | Raise _ => True
               | Ok (inr _) => False
               end).
  eapply (runs_bind _ Q1).
  - apply (runs_try_except_gen _ Q1); [|done|done|].
    + eapply (runs_bind _ any_result); [runs_walk|intros env _|done].
      eapply (runs_bind _ any_result);
        [by apply runs_render_template_string_gen|intros rendered _|done].
      by apply runs_ret.
    + intros e. eapply (runs_bind _ any_result); [runs_walk|intros _ _|done].
      by apply runs_ret.
  - intros [rendered|code] Hcode.
    + eapply (runs_bind _ any_result); [runs_walk|intros _ _|by right].
      apply runs_ret. by left.
    + destruct code as [|[]|]; try done. apply runs_ret. by right.
  - intros e _. by right.
Qed.

(** *** The choice of the template *)

Lemma first_existing_spec names :
  match first_existing h names with
  | Some name =>
      exists before after,
        names = before ++ name :: after
        /\ isfile h name = true
        /\ Forall (fun n => isfile h n = false) before
  | None => Forall (fun n => isfile h n = false) names
  end.
Proof.
  induction names as [|n names IH]; [by constructor|]. simpl.
  destruct (isfile h n) eqn:Hn.
  - by exists [], names.
  - destruct (first_existing h names) as [name|].
    + destruct IH as (before & after & -> & Hname & Hbefore).
      exists (n :: before), after. split; [done|]. split; [done|].
      by constructor.
    + by constructor.
Qed.

End Once.

(** X15 (one child process at most).  In every mode and on every input the
    program terminates, spawns at most one child process, and when it
    spawns one its exit status is the return code of that process as
    [sys.exit] hands it on: reduced to its low eight bits, so that a child
    killed by signal 15 (return code -15) gives status 241. *)
Theorem at_most_one_child_process h argv s :
  exists code s' t,
    dcj h argv s = Some (code, s') /\ trace s' = trace s ++ t
    /\ (Forall not_spawn t
        \/ exists t0 cmd t1,
             t = t0 ++ Spawn cmd :: t1
             /\ Forall not_spawn t0 /\ Forall not_spawn t1
             /\ code = sys_exit_status (subprocess_run h cmd)).
Proof.
  destruct (main_once h argv s) as (r & s1 & t & Hrun & Ht & HT).
  unfold dcj. rewrite Hrun. destruct r as [code|e].
  - exists (sys_exit_status code), s1, t. split; [done|]. split; [done|].
    destruct HT as [HT|(t0 & cmd & t1 & -> & Ht0 & Ht1 & [= ->])];
      [by left|right]. by exists t0, cmd, t1.
  - eexists 1%Z, _, (t ++ [Print Stderr (MsgUncaught e)]).
    split; [reflexivity|]. simpl. rewrite Ht, <- (assoc_L (++)).
    split; [done|].
    destruct HT as [HT|(t0 & cmd & t1 & -> & Ht0 & Ht1 & [=])].
    left. apply Forall_app. split; [done|]. by repeat constructor.
Qed.

(** X16 (dump mode writes nothing).  In normal mode, when the rewriter has
    recognized [--dump], the run neither writes a file nor spawns a
    process, and when a template exists the exit status is 0 or 1. *)
Theorem dump_mode_writes_nothing h argv out c s :
  normal_mode argv ->
  rewrite_argv argv = Some (Ok (out, c)) ->
  dump c = true ->
  exists code s' t,
    dcj h argv s = Some (code, s') /\ trace s' = trace s ++ t
    /\ Forall quiet t
    /\ (is_Some (find_first_template h) -> code = 0%Z \/ code = 1%Z).
Proof.
  intros Hmode Hrw Hdump.
  destruct (rewrite_process _ _ _ Hrw) as (rw & Hproc & <- & <-).
  pose proof (dump_is_quiet h rw Hdump) as Hruns.
  rewrite <- (main_normal_rewriter h argv rw Hproc),
          <- (main_normal_mode h argv Hmode) in Hruns.
  destruct (dcj_of_main h quiet _ argv ltac:(done) Hruns s)
    as (r & s' & t & Hrun & Ht & HP & HQ).
  exists (exit_status r), s', t. split; [done|]. split; [done|].
  split; [done|]. intros [tp Htp]. by rewrite Htp in HQ.
Qed.

Lemma dump_mode_writes_nothing_witness :
  let h := example_host [line "FOO=bar"] true true in
  let argv := ["--yml-file"; "out/x.yml"; "--dump"] in
  exists code s' t,
    dcj h argv (initial ∅) = Some (code, s')
    /\ trace s' = trace (initial ∅) ++ t
    /\ Forall quiet t
    /\ (is_Some (find_first_template h) -> code = 0%Z \/ code = 1%Z).
Proof.
  intros h argv.
  apply (dump_mode_writes_nothing h argv ["-f"; "out/x.yml"]
           {| yml_file := Some "out/x.yml"; env_file := None; dump := true |}
           (initial ∅));
    [repeat split| |]; vm_compute; reflexivity.
Defined.

(** X17 (the choice of the template).  [find_first_template] returns the
    first of the four candidate names, in their fixed order, that is an
    existing file: every candidate before the one returned does not exist;
    and it returns nothing exactly when none of the four exists. *)
Theorem find_first_template_priority h :
  match find_first_template h with
  | Some name =>
      exists before after,
        DEFAULT_TEMPLATE_NAMES = before ++ name :: after
        /\ isfile h name = true
        /\ Forall (fun n => isfile h n = false) before
  | None => Forall (fun n => isfile h n = false) DEFAULT_TEMPLATE_NAMES
  end.
Proof. apply first_existing_spec. Qed.

(** ** From the env file to the child process *)

Section EndToEnd.

Variable h : Host.

Lemma load_dotenv_entries_at path debug s :
  Forall (fun kv => Py.contains nul kv.2 = false) (entries_at h path) ->
  exists loaded_keys s' t,
    load_dotenv h path debug s = Some (Ok loaded_keys, s')
    /\ environ s' = environ s ∪ list_to_map (entries_at h path)
    /\ trace s' = trace s ++ t /\ Forall env_or_stderr t.
Proof.
  intros Hnul.
  destruct (load_dotenv_spec h path debug s)
    as (keys & s' & t & Hrun & Htr & Hev & _).
  exists keys, s', t. split; [done|]. split; [|done].
  revert Hrun Hnul. unfold load_dotenv, entries_at.
  destruct (regular_file h path) as [f|].
  2:{ intros [= <- <-] _. simpl. by rewrite (right_id_L ∅ (∪)). }
  intros Hrun Hnul.
  assert (Hgo : forall at_eof,
    bind (load_lines debug (file_lines f) at_eof [])
      (fun '(loaded_keys, failure) =>
         bind match failure with
              | Some _ => print Stderr (MsgLoadFailed path)
              | None => ret tt
              end (fun _ => ret loaded_keys)) s
    = Some (Ok keys, s') ->
    environ s' = environ s ∪ list_to_map (dotenv_entries (file_lines f))).
  { intros at_eof. unfold bind at 1.
    destruct (load_lines_union debug at_eof (file_lines f) Hnul [] s)
      as (keys' & s1 & -> & Henv).
    destruct at_eof; unfold bind, print, emit, ret; simpl;
      intros [= _ <-]; done. }
  destruct f; by apply (Hgo _ Hrun).
Qed.

Lemma main_with_rewriter_renders rw template_path text compose_argv label s :
  dump (custom rw) = false ->
  find_first_template h = Some template_path ->
  which_compose h = Ok (compose_argv, label) ->
  let env_path := or_else (env_file (custom rw)) DEFAULT_ENV_FILE in
  let output_yml := or_else (yml_file (custom rw)) DEFAULT_OUTPUT_YML in
  let out_dir := dirname h output_yml in
  let env := environ s ∪ list_to_map (entries_at h env_path) in
  Forall (fun kv => Py.contains nul kv.2 = false) (entries_at h env_path) ->
  (nonempty out_dir && negb (isdir h out_dir) = true ->
   makedirs_ok h out_dir = true) ->
  jinja2_installed h = true ->
  jinja h template_path env = Rendered text ->
  open_w_ok h output_yml = true ->
  let cmd := compose_argv ++
             (if negb (str_in "-f" (rewritten rw))
                 && negb (str_in "--file" (rewritten rw))
              then ["-f"; output_yml] ++ rewritten rw else rewritten rw) in
  exists s' t0,
    main_with_rewriter h rw s = Some (Ok (subprocess_run h cmd), s')
    /\ environ s' = env
    /\ trace s' = trace s ++ t0 ++
         [ JinjaRender template_path; WriteFile output_yml text;
           Print Stdout (MsgUsing label cmd); Spawn cmd ]
    /\ Forall quiet t0.
Proof.
  intros Hdump Htpl Hwhich env_path output_yml out_dir env Hnul Hdirs
    Hjinja Hrender Hopen cmd.
  unfold main_with_rewriter. cbv zeta. rewrite Hdump, Htpl.
  fold env_path output_yml. fold out_dir.
  (* the warning about a missing env file *)
  match goal with
  | |- context [bind (when ?b (print ?to ?m)) ?k s] =>
      destruct (bind_when_print b to m k s) as (s0 & Henv0 & Htr0 & ->)
  end.
  match type of Htr0 with _ = _ ++ ?t => set (t_warn := t) in * end.
  assert (Hwarn : Forall quiet t_warn)
    by (subst t_warn; destruct (truthy _ && _); by repeat constructor).
  clearbody t_warn.
  (* loading the env file *)
  unfold bind at 1.
  destruct (load_dotenv_entries_at env_path false s0 Hnul)
    as (keys & s1 & t1 & -> & Henv1 & Htr1 & Hev1).
  (* the directory of the output file *)
  unfold bind at 1.
  assert (Hmk : exists s2 t2,
    when (nonempty out_dir && negb (isdir h out_dir)) (makedirs h out_dir) s1
    = Some (Ok tt, s2)
    /\ environ s2 = environ s1 /\ trace s2 = trace s1 ++ t2 /\ Forall quiet t2).
  { destruct (nonempty out_dir && negb (isdir h out_dir)); simpl.
    - unfold makedirs. rewrite (Hdirs eq_refl).
      eexists _, [_]. split; [reflexivity|]. by repeat constructor.
    - exists s1, []. unfold ret. by rewrite app_nil_r. }
  destruct Hmk as (s2 & t2 & -> & Henv2 & Htr2 & Hq2).
  (* rendering and writing *)
  unfold bind at 1, get_environ.
  assert (Henv : environ s2 = env) by (unfold env; congruence).
  unfold bind at 1, render_template_to_yaml, render_template_string.
  rewrite Hjinja, Henv. cbn [negb when]. unfold bind at 1 2 3, ret, emit.
  cbn [environ trace]. rewrite Hrender, Hopen.
  (* the child process *)
  unfold main_compose. rewrite Hwhich. unfold bind, lift, print, emit, ret.
  cbn [environ trace].
  assert (Hfinal :
    final_args
      (if negb (str_in "-f" (rewritten rw)) && negb (str_in "--file" (rewritten rw))
       then Some output_yml else None) (rewritten rw)
    = if negb (str_in "-f" (rewritten rw)) && negb (str_in "--file" (rewritten rw))
      then ["-f"; output_yml] ++ rewritten rw else rewritten rw).
  { destruct (negb _ && negb _); [|done]. unfold final_args, output_yml.
    by rewrite or_else_nonempty. }
  rewrite Hfinal. fold cmd.
  eexists _, (t_warn ++ t1 ++ t2).
  split; [reflexivity|]. cbn [environ trace]. split; [done|].
  split.
  - rewrite Htr2, Htr1, Htr0, <- !(assoc_L (++)). reflexivity.
  - apply Forall_app. split; [done|].
    apply Forall_app. split; [|done].
    eapply Forall_impl; [exact Hev1|]. by intros [[]| | | | |].
Qed.

End EndToEnd.

(** X18 (from the env file to the child process).  In normal mode without
    dump, with a template, a runner and no failing step, the output file
    receives the template rendered with the ambient environment completed
    by the entries of the env file (ambient bindings first, then the first
    entry of each key); this is the environment the run leaves, and the
    run ends by announcing and spawning the runner with the final argument
    list, whose return code it returns.  The env file is the one given by
    [--env-file], or [.env]; the output path the one given by [--yml-file],
    or [docker-compose.yml]. *)
Theorem env_file_to_child_process
    h argv out c template_path text compose_argv label s :
  normal_mode argv ->
  rewrite_argv argv = Some (Ok (out, c)) ->
  dump c = false ->
  find_first_template h = Some template_path ->
  which_compose h = Ok (compose_argv, label) ->
  let env_path := or_else (env_file c) DEFAULT_ENV_FILE in
  let output_yml := or_else (yml_file c) DEFAULT_OUTPUT_YML in
  let out_dir := dirname h output_yml in
  let env := environ s ∪ list_to_map (entries_at h env_path) in
  Forall (fun kv => Py.contains nul kv.2 = false) (entries_at h env_path) ->
  (nonempty out_dir && negb (isdir h out_dir) = true ->
   makedirs_ok h out_dir = true) ->
  jinja2_installed h = true ->
  jinja h template_path env = Rendered text ->
  open_w_ok h output_yml = true ->
  let cmd := compose_argv ++
             (if negb (str_in "-f" out) && negb (str_in "--file" out)
              then ["-f"; output_yml] ++ out else out) in
  exists s' t0,
    main h argv s = Some (Ok (subprocess_run h cmd), s')
    /\ environ s' = env
    /\ trace s' = trace s ++ t0 ++
         [ JinjaRender template_path; WriteFile output_yml text;
           Print Stdout (MsgUsing label cmd); Spawn cmd ]
    /\ Forall quiet t0.
Proof.
  intros Hmode Hrw Hdump Htpl Hwhich.
  destruct (rewrite_process _ _ _ Hrw) as (rw & Hproc & <- & <-).
  rewrite (main_normal_mode h argv Hmode), (main_normal_rewriter h argv rw Hproc).
  by apply main_with_rewriter_renders.
Qed.

Lemma env_file_to_child_process_witness :
  let h := example_host [line "FOO=bar"; line "FOO=later"] true true in
  let argv := ["up"; "-d"] in
  let cmd := ["/usr/bin/docker"; "compose"; "-f"; "docker-compose.yml";
              "up"; "-d"] in
  exists s' t0,
    main h argv (initial ∅) = Some (Ok (subprocess_run h cmd), s')
    /\ environ s' = ∅ ∪ list_to_map (entries_at h ".env")
    /\ trace s' = trace (initial ∅) ++ t0 ++
         [ JinjaRender "docker-compose.jinja";
           WriteFile "docker-compose.yml" "image: bar";
           Print Stdout (MsgUsing "docker compose" cmd); Spawn cmd ]
    /\ Forall quiet t0.
Proof.
  intros h argv cmd.
  apply (env_file_to_child_process h argv argv CustomArgs_default
           "docker-compose.jinja" "image: bar"
           ["/usr/bin/docker"; "compose"] "docker compose" (initial ∅));
    try (vm_compute; reflexivity).
  - repeat split.
  - vm_compute. repeat constructor.
Defined.

(** ** The runner, the rendering, and flags that are not given *)

Section Misc.

Local Arguments Py.str_eq : simpl never.
Local Arguments Py.startswith : simpl never.

Lemma fold_custom_dump gs : forall c,
  dump (fold_left seg_custom gs c) = dump c || existsb is_dump_flag gs.
Proof.
  induction gs as [|g gs IH]; intros c; simpl; [by rewrite orb_false_r|].
  rewrite IH. destruct g; simpl; try done. by rewrite orb_true_r.
Qed.

Lemma startswith_self_prefix p v : Py.startswith (p +:+ v) p = true.
Proof.
  induction p as [|a p IH]; [done|]. unfold String.app in *.
  cbn [String.append]. unfold Py.startswith. fold Py.startswith.
  by rewrite Ascii.eqb_refl, IH.
Qed.

Lemma segments_without_flags argv gs :
  segments argv = Ok gs ->
  (Forall (no_match "--yml-file") argv -> yml_values gs = [])
  /\ (Forall (no_match "--env-file") argv -> env_values gs = [])
  /\ ("--dump" ∉ argv -> existsb is_dump_flag gs = false).
Proof.
  revert argv gs. apply segments_ind; [done|].
  intros g rest gs Hok _ (IHy & IHe & IHd).
  split; [|split].
  - intros [Hg Hrest]%Forall_app. unfold yml_values. cbn [flat_map].
    fold (yml_values gs). rewrite (IHy Hrest), app_nil_r.
    destruct g; simpl in *; try done.
    + apply Forall_cons in Hg as [[Hg _] _]. done.
    + apply Forall_cons in Hg as [[_ Hg] _]. subst tok.
      change ("--yml-file" +:+ "=") with "--yml-file=" in Hg.
      by rewrite startswith_self_prefix in Hg.
  - intros [Hg Hrest]%Forall_app. unfold env_values. cbn [flat_map].
    fold (env_values gs). rewrite (IHe Hrest), app_nil_r.
    destruct g; simpl in *; try done.
    + apply Forall_cons in Hg as [[Hg _] _]. done.
    + apply Forall_cons in Hg as [[_ Hg] _]. subst tok.
      change ("--env-file" +:+ "=") with "--env-file=" in Hg.
      by rewrite startswith_self_prefix in Hg.
  - intros Hno. cbn [existsb]. rewrite IHd.
    + destruct g; simpl in *; try done. exfalso. apply Hno. by left.
    + intros Hin. apply Hno. apply elem_of_app. by right.
Qed.

End Misc.

(** X19 (help pass-through and the choice of the runner).  Run with the
    single argument [-h] or [--help], the program loads nothing and
    forwards the flag: to [docker compose] when [docker] is on the path,
    else to [docker-compose] when that is on the path; it prints a tip
    after the child has run and exits with the child's return code as
    [sys.exit] hands it on, reduced to its low eight bits.  With neither on
    the path it exits with status 1 and spawns nothing. *)
Theorem help_passthrough h a s :
  a = "-h" \/ a = "--help" ->
  dcj h [a] s
  = match which h "docker", which h "docker-compose" with
    | Some docker, _ =>
        let cmd := [docker; "compose"; a] in
        Some (sys_exit_status (subprocess_run h cmd),
              {| environ := environ s;
                 trace := trace s ++
                   [ Print Stdout (MsgForwardingHelp "docker compose" cmd);
                     Spawn cmd; Print Stdout MsgTip ] |})
    | None, Some legacy =>
        let cmd := [legacy; a] in
        Some (sys_exit_status (subprocess_run h cmd),
              {| environ := environ s;
                 trace := trace s ++
                   [ Print Stdout (MsgForwardingHelp "docker-compose" cmd);
                     Spawn cmd; Print Stdout MsgTip ] |})
    | None, None =>
        Some (1%Z,
              {| environ := environ s;
                 trace := trace s ++
                   [Print Stderr (MsgUncaught (RuntimeError RUNNER_NOT_FOUND))] |})
    end.
Proof.
  intros Ha. unfold dcj, main, which_compose.
  replace (plain_help [a]) with (Some a) by (by destruct Ha as [-> | ->]).
  destruct (which h "docker") as [docker|];
    [|destruct (which h "docker-compose") as [legacy|]];
    unfold bind, lift, print, emit, ret; cbn [environ trace];
    by rewrite <- ?(assoc_L (++)).
Qed.

(** On the machine whose child is killed by signal 15 the help is forwarded
    and the program exits with status 241. *)
Lemma help_passthrough_witness :
  let cmd := ["/usr/bin/docker"; "compose"; "--help"] in
  ("--help" = "-h" \/ "--help" = "--help")
  /\ dcj killed_child_host ["--help"] (initial ∅)
     = Some (241%Z,
             {| environ := ∅;
                trace := [ Print Stdout (MsgForwardingHelp "docker compose" cmd);
                           Spawn cmd; Print Stdout MsgTip ] |}).
Proof.
  intros cmd. split; [by right|].
  rewrite (help_passthrough killed_child_host "--help" (initial ∅));
    [reflexivity|by right].
Defined.


(** X21 (no flag, no custom value).  When [process] accepts the token
    list: without a token [--dump] the dump flag is not set; without a
    token that is [--yml-file] or starts with [--yml-file=] no output file
    is recorded; without a token that is [--env-file] or starts with
    [--env-file=] no env file is recorded. *)
Theorem custom_values_need_their_flag argv out c :
  rewrite_argv argv = Some (Ok (out, c)) ->
  ("--dump" ∉ argv -> dump c = false)
  /\ (Forall (no_match "--yml-file") argv -> yml_file c = None)
  /\ (Forall (no_match "--env-file") argv -> env_file c = None).
Proof.
  intros (gs & Hgs & -> & ->)%rewrite_ok.
  destruct (segments_without_flags argv gs Hgs) as (Hy & He & Hd).
  split; [|split].
  - intros Hno. by rewrite fold_custom_dump, (Hd Hno).
  - intros Hno. by rewrite fold_custom_yml, (Hy Hno).
  - intros Hno. by rewrite fold_custom_env, (He Hno).
Qed.

Lemma custom_values_need_their_flag_witness :
  let argv := ["--env-file"; "--dump"; "up"; "--yml-filex"] in
  let c := {| yml_file := None; env_file := Some "--dump"; dump := false |} in
  ("--dump" ∉ argv -> dump c = false)
  /\ (Forall (no_match "--yml-file") argv -> yml_file c = None)
  /\ (Forall (no_match "--env-file") argv -> env_file c = None).
Proof.
  intros argv c.
  apply (custom_values_need_their_flag argv
           ["--env-file"; "--dump"; "up"; "--yml-filex"] c).
  vm_compute. reflexivity.
Defined.
